(** * Mem0 content scripts: submission interception and memory composition

    A shallow embedding of the in-page controllers of the extension:
    - [extension/chatgpt/content.js]     (module [ChatGPT]),
    - [extension/perplexity/content.js]  (module [TextSite], site [Perplexity]),
    - the Grok content script            (module [TextSite], site [Grok]).

    JavaScript strings are sequences of UTF-16 code units; the scripts run on
    the page's single-threaded event loop, so every handler is modelled as a
    function that runs from one suspension point ([await]) to the next, and a
    run of the page is a sequence of such steps. *)

From Stdlib Require Import String Ascii List NArith Arith Bool Lia.
Import ListNotations.

(** ** JavaScript strings *)

Module JS.

(** A string is the list of its UTF-16 code units. *)
Definition jsstring := list N.

(** The code units of an ASCII literal of the source. *)
Definition lit (s : string) : jsstring :=
  map N_of_ascii (list_ascii_of_string s).
Arguments lit s%_string.

Definition nl : jsstring := [10%N].
Definition dquote : jsstring := [34%N].

(** ECMAScript [WhiteSpace] and [LineTerminator] code points: what
    [String.prototype.trim] removes and what [\s] matches. *)
Definition isWhiteSpace (c : N) : bool :=
  ((9 <=? c) && (c <=? 13) || (c =? 32) || (c =? 160) || (c =? 5760)
   || (8192 <=? c) && (c <=? 8202) || (c =? 8232) || (c =? 8233)
   || (c =? 8239) || (c =? 8287) || (c =? 12288) || (c =? 65279))%N.

Fixpoint trimStart (s : jsstring) : jsstring :=
  match s with
  | [] => []
  | c :: r => if isWhiteSpace c then trimStart r else s
  end.

Definition trimEnd (s : jsstring) : jsstring := rev (trimStart (rev s)).

Definition trim (s : jsstring) : jsstring := trimEnd (trimStart s).

Fixpoint startsWith (p s : jsstring) : bool :=
  match p, s with
  | [], _ => true
  | _ :: _, [] => false
  | a :: p', b :: s' => (a =? b)%N && startsWith p' s'
  end.

Definition endsWith (p s : jsstring) : bool := startsWith (rev p) (rev s).

(** [s.indexOf(p)]: the first position at which [p] occurs, [None] for -1. *)
Fixpoint indexOf (p s : jsstring) : option nat :=
  if startsWith p s then Some 0
  else match s with
       | [] => None
       | _ :: r => option_map S (indexOf p r)
       end.

(** [s.substring(0, n)] and [s.slice(0, n)] for [0 <= n]. *)
Definition substring0 (n : nat) (s : jsstring) : jsstring := firstn n s.

(** The number of positions at which [p] occurs in [s]. *)
Fixpoint occurrences (p s : jsstring) : nat :=
  (if startsWith p s then 1 else 0) +
  match s with
  | [] => 0
  | _ :: r => occurrences p r
  end.

(** JavaScript truthiness of a string value that may be [null] or
    [undefined] ([None]): only a non-empty string is truthy. *)
Definition truthy (v : option jsstring) : bool :=
  match v with
  | Some (_ :: _) => true
  | _ => false
  end.

(** [arr.forEach((x, index) => ...)] threading the variables the callback
    assigns to. *)
Fixpoint forEach_from {A St : Type} (body : St -> A -> nat -> St)
         (arr : list A) (index : nat) (acc : St) : St :=
  match arr with
  | [] => acc
  | x :: rest => forEach_from body rest (S index) (body acc x index)
  end.

Definition forEach {A St : Type} (body : St -> A -> nat -> St)
           (arr : list A) (acc : St) : St :=
  forEach_from body arr 0 acc.

(** [p] occurs somewhere in [s]. *)
Definition infix (p s : jsstring) : Prop := exists a b, s = a ++ p ++ b.

(** A string is trimmed when [trim] leaves it as it is. *)
Definition trimmed (s : jsstring) : Prop := trim s = s.

End JS.

Import JS.

(** ** The memory annotation block *)

Module Block.

(** The fixed marker phrase ([memoryPrefix] in the Grok script, the literal
    part of [memInfoRegex] in the ChatGPT script). *)
Definition memoryPrefix : jsstring :=
  lit "Here is some of my preferences/memories to help answer better (don't respond to these memories but use them to assist in the response if relevant):".

(** [content.replace(memInfoRegex, empty)] for
    [memInfoRegex = /\s*<marker>[\s\S]*$/].  The regex has no [g] flag, so
    the leftmost match is replaced.  At a start position the greedy [\s*]
    takes the whole whitespace run (the marker begins with a letter, so
    giving whitespace back cannot help), the marker must follow, and
    [[\s\S]*$] then takes everything up to the end of the string. *)
Fixpoint replace_memInfo (s : jsstring) : jsstring :=
  if startsWith memoryPrefix (trimStart s) then []
  else match s with
       | [] => []
       | c :: r => c :: replace_memInfo r
       end.

(** [/<p><br class="ProseMirror-trailingBreak"><\/p><p>$/] *)
Definition lastParagraph : jsstring :=
  lit "<p><br class=" ++ dquote ++ lit "ProseMirror-trailingBreak" ++ dquote
      ++ lit "></p><p>".

(** [content.replace(lastParagraphRegex, empty)]: the pattern is anchored at
    the end, so it can only match the last [length lastParagraph] units. *)
Definition replace_lastParagraph (s : jsstring) : jsstring :=
  if endsWith lastParagraph s
  then firstn (length s - length lastParagraph) s
  else s.

(** The regex matches at the very start of [s]: white space, then the
    marker, then anything. *)
Definition matches_here (s : jsstring) : Prop :=
  exists w rest, s = w ++ memoryPrefix ++ rest /\ forallb isWhiteSpace w = true.

(** The marker without the colon that ends it. *)
Definition marker_body : jsstring := removelast memoryPrefix.

(** The marker strip of the ChatGPT script in its bare form: the regex,
    then [trim] (lines 166 and 226). *)
Definition strip_regex (s : jsstring) : jsstring := trim (replace_memInfo s).

End Block.

Import Block.

(** ** What the scripts exchange with the page and with the memory service *)

Module Page.

Inductive role := user | assistant.

(** [{ role, content }] *)
Record ConversationMessage := {
  msg_role : role;
  msg_content : jsstring
}.

(** [{ memory }], the rest of a search result is ignored. *)
Record MemoryRecord := { memory : jsstring }.

(** The JSON body of a search response, by the shapes the scripts test. *)
Inductive responseData :=
| DataResults (rs : list MemoryRecord)   (* { data: { results: [...] } } *)
| Results (rs : list MemoryRecord)       (* { results: [...] } *)
| BareArray (rs : list MemoryRecord)     (* [...] *)
| OtherObject.                           (* any other object, such as {} *)

(** How a [fetch] settles: the promise rejects, or resolves with a status
    and a body ([None]: the body is not JSON, so [response.json()]
    rejects). *)
Inductive fetchResult :=
| NetworkError
| HttpResponse (status : N) (body : option responseData).

(** [response.ok] *)
Definition ok (status : N) : bool := ((200 <=? status) && (status <=? 299))%N.

(** The [event] tags of the operations an add response reports. *)
Inductive opEvent := ADD | UPDATE | DELETE | NONE | OtherEvent.

Inductive addResult :=
| AddNetworkError
| AddResponse (status : N) (operations : list opEvent).

(** Everything a script does to the outside, in the order it does it. *)
Inductive effect :=
| PreventDefault
| StopPropagation
| ConsoleLog
| ConsoleWarn
| ConsoleError (msg : string)
| ShowPopup (msg : string)
| ButtonLoading (isLoading : bool)
| InputWritten (content : jsstring)
| DispatchInput
| SearchCall (query : jsstring) (limit : N)
| AddCall (messages : list ConversationMessage) (infer : bool)
| SetTimeoutClick (delay : N)
| ClickSend.
Arguments ConsoleError msg%_string.
Arguments ShowPopup msg%_string.

Definition isSearchCall (e : effect) : bool :=
  match e with SearchCall _ _ => true | _ => false end.

Definition isAddCall (e : effect) : bool :=
  match e with AddCall _ _ => true | _ => false end.

(** The effects that release a submission: arming the click timer, or the
    click itself. *)
Definition isRelease (e : effect) : bool :=
  match e with SetTimeoutClick _ | ClickSend => true | _ => false end.

Definition isInputWrite (e : effect) : bool :=
  match e with InputWritten _ => true | _ => false end.

Definition isNotice (e : effect) : bool :=
  match e with ShowPopup _ => true | _ => false end.

Definition count (p : effect -> bool) (t : list effect) : nat :=
  length (filter p t).

(** An effect that neither calls the memory service, nor releases a
    submission, nor writes the input. *)
Definition quiet (e : effect) : bool :=
  negb (isSearchCall e || isAddCall e || isRelease e || isInputWrite e).

(** Removing and replacing the [i]-th suspended activation. *)
Fixpoint remove_nth {A : Type} (i : nat) (l : list A) : list A :=
  match l, i with
  | [], _ => []
  | _ :: r, O => r
  | x :: r, S j => x :: remove_nth j r
  end.

Fixpoint replace_nth {A : Type} (i : nat) (y : A) (l : list A) : list A :=
  match l, i with
  | [], _ => []
  | _ :: r, O => y :: r
  | x :: r, S j => x :: replace_nth j y r
  end.

End Page.

Import Page.

(** ** extension/chatgpt/content.js *)

Module ChatGPT.

Inductive tagName := DIV | TEXTAREA.

(** The input node the script finds with
    [querySelector('div[contenteditable=true]') || querySelector('textarea')]:
    a [div] with its text content and markup, or a [textarea] with its text
    content and value. *)
Inductive inputElement :=
| Div (textContent innerHTML : jsstring)
| Textarea (textContent value : jsstring).

Definition tag (el : inputElement) : tagName :=
  match el with Div _ _ => DIV | Textarea _ _ => TEXTAREA end.

(** A child of the message container: it holds a user turn, an assistant
    turn, or neither.  The text is [None] when the node the script reads it
    from ([.whitespace-pre-wrap], [.markdown]) is missing, in which case
    reading [textContent] of [null] throws. *)
Inductive turnElement :=
| UserTurn (text : option jsstring)
| AssistantTurn (text : option jsstring)
| OtherElement.

(** What started an activation of [handleMem0Click]: the Enter listener and
    the Ctrl+M listener call [handleMem0Click(null, true)], the button's
    click listener calls [handleMem0Click(popup)]. *)
Inductive trigger := EnterKey | CtrlM | Mem0Button.

Definition popup_of (tr : trigger) : bool :=
  match tr with Mem0Button => true | _ => false end.

Definition clickSendButton_of (tr : trigger) : bool :=
  match tr with Mem0Button => false | _ => true end.

(** An activation of [handleMem0Click] suspended at [await fetch(search)],
    with the locals it resumes with. *)
Record cycle := {
  c_trigger : trigger;
  c_inputElement : bool;
  c_message : jsstring;
  c_messages : list ConversationMessage
}.

Record state := {
  isProcessingMem0 : bool;
  input : option inputElement;
  sendButton : bool;
  messageContainer : option (list turnElement);
  inflight : list cycle;
  adds : list (list ConversationMessage);
  timers : nat;
  trace : list effect
}.

Definition emit (es : list effect) (st : state) : state :=
  {| isProcessingMem0 := isProcessingMem0 st; input := input st;
     sendButton := sendButton st; messageContainer := messageContainer st;
     inflight := inflight st; adds := adds st; timers := timers st;
     trace := trace st ++ es |}.

Definition set_isProcessingMem0 (b : bool) (st : state) : state :=
  {| isProcessingMem0 := b; input := input st;
     sendButton := sendButton st; messageContainer := messageContainer st;
     inflight := inflight st; adds := adds st; timers := timers st;
     trace := trace st |}.

Definition set_input (i : option inputElement) (st : state) : state :=
  {| isProcessingMem0 := isProcessingMem0 st; input := i;
     sendButton := sendButton st; messageContainer := messageContainer st;
     inflight := inflight st; adds := adds st; timers := timers st;
     trace := trace st |}.

Definition set_inflight (l : list cycle) (st : state) : state :=
  {| isProcessingMem0 := isProcessingMem0 st; input := input st;
     sendButton := sendButton st; messageContainer := messageContainer st;
     inflight := l; adds := adds st; timers := timers st;
     trace := trace st |}.

Definition set_adds (l : list (list ConversationMessage)) (st : state) : state :=
  {| isProcessingMem0 := isProcessingMem0 st; input := input st;
     sendButton := sendButton st; messageContainer := messageContainer st;
     inflight := inflight st; adds := l; timers := timers st;
     trace := trace st |}.

Definition set_timers (n : nat) (st : state) : state :=
  {| isProcessingMem0 := isProcessingMem0 st; input := input st;
     sendButton := sendButton st; messageContainer := messageContainer st;
     inflight := inflight st; adds := adds st; timers := n;
     trace := trace st |}.

(** The page as the script finds it when it is loaded. *)
Definition init (i : option inputElement) (sb : bool)
           (mc : option (list turnElement)) : state :=
  {| isProcessingMem0 := false; input := i; sendButton := sb;
     messageContainer := mc; inflight := []; adds := []; timers := 0;
     trace := [] |}.

(** [getMemoryEnabledState]: resolves to [true]. *)
Definition getMemoryEnabledState : bool := true.

(** [getInputValue]: [inputElement ? inputElement.textContent ||
    inputElement.value : null]; a [div] has no [value]. *)
Definition getInputValue (st : state) : option jsstring :=
  match input st with
  | None => None
  | Some (Div textContent _) =>
      if truthy (Some textContent) then Some textContent else None
  | Some (Textarea textContent value) =>
      if truthy (Some textContent) then Some textContent else Some value
  end.

(** Lines 164-170: the marker regex, [trim], and the cut after the first
    closing paragraph tag. *)
Definition strip_message (message : jsstring) : jsstring :=
  let message := trim (replace_memInfo message) in
  match indexOf (lit "</p>") message with
  | Some endIndex => firstn (endIndex + 4) message
  | None => message
  end.

(** [getLastMessages(count)]: walks the container's children from the
    last one, stops once [count] messages are collected, and puts each
    message in front of the ones found so far.  [None] is the [TypeError]
    of reading the text of a missing node. *)
Fixpoint getLastMessages_loop (count : nat) (messageElements : list turnElement)
         (messages : list ConversationMessage)
  : option (list ConversationMessage) :=
  match messageElements with
  | [] => Some messages
  | element :: rest =>
      if count <=? length messages then Some messages
      else match element with
           | UserTurn (Some t) =>
               getLastMessages_loop count rest
                 ({| msg_role := user; msg_content := trim t |} :: messages)
           | UserTurn None => None
           | AssistantTurn (Some t) =>
               getLastMessages_loop count rest
                 ({| msg_role := assistant; msg_content := trim t |} :: messages)
           | AssistantTurn None => None
           | OtherElement => getLastMessages_loop count rest messages
           end
  end.

Definition getLastMessages (count : nat) (st : state)
  : option (list ConversationMessage) :=
  match messageContainer st with
  | None => Some []
  | Some children => getLastMessages_loop count (rev children) []
  end.

(** [responseData.data?.results || responseData.results || []] *)
Definition memoriesArray (d : responseData) : list MemoryRecord :=
  match d with
  | DataResults rs => rs
  | Results rs => rs
  | BareArray _ => []
  | OtherObject => []
  end.

(** Lines 224-229: what is kept of the input's current markup. *)
Definition strip_content (currentContent : jsstring) : jsstring :=
  trim (replace_lastParagraph (trim (replace_memInfo currentContent))).

Definition wrapper_open : jsstring :=
  lit "<div id=" ++ dquote ++ lit "mem0-wrapper" ++ dquote ++ lit " style="
      ++ dquote
      ++ lit "background-color: rgb(220, 252, 231); padding: 8px; border-radius: 4px; margin-top: 8px; margin-bottom: 8px;"
      ++ dquote ++ lit ">".

(** Lines 231-238. *)
Definition memoriesContent (memories : list jsstring) : jsstring :=
  let memoriesContent := wrapper_open in
  let memoriesContent :=
    memoriesContent ++ lit "<strong>" ++ memoryPrefix ++ lit "</strong>" in
  let memoriesContent :=
    forEach (fun acc mem _ => acc ++ lit "<div>- " ++ mem ++ lit "</div>")
            memories memoriesContent in
  memoriesContent ++ lit "</div>".

(** Lines 219-244: the new markup of a [div], the new value of a
    [textarea]. *)
Definition compose (t : tagName) (currentContent : jsstring)
           (memories : list jsstring) : jsstring :=
  let currentContent := strip_content currentContent in
  match t with
  | DIV => currentContent ++ lit "<div><br></div>" ++ memoriesContent memories
  | TEXTAREA => currentContent ++ nl ++ memoriesContent memories
  end.

Section Handlers.

(** The text content the browser gives a [div] whose [innerHTML] is
    assigned: the page's HTML parser, which the script does not own. *)
Variable render : jsstring -> jsstring.

(** [inputElement.innerHTML = content] or [inputElement.value = content].
    When the page has dropped the node in the meantime, the assignment
    goes to a detached node and the page does not change. *)
Definition write_input (content : jsstring) (st : state) : state :=
  match input st with
  | None => st
  | Some (Div _ _) =>
      emit [InputWritten content]
           (set_input (Some (Div (render content) content)) st)
  | Some (Textarea textContent _) =>
      emit [InputWritten content]
           (set_input (Some (Textarea textContent content)) st)
  end.

(** [tagName === div ? innerHTML : value] of the node as it is now. *)
Definition current_content (st : state) : jsstring :=
  match input st with
  | None => []
  | Some (Div _ innerHTML) => innerHTML
  | Some (Textarea _ value) => value
  end.

(** The send button lookup of lines 140-147 and 775-782. *)
Definition click_now (st : state) : state :=
  if sendButton st then emit [ClickSend] st
  else emit [ConsoleError "Send button not found"] st.

(** What becomes of the promise [handleMem0Click] returns when it
    rejects: the Enter listener logs the error, the other two callers
    leave the rejection unhandled. *)
Definition on_rejection (tr : trigger) : list effect :=
  match tr with
  | EnterKey => [ConsoleError "Error in Mem0 processing:"]
  | _ => []
  end.

(** The [catch] and [finally] blocks, lines 280-287. *)
Definition catch_finally (tr : trigger) (st : state) : state :=
  let st := emit [ConsoleError "Mem0 Local Error:"] st in
  let st := if popup_of tr
            then emit [ShowPopup "Error connecting to local Mem0 server"] st
            else st in
  let st := emit [ButtonLoading false] st in
  let st := set_isProcessingMem0 false st in
  emit (on_rejection tr) st.

(** [handleMem0Click(popup, clickSendButton)] from its call up to
    [await fetch(search)], lines 135-199.  [await
    getMemoryEnabledState()] resumes in a microtask, before the page
    handles its next event. *)
Definition handleMem0Click (tr : trigger) (st : state) : state :=
  if negb getMemoryEnabledState then
    if clickSendButton_of tr then click_now st else st
  else
    let st := emit [ButtonLoading true] st in
    let inputElement := input st in
    let message := getInputValue st in
    if negb (truthy message) then
      let st := emit [ConsoleError "No input message found"] st in
      let st := if popup_of tr
                then emit [ShowPopup "No input message found"] st
                else st in
      emit [ButtonLoading false] st
    else
      let message := strip_message (match message with Some m => m | None => [] end) in
      if isProcessingMem0 st then st
      else
        let st := set_isProcessingMem0 true st in
        let st := emit [ConsoleLog] st in
        match getLastMessages 2 st with
        | None => catch_finally tr st
        | Some messages =>
            let messages :=
              messages ++ [{| msg_role := user; msg_content := message |}] in
            let st := emit [SearchCall message 20] st in
            set_inflight
              (inflight st ++
               [{| c_trigger := tr;
                   c_inputElement :=
                     match inputElement with Some _ => true | None => false end;
                   c_message := message;
                   c_messages := messages |}]) st
        end.

(** [handleMem0Click] from the moment the search [fetch] settles to its
    end, lines 201-287.  [addMemoryWithContext(messages)] runs up to its
    own [await fetch], so the add request leaves before [finally]. *)
Definition resume_search (c : cycle) (r : fetchResult) (st : state) : state :=
  match r with
  | NetworkError => catch_finally (c_trigger c) st
  | HttpResponse status body =>
      if negb (ok status) then catch_finally (c_trigger c) st
      else match body with
           | None => catch_finally (c_trigger c) st
           | Some responseData =>
               let popup := popup_of (c_trigger c) in
               let st := emit [ConsoleLog] st in
               let st :=
                 if c_inputElement c then
                   let memories := map memory (memoriesArray responseData) in
                   let st := emit [ConsoleLog] st in
                   match memories with
                   | _ :: _ =>
                       let content :=
                         match input st with
                         | Some el => compose (tag el) (current_content st) memories
                         | None => []
                         end in
                       let st := write_input content st in
                       emit [DispatchInput; ConsoleLog] st
                   | [] =>
                       let st := write_input (c_message c) st in
                       let st := emit [DispatchInput] st in
                       if popup then emit [ShowPopup "No memories found"] st
                       else st
                   end
                 else if popup
                      then emit [ShowPopup "No input field found to update"] st
                      else st in
               let st := emit [ButtonLoading false] st in
               let st :=
                 if clickSendButton_of (c_trigger c) then
                   if sendButton st
                   then set_timers (S (timers st)) (emit [SetTimeoutClick 100] st)
                   else emit [ConsoleError "Send button not found"] st
                 else st in
               let st := emit [ConsoleLog; AddCall (c_messages c) true] st in
               let st := set_adds (adds st ++ [c_messages c]) st in
               set_isProcessingMem0 false st
           end
  end.

(** [addMemoryWithContext] from the moment its [fetch] settles, lines
    310-386: the operations are logged; a failed request is logged and
    repeated once without [infer], and that second request is not
    awaited. *)
Definition resume_add (messages : list ConversationMessage) (r : addResult)
           (st : state) : state :=
  let fallback :=
    emit [ConsoleError "Error in addMemoryWithContext:";
          AddCall messages false] in
  match r with
  | AddNetworkError => fallback st
  | AddResponse status operations =>
      if negb (ok status) then fallback st
      else
        let st := emit [ConsoleLog] st in
        match operations with
        | [] => st
        | _ :: _ =>
            let st := emit [ConsoleLog] st in
            let st := emit (map (fun _ => ConsoleLog) operations) st in
            let deletes :=
              length (filter (fun op => match op with DELETE => true | _ => false end)
                             operations) in
            let st := emit [ConsoleLog] st in
            if 0 <? deletes then emit [ConsoleWarn] st else st
        end
  end.

(** What the page's event loop hands to the script. *)
Inductive event :=
| KeyDownEnter (shiftKey : bool)
| KeyDownCtrlM
| ClickMem0Button
| SearchSettled (i : nat) (r : fetchResult)
| AddSettled (i : nat) (r : addResult)
| TimerFired
| HostMutation (i : option inputElement) (sb : bool)
               (mc : option (list turnElement)).

(** One turn of the event loop, with the microtasks it queues. *)
Definition step (st : state) (e : event) : state :=
  match e with
  | KeyDownEnter shiftKey =>
      (* the listener of [addEnterKeyInterception], on the input node *)
      match input st with
      | None => st
      | Some _ =>
          if negb shiftKey then
            let st := emit [PreventDefault; StopPropagation] st in
            if getMemoryEnabledState then handleMem0Click EnterKey st
            else click_now st
          else st
      end
  | KeyDownCtrlM =>
      handleMem0Click CtrlM (emit [PreventDefault] st)
  | ClickMem0Button => handleMem0Click Mem0Button st
  | SearchSettled i r =>
      match nth_error (inflight st) i with
      | Some c => resume_search c r (set_inflight (remove_nth i (inflight st)) st)
      | None => st
      end
  | AddSettled i r =>
      match nth_error (adds st) i with
      | Some messages => resume_add messages r (set_adds (remove_nth i (adds st)) st)
      | None => st
      end
  | TimerFired =>
      match timers st with
      | O => st
      | S n => emit [ClickSend] (set_timers n st)
      end
  | HostMutation i sb mc =>
      {| isProcessingMem0 := isProcessingMem0 st; input := i;
         sendButton := sb; messageContainer := mc;
         inflight := inflight st; adds := adds st; timers := timers st;
         trace := trace st |}
  end.

(** A run of the page: the events it handles, in order. *)
Definition run (st : state) (es : list event) : state :=
  fold_left step es st.

(** The states a page can be in after the script was loaded. *)
Inductive reachable : state -> Prop :=
| reachable_init i sb mc : reachable (init i sb mc)
| reachable_step st e : reachable st -> reachable (step st e).

End Handlers.

(** The event with which the page starts an activation for a trigger. *)
Definition event_of (tr : trigger) : event :=
  match tr with
  | EnterKey => KeyDownEnter false
  | CtrlM => KeyDownCtrlM
  | Mem0Button => ClickMem0Button
  end.

(** The state of the guard: the flag is set exactly while one activation
    waits for its search, and what waits holds the node it found and a
    message without marker. *)
Definition guarded (st : state) : Prop :=
  (if isProcessingMem0 st then length (inflight st) = 1 else inflight st = [])
  /\ Forall (fun c => c_inputElement c = true
                       /\ ~ infix memoryPrefix (c_message c))
             (inflight st).

End ChatGPT.

(** ** extension/perplexity/content.js and the Grok content script

    The two scripts are the same program up to a few lines; [site] selects
    the lines of one or the other. *)

Module TextSite.

Inductive site := Perplexity | Grok.

(** What [chrome.storage.sync.get] hands to its callback. *)
Record items := {
  apiKey : option jsstring;
  userId : option jsstring;
  access_token : option jsstring;
  memory_enabled : option bool
}.

(** An activation of [handleMem0Processing] suspended at an [await]: at
    the storage read, or at the search [fetch]. *)
Inductive pending :=
| AwaitStorage (capturedText message : jsstring) (clickSendButton : bool)
| AwaitSearch (capturedText message : jsstring) (clickSendButton : bool)
              (messages : list ConversationMessage).

Record state := {
  lastInputValue : jsstring;
  isEnterKeyPressed : bool;
  textarea : option jsstring;     (* the value of the textarea, if there is one *)
  focused : bool;                 (* document.activeElement === textarea *)
  sendButton : bool;
  storage : items;
  inflight : list pending;
  adds : nat;                     (* add requests that have not settled *)
  timers : nat;                   (* armed setTimeout callbacks *)
  trace : list effect
}.

Definition emit (es : list effect) (st : state) : state :=
  {| lastInputValue := lastInputValue st;
     isEnterKeyPressed := isEnterKeyPressed st; textarea := textarea st;
     focused := focused st; sendButton := sendButton st;
     storage := storage st; inflight := inflight st; adds := adds st;
     timers := timers st; trace := trace st ++ es |}.

Definition set_lastInputValue (v : jsstring) (st : state) : state :=
  {| lastInputValue := v;
     isEnterKeyPressed := isEnterKeyPressed st; textarea := textarea st;
     focused := focused st; sendButton := sendButton st;
     storage := storage st; inflight := inflight st; adds := adds st;
     timers := timers st; trace := trace st |}.

Definition set_isEnterKeyPressed (b : bool) (st : state) : state :=
  {| lastInputValue := lastInputValue st;
     isEnterKeyPressed := b; textarea := textarea st;
     focused := focused st; sendButton := sendButton st;
     storage := storage st; inflight := inflight st; adds := adds st;
     timers := timers st; trace := trace st |}.

Definition set_textarea (v : option jsstring) (st : state) : state :=
  {| lastInputValue := lastInputValue st;
     isEnterKeyPressed := isEnterKeyPressed st; textarea := v;
     focused := focused st; sendButton := sendButton st;
     storage := storage st; inflight := inflight st; adds := adds st;
     timers := timers st; trace := trace st |}.

Definition set_inflight (l : list pending) (st : state) : state :=
  {| lastInputValue := lastInputValue st;
     isEnterKeyPressed := isEnterKeyPressed st; textarea := textarea st;
     focused := focused st; sendButton := sendButton st;
     storage := storage st; inflight := l; adds := adds st;
     timers := timers st; trace := trace st |}.

Definition set_adds (n : nat) (st : state) : state :=
  {| lastInputValue := lastInputValue st;
     isEnterKeyPressed := isEnterKeyPressed st; textarea := textarea st;
     focused := focused st; sendButton := sendButton st;
     storage := storage st; inflight := inflight st; adds := n;
     timers := timers st; trace := trace st |}.

Definition set_timers (n : nat) (st : state) : state :=
  {| lastInputValue := lastInputValue st;
     isEnterKeyPressed := isEnterKeyPressed st; textarea := textarea st;
     focused := focused st; sendButton := sendButton st;
     storage := storage st; inflight := inflight st; adds := adds st;
     timers := n; trace := trace st |}.

(** The page as the script finds it when it is loaded. *)
Definition init (ta : option jsstring) (f sb : bool) (it : items) : state :=
  {| lastInputValue := []; isEnterKeyPressed := false; textarea := ta;
     focused := f; sendButton := sb; storage := it; inflight := [];
     adds := 0; timers := 0; trace := [] |}.

(** The prefix strip of the Grok script, lines 151-156, on
    [lastInputValue]. *)
Definition strip_prefix (lastInputValue : jsstring) : jsstring :=
  match indexOf memoryPrefix lastInputValue with
  | Some prefixIndex => trim (substring0 prefixIndex lastInputValue)
  | None => lastInputValue
  end.

(** The block both scripts build, with the [forEach] loop that puts a
    newline after every bullet but the last. *)
Definition memoriesContent (memories : list jsstring) : jsstring :=
  let memoriesContent := nl ++ nl ++ memoryPrefix ++ nl in
  forEach
    (fun memoriesContent mem index =>
       let memoriesContent := memoriesContent ++ lit "- " ++ mem in
       if index <? length memories - 1 then memoriesContent ++ nl
       else memoriesContent)
    memories memoriesContent.

(** The value the scripts assign to the textarea when the search returned
    memories: the message followed by the block. *)
Definition compose (message : jsstring) (memories : list jsstring) : jsstring :=
  message ++ memoriesContent memories.

(** [responseData.data?.results || responseData.results || responseData],
    [None] when the result has no [map] method and the call throws. *)
Definition memoriesArray (d : responseData) : option (list MemoryRecord) :=
  match d with
  | DataResults rs => Some rs
  | Results rs => Some rs
  | BareArray rs => Some rs
  | OtherObject => None
  end.

(** [setInputValue(inputElement, value)] with [inputElement =
    getTextarea()]; the [input] event it dispatches makes the script's own
    listener store the same value in [lastInputValue] again. *)
Definition setInputValue (value : jsstring) (st : state) : state :=
  match textarea st with
  | None => st
  | Some _ =>
      emit [InputWritten value; DispatchInput]
           (set_lastInputValue value (set_textarea (Some value) st))
  end.

(** [clickSendButtonWithDelay]: arms a timer; the button is looked up when
    the timer fires. *)
Definition clickSendButtonWithDelay (st : state) : state :=
  set_timers (S (timers st)) (emit [SetTimeoutClick 0] st).

(** [handleMem0Processing(capturedText, clickSendButton)] up to the
    storage read, lines 69-90 (Perplexity) and 78-96 (Grok). *)
Definition handleMem0Processing (capturedText : jsstring)
           (clickSendButton : bool) (st : state) : state :=
  let st := emit [ConsoleLog] st in
  let message :=
    if truthy (Some capturedText) then Some capturedText
    else option_map trim (textarea st) in
  match message with
  | None => st        (* TypeError on textarea.value: the call rejects *)
  | Some message =>
      if negb (truthy (Some message))
      then emit [ConsoleError "No input message found"] st
      else set_inflight
             (inflight st ++ [AwaitStorage capturedText message clickSendButton])
             st
  end.

(** [handleEnterKey(event)], the capturing [keydown] listener on the
    document.  The boolean tells whether it stopped the propagation. *)
Definition handleEnterKey (s : site) (shiftKey isComposing : bool)
           (st : state) : state * bool :=
  if negb shiftKey && negb isComposing then
    let st := match s with Perplexity => emit [ConsoleLog] st | Grok => st end in
    match textarea st with
    | Some value =>
        if focused st then
          let capturedText := trim value in
          if truthy (Some capturedText) then
            let st := emit [PreventDefault; StopPropagation] st in
            (handleMem0Processing capturedText true st, true)
          else (st, false)
        else (st, false)
    | None => (st, false)
    end
  else (st, false).

(** The [keydown] listener [setupInputObserver] puts on the textarea. *)
Definition textarea_keydown (shiftKey : bool) (st : state) : state :=
  match textarea st with
  | Some value =>
      if focused st && negb shiftKey
      then set_lastInputValue value (set_isEnterKeyPressed true st)
      else st
  | None => st
  end.

(** The [catch] block: Perplexity puts [originalMessage] back, Grok only
    logs. *)
Definition catch_block (s : site) (originalMessage : jsstring) (st : state)
  : state :=
  let st := emit [ConsoleError "Error:"] st in
  match s with
  | Perplexity =>
      if truthy (Some originalMessage) then setInputValue originalMessage st
      else st
  | Grok => st
  end.

(** From the storage callback to [await fetch(search)]. *)
Definition resume_storage (i : nat) (capturedText message : jsstring)
           (clickSendButton : bool) (st : state) : state :=
  let data := storage st in
  let memoryEnabled :=
    match memory_enabled data with Some false => false | _ => true end in
  if negb (truthy (apiKey data)) && negb (truthy (access_token data)) then
    emit [ConsoleError "No API Key or Access Token found"]
         (set_inflight (remove_nth i (inflight st)) st)
  else if negb memoryEnabled then
    let st := set_inflight (remove_nth i (inflight st)) st in
    let st := emit [ConsoleLog] st in
    if clickSendButton then clickSendButtonWithDelay st else st
  else
    let messages := [{| msg_role := user; msg_content := message |}] in
    emit [SearchCall message 10]
         (set_inflight
            (replace_nth i (AwaitSearch capturedText message clickSendButton messages)
                         (inflight st)) st).

(** From the moment the search [fetch] settles to the end of
    [handleMem0Processing]. *)
Definition resume_search (s : site) (capturedText message : jsstring)
           (clickSendButton : bool) (messages : list ConversationMessage)
           (r : fetchResult) (st : state) : state :=
  match r with
  | NetworkError => catch_block s message st
  | HttpResponse status body =>
      if negb (ok status) then catch_block s message st
      else match body with
           | None => catch_block s message st
           | Some responseData =>
               match textarea st with
               | Some _ =>
                   let st := match s with
                             | Grok => set_lastInputValue
                                         (strip_prefix (lastInputValue st)) st
                             | Perplexity => st
                             end in
                   match memoriesArray responseData with
                   | None => catch_block s message st
                   | Some memoriesArray =>
                       let memories := map memory memoriesArray in
                       let st :=
                         match memories with
                         | _ :: _ =>
                             match s with
                             | Perplexity => setInputValue (compose message memories) st
                             | Grok => setInputValue (compose capturedText memories) st
                             end
                         | [] =>
                             match s with
                             | Perplexity => setInputValue message st
                             | Grok => st
                             end
                         end in
                       let st := if clickSendButton
                                 then clickSendButtonWithDelay st else st in
                       set_adds (S (adds st)) (emit [AddCall messages true] st)
                   end
               | None =>
                   let st := emit [ConsoleError "Input element not found"] st in
                   set_adds (S (adds st)) (emit [AddCall messages true] st)
               end
           end
  end.

(** What the page's event loop hands to the script. *)
Inductive event :=
| KeyDownEnter (shiftKey isComposing : bool)
| KeyUpEnter
| UserInput (v : jsstring)
| StorageGot (i : nat)
| SearchSettled (i : nat) (r : fetchResult)
| AddSettled (r : addResult)
| TimerFired
| HostMutation (ta : option jsstring) (f sb : bool) (it : items).

(** One turn of the event loop. *)
Definition step (s : site) (st : state) (e : event) : state :=
  match e with
  | KeyDownEnter shiftKey isComposing =>
      let (st, stopped) := handleEnterKey s shiftKey isComposing st in
      if stopped then st else textarea_keydown shiftKey st
  | KeyUpEnter =>
      match textarea st with
      | Some _ => if focused st then set_isEnterKeyPressed false st else st
      | None => st
      end
  | UserInput v =>
      match textarea st with
      | Some _ => set_lastInputValue v (set_textarea (Some v) st)
      | None => st
      end
  | StorageGot i =>
      match nth_error (inflight st) i with
      | Some (AwaitStorage capturedText message clickSendButton) =>
          resume_storage i capturedText message clickSendButton st
      | _ => st
      end
  | SearchSettled i r =>
      match nth_error (inflight st) i with
      | Some (AwaitSearch capturedText message clickSendButton messages) =>
          resume_search s capturedText message clickSendButton messages r
                        (set_inflight (remove_nth i (inflight st)) st)
      | _ => st
      end
  | AddSettled r =>
      match adds st with
      | O => st
      | S n =>
          let st := set_adds n st in
          match r with
          | AddNetworkError => emit [ConsoleError "Error adding memory:"] st
          | AddResponse status _ =>
              if negb (ok status)
              then emit [ConsoleError "Failed to add memory"] st
              else st
          end
      end
  | TimerFired =>
      match timers st with
      | O => st
      | S n =>
          let st := set_timers n st in
          if sendButton st then emit [ClickSend] st
          else emit [ConsoleError "Send button not found"] st
      end
  | HostMutation ta f sb it =>
      {| lastInputValue := lastInputValue st;
         isEnterKeyPressed := isEnterKeyPressed st; textarea := ta;
         focused := f; sendButton := sb; storage := it;
         inflight := inflight st; adds := adds st; timers := timers st;
         trace := trace st |}
  end.

Definition run (s : site) (st : state) (es : list event) : state :=
  fold_left (step s) es st.

Inductive reachable (s : site) : state -> Prop :=
| reachable_init ta f sb it : reachable s (init ta f sb it)
| reachable_step st e : reachable s st -> reachable s (step s st e).

End TextSite.

(** ** The block as the specification describes it

    Second definitions, written after the specification's words and not
    after the code: the preamble sentence, then one bullet line per memory,
    in the order of the search response. *)

Module BlockSpec.

Definition bullet (mem : jsstring) : jsstring := lit "- " ++ mem.

(** Lines, with a newline between two of them. *)
Fixpoint lines (ls : list jsstring) : jsstring :=
  match ls with
  | [] => []
  | l :: rest =>
      match rest with
      | [] => l
      | _ :: _ => l ++ nl ++ lines rest
      end
  end.

(** The block of a plain-text input. *)
Definition text_block (memories : list jsstring) : jsstring :=
  memoryPrefix ++ nl ++ lines (map bullet memories).


(** The turns of a conversation, oldest first, and the last [n] of them. *)
Definition turn_message (el : ChatGPT.turnElement) : list ConversationMessage :=
  match el with
  | ChatGPT.UserTurn (Some t) => [{| msg_role := user; msg_content := trim t |}]
  | ChatGPT.AssistantTurn (Some t) =>
      [{| msg_role := assistant; msg_content := trim t |}]
  | _ => []
  end.

Definition last_turns (n : nat) (children : list ChatGPT.turnElement)
  : list ConversationMessage :=
  let all := flat_map turn_message children in
  skipn (length all - n) all.

(** A node whose text can be read. *)
Definition readable (el : ChatGPT.turnElement) : Prop :=
  match el with
  | ChatGPT.UserTurn None | ChatGPT.AssistantTurn None => False
  | _ => True
  end.

(** A search that did not succeed: the request failed, or the status is
    not a 2xx one. *)
Definition failed (r : fetchResult) : bool :=
  match r with
  | NetworkError => true
  | HttpResponse status _ => negb (ok status)
  end.

End BlockSpec.

Import BlockSpec.

(** ** Pages and runs used as examples *)

Module Examples.

(** A browser whose text content is the markup itself; enough for pages
    whose input holds plain text. *)
Definition plain_render (markup : jsstring) : jsstring := markup.

(** A ChatGPT page: a rich input holding [text], a send button, and no
    conversation yet. *)
Definition chatgpt_page (text : jsstring) : ChatGPT.state :=
  ChatGPT.init (Some (ChatGPT.Div text text)) true None.

(** A ChatGPT page with two earlier turns. *)
Definition chatgpt_conversation (text : jsstring) : ChatGPT.state :=
  ChatGPT.init (Some (ChatGPT.Div text text)) true
               (Some [ChatGPT.UserTurn (Some (lit "Which language?"));
                      ChatGPT.AssistantTurn (Some (lit "Python."))]).

(** A Perplexity or Grok page: a focused textarea holding [text], with or
    without a send button, and the given storage. *)
Definition text_page (text : jsstring) (sendButton : bool)
           (it : TextSite.items) : TextSite.state :=
  TextSite.init (Some text) true sendButton it.

Definition with_key : TextSite.items :=
  {| TextSite.apiKey := Some (lit "m0-key"); TextSite.userId := None;
     TextSite.access_token := None; TextSite.memory_enabled := None |}.


Definition found (memories : list jsstring) : fetchResult :=
  HttpResponse 200 (Some (Results (map (fun m => {| memory := m |}) memories))).


End Examples.

Import Examples.

(** ** Reading a trace *)

Module Audit.

Definition isPrevent (e : effect) : bool :=
  match e with PreventDefault => true | _ => false end.

Definition isClick (e : effect) : bool :=
  match e with ClickSend => true | _ => false end.

Definition isSchedule (e : effect) : bool :=
  match e with SetTimeoutClick _ => true | _ => false end.

(** The add request of [addMemoryWithContext] ([infer: true]) and the one
    its [catch] block repeats without [infer]. *)
Definition isAddInfer (e : effect) : bool :=
  match e with AddCall _ true => true | _ => false end.

Definition isAddFallback (e : effect) : bool :=
  match e with AddCall _ false => true | _ => false end.


(** The queries of the search calls of a trace, oldest first. *)
Definition search_queries (t : list effect) : list jsstring :=
  flat_map (fun e => match e with SearchCall q _ => [q] | _ => [] end) t.

Definition awaits_search (p : TextSite.pending) : bool :=
  match p with TextSite.AwaitSearch _ _ _ _ => true | _ => false end.

(** The events of a text site that are not an Enter the script intercepts
    and not the settling of something it started: keys with Shift or during
    IME composition, key releases, typing, and changes of the page. *)
Definition typing (e : TextSite.event) : bool :=
  match e with
  | TextSite.KeyDownEnter shiftKey isComposing => shiftKey || isComposing
  | TextSite.KeyUpEnter => true
  | TextSite.UserInput _ => true
  | TextSite.HostMutation _ _ _ _ => true
  | _ => false
  end.

(** The same for the ChatGPT page: Shift+Enter and changes of the page. *)
Definition passive (e : ChatGPT.event) : bool :=
  match e with
  | ChatGPT.KeyDownEnter shiftKey => shiftKey
  | ChatGPT.HostMutation _ _ _ => true
  | _ => false
  end.

(** What an awaited activation of a text site holds when it was started by
    [handleEnterKey]: the trimmed, non-empty captured text as its message,
    the request to click the send button, and, once the search has left,
    that message alone as the context of the add call. *)
Definition from_enter (p : TextSite.pending) : Prop :=
  match p with
  | TextSite.AwaitStorage capturedText message clickSendButton =>
      message = capturedText /\ trimmed capturedText /\ capturedText <> []
      /\ clickSendButton = true
  | TextSite.AwaitSearch capturedText message clickSendButton messages =>
      message = capturedText /\ trimmed capturedText /\ capturedText <> []
      /\ clickSendButton = true
      /\ messages = [{| msg_role := user; msg_content := message |}]
  end.

(** A call to the memory service as a text site makes it: a search for a
    trimmed, non-empty query with limit 10, or an add of one user message
    with [infer]. *)
Definition text_call (e : effect) : Prop :=
  match e with
  | SearchCall q limit => trimmed q /\ q <> [] /\ limit = 10%N
  | AddCall messages infer =>
      infer = true /\
      exists q, trimmed q /\ q <> []
                /\ messages = [{| msg_role := user; msg_content := q |}]
  | _ => True
  end.

(** A call to the memory service as the ChatGPT script makes it: a search
    with limit 20 for a query on which the strip has nothing left to do, or
    an add whose last message is the user's. *)
Definition chatgpt_call (e : effect) : Prop :=
  match e with
  | SearchCall q limit =>
      ~ infix memoryPrefix q /\ ChatGPT.strip_message q = q /\ limit = 20%N
  | AddCall messages _ =>
      exists before q, messages = before ++ [{| msg_role := user; msg_content := q |}]
                       /\ ~ infix memoryPrefix q
  | _ => True
  end.

End Audit.

Import Audit.

(** ** extension/chatgpt/content.js: the hooks the observers keep attached

    [initializeMem0Integration] registers two mutation observers on the
    body; on every change of the page they run [addMem0Button],
    [addSyncButton] and [addEnterKeyInterception] again. *)

Module Hooks.

(** The input node as [addEnterKeyInterception] sees it: its
    [dataset.enterKeyIntercepted] and the capturing [keydown] listeners the
    script has put on it. *)
Record inputNode := {
  enterKeyIntercepted : bool;
  keydownListeners : nat
}.

(** Lines 748-789, with the node that
    [querySelector('div[contenteditable=true]') || querySelector('textarea')]
    finds. *)
Definition addEnterKeyInterception (inputElement : option inputNode)
  : option inputNode :=
  match inputElement with
  | Some node =>
      if negb (enterKeyIntercepted node)
      then Some {| enterKeyIntercepted := true;
                   keydownListeners := S (keydownListeners node) |}
      else inputElement
  | None => None
  end.

(** A node the page has just created: no data attribute, no listener. *)
Definition fresh : inputNode :=
  {| enterKeyIntercepted := false; keydownListeners := 0 |}.

(** What happens to the input node: the observer's callback runs, the page
    puts a new node in its place, or the page removes it. *)
Inductive inputEvent := Observed | Rendered | Unmounted.

Definition input_step (inputElement : option inputNode) (e : inputEvent)
  : option inputNode :=
  match e with
  | Observed => addEnterKeyInterception inputElement
  | Rendered => Some fresh
  | Unmounted => None
  end.

Definition input_run (inputElement : option inputNode) (es : list inputEvent)
  : option inputNode :=
  fold_left input_step es inputElement.

(** Where the node with id [sync-button] is: in the button container, or
    elsewhere in the document; [Detached] is the node [createElement] has
    just returned. *)
Inductive place := InContainer | Elsewhere | Detached.

Record syncNode := {
  node_place : place;
  clickListeners : nat;
  disabled : bool
}.

(** The part of the settings dialog [addSyncButton] reads:
    [div.mt-5.flex.justify-end] and [#sync-button]. *)
Record dialog := {
  buttonContainer : bool;
  syncButton : option syncNode
}.

Definition contains (b : syncNode) : bool :=
  match node_place b with InContainer => true | _ => false end.

(** Lines 464-528. *)
Definition addSyncButton (d : dialog) : dialog :=
  if buttonContainer d then
    let syncButton :=
      match syncButton d with
      | Some b => b
      | None => {| node_place := Detached; clickListeners := 1;
                   disabled := false |}
      end in
    let syncButton :=
      if negb (contains syncButton)
      then {| node_place := InContainer;
              clickListeners := clickListeners syncButton;
              disabled := disabled syncButton |}
      else syncButton in
    (* updateSyncButtonState *)
    {| buttonContainer := true;
       syncButton := Some {| node_place := node_place syncButton;
                             clickListeners := clickListeners syncButton;
                             disabled := false |} |}
  else
    match syncButton d with
    | Some _ => {| buttonContainer := false; syncButton := None |}
    | None => d
    end.

(** The input node as [addMem0Button] sees it: its text and the [input]
    listeners the script has put on it. *)
Record inputField := {
  textContent : jsstring;
  inputListeners : nat
}.

(** The part of the composer [addMem0Button] reads: the send button, with
    whether its parent has a parent element; the node with id
    [mem0-button], with its [disabled]; the input node. *)
Record composer := {
  sendButton : option bool;
  mem0Button : option bool;
  inputElement : option inputField
}.

(** Lines 35-133.  Without [sendButton.parentElement.parentElement] the
    call throws at [insertBefore], before it has touched the document. *)
Definition addMem0Button (c : composer) : composer :=
  match sendButton c, mem0Button c with
  | Some sendButtonContainer, None =>
      if sendButtonContainer then
        (* updateButtonStates *)
        let hasText :=
          match inputElement c with
          | Some el => 0 <? length (trim (textContent el))
          | None => false
          end in
        {| sendButton := sendButton c;
           mem0Button := Some (negb hasText);
           inputElement :=
             match inputElement c with
             | Some el => Some {| textContent := textContent el;
                                  inputListeners := S (inputListeners el) |}
             | None => None
             end |}
      else c
  | _, _ => c
  end.

End Hooks.

(** ** extension/chatgpt/content.js: the sync of the settings dialog *)

Module Sync.

(** A row of the memory table: without cells, or with a first cell whose
    [div.whitespace-pre-wrap] holds a text; [None] when that node is
    missing and reading its [textContent] throws. *)
Inductive row :=
| NoCells
| FirstCell (text : option jsstring).

(** The texts [showSyncPopup] is called with. *)
Inductive notice :=
| MemoryDisabled                 (* Memory is disabled *)
| Synced (n : nat)               (* n memories synced *)
| SyncedOf (n total : nat)       (* n/total memories synced *)
| SyncFailed.                    (* Error syncing memories *)

Inductive effect :=
| ShowSyncPopup (message : notice)
| SetDisabled (b : bool)         (* syncButton.disabled, cursor, opacity *)
| SetLabel (syncing : bool)      (* syncButtonContent.textContent *)
| LogError
| SendMemory (memory : ConversationMessage)            (* sendMemoryToMem0 *)
| SendMemories (memories : list ConversationMessage).  (* sendMemoriesToMem0 *)

(** What one call of [handleSyncClick] leaves behind: the counters its
    callbacks share, the length of [memories], and the requests that have
    not settled. *)
Record activation := {
  syncedCount : nat;
  totalCount : nat;
  memories_length : nat;
  items : nat;       (* requests of [sendMemoryToMem0] not settled *)
  batch : bool       (* the request of [sendMemoriesToMem0] has not settled *)
}.

Record state := {
  table : option (list row);
  syncButton : bool;
  syncButtonContent : bool;
  activations : list activation;
  trace : list effect
}.

Definition emit (es : list effect) (st : state) : state :=
  {| table := table st; syncButton := syncButton st;
     syncButtonContent := syncButtonContent st;
     activations := activations st; trace := trace st ++ es |}.

Definition set_activations (l : list activation) (st : state) : state :=
  {| table := table st; syncButton := syncButton st;
     syncButtonContent := syncButtonContent st;
     activations := l; trace := trace st |}.

Definition init (t : option (list row)) (sb sbc : bool) : state :=
  {| table := t; syncButton := sb; syncButtonContent := sbc;
     activations := []; trace := [] |}.

(** [setSyncButtonLoadingState(isLoading)], lines 634-652.  The boolean is
    [false] when the assignment to [syncButtonContent.textContent] throws
    because the node is missing. *)
Definition setSyncButtonLoadingState (isLoading : bool) (st : state)
  : state * bool :=
  if syncButton st then
    let st := emit [SetDisabled isLoading] st in
    if syncButtonContent st then (emit [SetLabel isLoading] st, true)
    else (st, false)
  else (st, true).

(** The [rows.forEach] of lines 555-587: the memories pushed so far, and
    whether the loop ran to its end. *)
Fixpoint forEach_row (rows : list row) (memories : list ConversationMessage)
         (st : state) : state * list ConversationMessage * bool :=
  match rows with
  | [] => (st, memories, true)
  | NoCells :: rows => forEach_row rows memories st
  | FirstCell None :: _ => (st, memories, false)
  | FirstCell (Some text) :: rows =>
      let content := trim text in
      let memory :=
        {| msg_role := user;
           msg_content := lit "Remember this about me: " ++ content |} in
      forEach_row rows (memories ++ [memory]) (emit [SendMemory memory] st)
  end.

(** [handleSyncClick], lines 530-603, up to the requests it sends. *)
Definition handleSyncClick (st : state) : state :=
  if negb ChatGPT.getMemoryEnabledState then
    if syncButton st then emit [ShowSyncPopup MemoryDisabled] st else st
  else
    match table st with
    | Some rows =>
        if syncButton st then
          let (st, returned) := setSyncButtonLoadingState true st in
          if returned then
            let totalCount := length rows in
            let '(st, memories, returned) := forEach_row rows [] st in
            let st := if returned then emit [SendMemories memories] st else st in
            set_activations
              (activations st ++
               [{| syncedCount := 0; totalCount := totalCount;
                   memories_length := length memories;
                   items := length memories; batch := returned |}]) st
          else st
        else emit [LogError] st
    | None => emit [LogError] st
    end.

(** Whether the promise of [sendMemoryToMem0] or [sendMemoriesToMem0]
    resolves. *)
Definition resolved (r : addResult) : bool :=
  match r with
  | AddNetworkError => false
  | AddResponse status _ => ok status
  end.

(** The [catch] callback of an item, lines 577-585. *)
Definition item_catch (act : activation) (st : state) : state :=
  if syncedCount act =? totalCount act then
    let st := emit [ShowSyncPopup (SyncedOf (syncedCount act) (totalCount act))] st in
    fst (setSyncButtonLoadingState false st)
  else st.

(** The callbacks of an item, lines 570-585: an exception in the [then]
    callback reaches the [catch] callback. *)
Definition item_settled (i : nat) (act : activation) (r : addResult)
           (st : state) : state :=
  if resolved r then
    let act := {| syncedCount := S (syncedCount act);
                  totalCount := totalCount act;
                  memories_length := memories_length act;
                  items := pred (items act); batch := batch act |} in
    let st := set_activations (replace_nth i act (activations st)) st in
    if syncedCount act =? totalCount act then
      let st := emit [ShowSyncPopup (Synced (syncedCount act))] st in
      let (st, returned) := setSyncButtonLoadingState false st in
      if returned then st else item_catch act st
    else st
  else
    let act := {| syncedCount := syncedCount act;
                  totalCount := totalCount act;
                  memories_length := memories_length act;
                  items := pred (items act); batch := batch act |} in
    item_catch act (set_activations (replace_nth i act (activations st)) st).

(** The [catch] callback of the batch, lines 594-598. *)
Definition batch_catch (st : state) : state :=
  let st := emit [LogError; ShowSyncPopup SyncFailed] st in
  fst (setSyncButtonLoadingState false st).

(** The callbacks of the batch, lines 590-598. *)
Definition batch_settled (i : nat) (act : activation) (r : addResult)
           (st : state) : state :=
  let st :=
    set_activations
      (replace_nth i {| syncedCount := syncedCount act;
                        totalCount := totalCount act;
                        memories_length := memories_length act;
                        items := items act; batch := false |}
                   (activations st)) st in
  if resolved r then
    let st := emit [ShowSyncPopup (Synced (memories_length act))] st in
    let (st, returned) := setSyncButtonLoadingState false st in
    if returned then st else batch_catch st
  else batch_catch st.

Inductive event :=
| ClickSync
| ItemSettled (i : nat) (r : addResult)
| BatchSettled (i : nat) (r : addResult)
| HostMutation (t : option (list row)) (sb sbc : bool).

(** One turn of the event loop.  A request settles only while it is
    outstanding. *)
Definition step (st : state) (e : event) : state :=
  match e with
  | ClickSync => handleSyncClick st
  | ItemSettled i r =>
      match nth_error (activations st) i with
      | Some act => if 0 <? items act then item_settled i act r st else st
      | None => st
      end
  | BatchSettled i r =>
      match nth_error (activations st) i with
      | Some act => if batch act then batch_settled i act r st else st
      | None => st
      end
  | HostMutation t sb sbc =>
      {| table := t; syncButton := sb; syncButtonContent := sbc;
         activations := activations st; trace := trace st |}
  end.

Inductive reachable : state -> Prop :=
| reachable_init t sb sbc : reachable (init t sb sbc)
| reachable_step st e : reachable st -> reachable (step st e).

(** The messages a table gives, row by row: one for each row whose first
    cell holds a text. *)
Definition memories_of (rows : list row) : list ConversationMessage :=
  flat_map
    (fun r =>
       match r with
       | FirstCell (Some text) =>
           [{| msg_role := user;
               msg_content := lit "Remember this about me: " ++ trim text |}]
       | _ => []
       end) rows.

Definition readable (r : row) : bool :=
  match r with FirstCell None => false | _ => true end.

Definition isPartial (e : effect) : bool :=
  match e with ShowSyncPopup (SyncedOf _ _) => true | _ => false end.

(** The counters of an activation agree with its requests: what was
    synced and what is outstanding are among the memories sent, and these
    among the rows. *)
Definition counted (act : activation) : Prop :=
  syncedCount act + items act <= memories_length act
  /\ memories_length act <= totalCount act.

End Sync.


(** * Properties *)

(** ** Strings *)

Lemma startsWith_iff (p s : jsstring) :
  startsWith p s = true <-> exists r, s = p ++ r.
Proof.
  revert s; induction p as [|a p IH]; intros s; simpl.
  - split; [intros _; now exists s | reflexivity].
  - destruct s as [|b s].
    + split; [discriminate | intros [r Hr]; discriminate].
    + rewrite andb_true_iff, N.eqb_eq, IH. split.
      * intros [-> [r ->]]. now exists r.
      * intros [r Hr]. injection Hr as -> ->. split; [reflexivity | now exists r].
Qed.

Lemma startsWith_app_long (p u v : jsstring) :
  length p <= length u -> startsWith p (u ++ v) = startsWith p u.
Proof.
  revert u; induction p as [|a p IH]; intros u Hlen; [now destruct u|].
  destruct u as [|b u]; simpl in *; [lia|].
  rewrite IH by lia. reflexivity.
Qed.

Lemma startsWith_self_app (p r : jsstring) : startsWith p (p ++ r) = true.
Proof. apply startsWith_iff. now exists r. Qed.

Lemma indexOf_Some_split (p s : jsstring) (e : nat) :
  indexOf p s = Some e -> exists a b, s = a ++ p ++ b /\ length a = e.
Proof.
  revert e; induction s as [|c s IH]; intros e; simpl.
  - destruct (startsWith p []) eqn:Hp; [|discriminate].
    intros [= <-]. apply startsWith_iff in Hp as [r Hr].
    exists [], r. now split.
  - destruct (startsWith p (c :: s)) eqn:Hp.
    + intros [= <-]. apply startsWith_iff in Hp as [r Hr].
      exists [], r. now split.
    + destruct (indexOf p s) as [k|] eqn:Hk; simpl; [|discriminate].
      intros [= <-]. destruct (IH k eq_refl) as (a & b & -> & Hlen).
      exists (c :: a), b. simpl. now rewrite Hlen.
Qed.

Lemma indexOf_None_iff (p s : jsstring) :
  indexOf p s = None <-> ~ infix p s.
Proof.
  induction s as [|c s IH]; simpl.
  - destruct (startsWith p []) eqn:Hp.
    + split; [discriminate|]. intros H. exfalso. apply H.
      apply startsWith_iff in Hp as [r Hr]. now exists [], r.
    + split; [|reflexivity]. intros _ (a & b & Hab).
      destruct a; [|discriminate]. simpl in Hab.
      assert (startsWith p [] = true) by (apply startsWith_iff; now exists b).
      congruence.
  - destruct (startsWith p (c :: s)) eqn:Hp.
    + split; [discriminate|]. intros H. exfalso. apply H.
      apply startsWith_iff in Hp as [r Hr]. now exists [], r.
    + destruct (indexOf p s) as [k|] eqn:Hk; simpl.
      * split; [discriminate|]. intros H. exfalso. apply H.
        destruct (indexOf_Some_split _ _ _ Hk) as (a & b & -> & _).
        now exists (c :: a), b.
      * split; [|reflexivity]. intros _ (a & b & Hab).
        destruct a as [|c' a]; simpl in Hab.
        -- assert (startsWith p (c :: s) = true)
             by (apply startsWith_iff; now exists b).
           congruence.
        -- injection Hab as _ ->. apply (proj1 IH eq_refl). now exists a, b.
Qed.

Lemma infix_app_l (p a s : jsstring) : infix p s -> infix p (a ++ s).
Proof. intros (x & y & ->). exists (a ++ x), y. now rewrite <- app_assoc. Qed.

Lemma infix_app_r (p s b : jsstring) : infix p s -> infix p (s ++ b).
Proof. intros (x & y & ->). exists x, (y ++ b). now rewrite <- !app_assoc. Qed.

Lemma infix_firstn (p s : jsstring) (n : nat) : infix p (firstn n s) -> infix p s.
Proof.
  intros H. rewrite <- (firstn_skipn n s). now apply infix_app_r.
Qed.


Lemma not_In_existsb (c : N) (p : jsstring) :
  existsb (N.eqb c) p = false -> ~ In c p.
Proof.
  intros H Hin. assert (existsb (N.eqb c) p = true); [|congruence].
  apply existsb_exists. exists c. split; [exact Hin | apply N.eqb_refl].
Qed.

(** *** [trim] *)

Lemma trimStart_split (s : jsstring) :
  exists w, s = w ++ trimStart s /\ forallb isWhiteSpace w = true.
Proof.
  induction s as [|c s (w & Hw & Hall)]; [now exists []|]. simpl.
  destruct (isWhiteSpace c) eqn:Hc.
  - exists (c :: w). simpl. rewrite Hc, Hall. now rewrite Hw at 1.
  - now exists [].
Qed.

Lemma trimStart_head (s : jsstring) :
  trimStart s = [] \/
  exists c r, trimStart s = c :: r /\ isWhiteSpace c = false.
Proof.
  induction s as [|c s IH]; [now left|]. simpl.
  destruct (isWhiteSpace c) eqn:Hc; [exact IH|].
  right. now exists c, s.
Qed.

Lemma trimStart_cons (c : N) (r : jsstring) :
  isWhiteSpace c = false -> trimStart (c :: r) = c :: r.
Proof. intros H. simpl. now rewrite H. Qed.

Lemma trimStart_idem (s : jsstring) : trimStart (trimStart s) = trimStart s.
Proof.
  destruct (trimStart_head s) as [-> | (c & r & -> & Hc)]; [reflexivity|].
  now apply trimStart_cons.
Qed.

Lemma trimStart_snoc (l : jsstring) (c : N) :
  isWhiteSpace c = false -> trimStart (l ++ [c]) = trimStart l ++ [c].
Proof.
  intros Hc. induction l as [|a l IH]; simpl; [now rewrite Hc|].
  destruct (isWhiteSpace a); [exact IH | reflexivity].
Qed.

Lemma trimStart_ws_app (w s : jsstring) :
  forallb isWhiteSpace w = true -> trimStart (w ++ s) = trimStart s.
Proof.
  induction w as [|a w IH]; simpl; [reflexivity|].
  intros H. apply andb_true_iff in H as [-> H]. now apply IH.
Qed.

Lemma trimEnd_split (s : jsstring) :
  exists w, s = trimEnd s ++ w /\ forallb isWhiteSpace w = true.
Proof.
  destruct (trimStart_split (rev s)) as (w & Hw & Hall).
  exists (rev w). split.
  - unfold trimEnd. rewrite <- rev_app_distr, <- Hw. symmetry. apply rev_involutive.
  - rewrite forallb_forall in *. intros x Hx. apply Hall. now apply in_rev.
Qed.

Lemma trimEnd_cons (c : N) (r : jsstring) :
  isWhiteSpace c = false -> trimEnd (c :: r) = c :: trimEnd r.
Proof.
  intros Hc. unfold trimEnd. simpl.
  rewrite trimStart_snoc by exact Hc. now rewrite rev_app_distr.
Qed.

Lemma trimEnd_snoc (s : jsstring) (c : N) :
  isWhiteSpace c = false -> trimEnd (s ++ [c]) = s ++ [c].
Proof.
  intros Hc. unfold trimEnd. rewrite rev_app_distr. simpl.
  rewrite Hc. simpl. now rewrite rev_involutive.
Qed.

Lemma trimEnd_app_ws (s w : jsstring) :
  forallb isWhiteSpace w = true -> trimEnd (s ++ w) = trimEnd s.
Proof.
  intros H. unfold trimEnd. rewrite rev_app_distr, trimStart_ws_app; [reflexivity|].
  rewrite forallb_forall in *. intros x Hx. apply H. now apply in_rev.
Qed.

Lemma trimEnd_idem (s : jsstring) : trimEnd (trimEnd s) = trimEnd s.
Proof. unfold trimEnd. now rewrite rev_involutive, trimStart_idem. Qed.

Lemma trim_idem (s : jsstring) : trim (trim s) = trim s.
Proof.
  unfold trim.
  destruct (trimStart_head s) as [-> | (c & r & -> & Hc)]; [reflexivity|].
  rewrite trimEnd_cons by exact Hc.
  rewrite trimStart_cons by exact Hc.
  rewrite <- trimEnd_cons by exact Hc. apply trimEnd_idem.
Qed.

Lemma trimmed_trim (s : jsstring) : trimmed (trim s).
Proof. apply trim_idem. Qed.

Lemma trimStart_length (s : jsstring) : length (trimStart s) <= length s.
Proof.
  destruct (trimStart_split s) as (w & Hw & _).
  rewrite Hw at 2. rewrite length_app. lia.
Qed.

Lemma trimEnd_length (s : jsstring) : length (trimEnd s) <= length s.
Proof.
  destruct (trimEnd_split s) as (w & Hw & _).
  rewrite Hw at 2. rewrite length_app. lia.
Qed.

Lemma trimmed_trimStart (s : jsstring) : trimmed s -> trimStart s = s.
Proof.
  unfold trimmed, trim. intros H.
  destruct (trimStart_split s) as (w & Hw & _).
  assert (Hlen : length w = 0).
  { pose proof (trimEnd_length (trimStart s)) as H1.
    rewrite H in H1. rewrite Hw in H1 at 1. rewrite length_app in H1. lia. }
  destruct w; [|discriminate]. now symmetry.
Qed.

Lemma trimmed_trimEnd (s : jsstring) : trimmed s -> trimEnd s = s.
Proof.
  intros H. pose proof (trimmed_trimStart _ H) as H1.
  unfold trimmed, trim in H. now rewrite H1 in H.
Qed.

(** A trimmed string followed by white space trims back to itself. *)
Lemma trim_app_ws (s w : jsstring) :
  trimmed s -> forallb isWhiteSpace w = true -> trim (s ++ w) = s.
Proof.
  intros Hs Hw. unfold trim.
  destruct s as [|c r].
  - simpl. rewrite <- (app_nil_r w), trimStart_ws_app by exact Hw. reflexivity.
  - pose proof (trimmed_trimStart _ Hs) as H1.
    assert (Hc : isWhiteSpace c = false).
    { destruct (isWhiteSpace c) eqn:E; [|reflexivity].
      simpl in H1. rewrite E in H1.
      pose proof (trimStart_length r) as Hl. rewrite H1 in Hl. simpl in Hl. lia. }
    change ((c :: r) ++ w) with (c :: (r ++ w)).
    rewrite trimStart_cons by exact Hc.
    change (c :: (r ++ w)) with ((c :: r) ++ w).
    rewrite trimEnd_app_ws by exact Hw. now apply trimmed_trimEnd.
Qed.

Lemma infix_trimStart (p s : jsstring) : infix p (trimStart s) -> infix p s.
Proof.
  intros H. destruct (trimStart_split s) as (w & Hw & _).
  rewrite Hw. now apply infix_app_l.
Qed.

Lemma infix_trimEnd (p s : jsstring) : infix p (trimEnd s) -> infix p s.
Proof.
  intros H. destruct (trimEnd_split s) as (w & Hw & _).
  rewrite Hw. now apply infix_app_r.
Qed.

Lemma infix_trim (p s : jsstring) : infix p (trim s) -> infix p s.
Proof. intros H. now apply infix_trimStart, infix_trimEnd. Qed.

(** *** The marker and the regex strip *)

Lemma memoryPrefix_cons : memoryPrefix = 72%N :: tl memoryPrefix.
Proof. reflexivity. Qed.

Lemma memoryPrefix_not_nil : ~ infix memoryPrefix [].
Proof. apply indexOf_None_iff. reflexivity. Qed.

Lemma startsWith_memoryPrefix_head (c : N) (s : jsstring) :
  startsWith memoryPrefix (c :: s) = true -> c = 72%N.
Proof.
  rewrite memoryPrefix_cons. cbn [startsWith]. intros H.
  apply andb_true_iff in H as [H _]. apply N.eqb_eq in H. now symmetry.
Qed.

Lemma replace_memInfo_eq (s : jsstring) :
  replace_memInfo s =
  if startsWith memoryPrefix (trimStart s) then []
  else match s with
       | [] => []
       | c :: r => c :: replace_memInfo r
       end.
Proof. destruct s; reflexivity. Qed.

(** The regex keeps a prefix of its subject. *)
Lemma replace_memInfo_prefix (s : jsstring) :
  exists t, s = replace_memInfo s ++ t.
Proof.
  induction s as [|c s (t & Ht)]; rewrite replace_memInfo_eq.
  - destruct (startsWith _ _); now exists [].
  - destruct (startsWith _ _); [now exists (c :: s)|].
    exists t. simpl. now rewrite <- Ht.
Qed.

(** What the regex keeps holds no marker. *)
Lemma replace_memInfo_no_marker (s : jsstring) :
  ~ infix memoryPrefix (replace_memInfo s).
Proof.
  induction s as [|c s IH]; rewrite replace_memInfo_eq.
  - destruct (startsWith _ _); apply memoryPrefix_not_nil.
  - destruct (startsWith memoryPrefix (trimStart (c :: s))) eqn:Hm;
      [apply memoryPrefix_not_nil|].
    intros (x & y & Hxy). destruct x as [|c' x]; cbn [app] in Hxy.
    + assert (Hs : startsWith memoryPrefix (c :: s) = true).
      { destruct (replace_memInfo_prefix s) as (t & Ht).
        apply startsWith_iff. exists (y ++ t).
        rewrite app_assoc, <- Hxy. cbn [app]. now rewrite <- Ht. }
      pose proof (startsWith_memoryPrefix_head _ _ Hs) as ->.
      rewrite trimStart_cons in Hm by reflexivity. congruence.
    + injection Hxy as _ Hxy. apply IH. now exists x, y.
Qed.

(** The regex leaves a content without marker as it is. *)
Lemma replace_memInfo_id (s : jsstring) :
  ~ infix memoryPrefix s -> replace_memInfo s = s.
Proof.
  induction s as [|c s IH]; intros Hs; rewrite replace_memInfo_eq.
  - now destruct (startsWith _ _).
  - destruct (startsWith memoryPrefix (trimStart (c :: s))) eqn:Hm.
    + exfalso. apply Hs. apply infix_trimStart.
      apply startsWith_iff in Hm as [r Hr]. now exists [], r.
    + f_equal. apply IH. intros H. apply Hs. now apply (infix_app_l _ [c]).
Qed.

Lemma trimStart_memoryPrefix (rest : jsstring) :
  trimStart (memoryPrefix ++ rest) = memoryPrefix ++ rest.
Proof.
  rewrite memoryPrefix_cons.
  change ((72%N :: tl memoryPrefix) ++ rest)
    with (72%N :: (tl memoryPrefix ++ rest)).
  now apply trimStart_cons.
Qed.

(** Where the regex finds a marker at the very start of the content or
    after white space only, nothing is kept. *)
Lemma replace_memInfo_ws_marker (w rest : jsstring) :
  forallb isWhiteSpace w = true ->
  replace_memInfo (w ++ memoryPrefix ++ rest) = [].
Proof.
  intros Hw. rewrite replace_memInfo_eq, trimStart_ws_app by exact Hw.
  now rewrite trimStart_memoryPrefix, startsWith_self_app.
Qed.

(** The test [replace_memInfo] makes at a position is the regex matching
    there. *)
Lemma matches_here_iff (s : jsstring) :
  startsWith memoryPrefix (trimStart s) = true <-> matches_here s.
Proof.
  split.
  - intros H. apply startsWith_iff in H as [rest Hr].
    destruct (trimStart_split s) as (w & Hw & Hall).
    exists w, rest. split; [now rewrite <- Hr | exact Hall].
  - intros (w & rest & -> & Hall).
    rewrite trimStart_ws_app by exact Hall.
    now rewrite trimStart_memoryPrefix, startsWith_self_app.
Qed.

(** [replace_memInfo] cuts the subject at the leftmost position at which
    the regex matches, and leaves it whole when it matches nowhere. *)
Lemma replace_memInfo_leftmost (s : jsstring) :
  (exists i, i <= length s /\ matches_here (skipn i s) /\
             (forall j, j < i -> ~ matches_here (skipn j s)) /\
             replace_memInfo s = firstn i s)
  \/ ((forall j, ~ matches_here (skipn j s)) /\ replace_memInfo s = s).
Proof.
  induction s as [|c s IH]; rewrite replace_memInfo_eq.
  - destruct (startsWith memoryPrefix (trimStart [])) eqn:Hm; [discriminate|].
    right. split; [|reflexivity]. intros j H. rewrite skipn_nil in H.
    apply matches_here_iff in H. congruence.
  - destruct (startsWith memoryPrefix (trimStart (c :: s))) eqn:Hm.
    + left. exists 0. split; [simpl; lia|]. split; [now apply matches_here_iff|].
      split; [intros j Hj; lia | reflexivity].
    + assert (Hno : ~ matches_here (c :: s))
        by (intros H; apply matches_here_iff in H; congruence).
      destruct IH as [(i & Hi & Hmi & Hbefore & Heq) | (Hnone & Heq)].
      * left. exists (S i). split; [simpl; lia|]. split; [exact Hmi|].
        split; [|cbn [firstn]; now rewrite Heq].
        intros [|j] Hj; [exact Hno|]. apply Hbefore. lia.
      * right. split; [|now rewrite Heq].
        intros [|j]; [exact Hno | apply Hnone].
Qed.

Lemma memoryPrefix_body : memoryPrefix = marker_body ++ [58%N].
Proof. reflexivity. Qed.

Lemma marker_body_no_colon : ~ In 58%N marker_body.
Proof. apply not_In_existsb. reflexivity. Qed.

Lemma nth_error_ws (w : jsstring) (n : nat) (c : N) :
  forallb isWhiteSpace w = true -> nth_error w n = Some c ->
  isWhiteSpace c = true.
Proof.
  intros Hw Hn. rewrite forallb_forall in Hw. apply Hw.
  eapply nth_error_In; eassumption.
Qed.

(** In [a ++ w ++ marker ++ rest], with no marker in [a] and [w] white
    space, no marker starts before the one that is written there. *)
Lemma marker_first (a w rest x y : jsstring) :
  a ++ w ++ memoryPrefix ++ rest = x ++ memoryPrefix ++ y ->
  ~ infix memoryPrefix a -> forallb isWhiteSpace w = true ->
  length a + length w <= length x.
Proof.
  intros Heq Ha Hw.
  destruct (le_lt_dec (length a + length w) (length x)) as [|Hlt]; [assumption|].
  exfalso.
  set (q := length marker_body).
  (* the colon of the occurrence at [x] *)
  assert (Hcolon : nth_error (a ++ w ++ memoryPrefix ++ rest) (length x + q)
                   = Some 58%N).
  { rewrite Heq, nth_error_app2 by lia.
    replace (length x + q - length x) with q by lia.
    rewrite memoryPrefix_body, <- app_assoc, nth_error_app2 by (unfold q; lia).
    unfold q. now rewrite Nat.sub_diag. }
  destruct (le_lt_dec (length a) (length x + q)) as [Hge|Hin].
  - rewrite nth_error_app2 in Hcolon by exact Hge.
    destruct (le_lt_dec (length w) (length x + q - length a)) as [Hge2|Hin2].
    + rewrite nth_error_app2 in Hcolon by exact Hge2.
      rewrite memoryPrefix_body, <- app_assoc, nth_error_app1 in Hcolon
        by (fold q; lia).
      apply marker_body_no_colon. eapply nth_error_In; eassumption.
    + rewrite nth_error_app1 in Hcolon by exact Hin2.
      pose proof (nth_error_ws _ _ _ Hw Hcolon). discriminate.
  - apply Ha. exists x, (firstn (length a - length (x ++ memoryPrefix)) y).
    assert (Hlen : length (x ++ memoryPrefix) <= length a).
    { rewrite length_app, memoryPrefix_body, length_app.
      change (length [58%N]) with 1. unfold q in *. lia. }
    assert (H : firstn (length a) (a ++ w ++ memoryPrefix ++ rest) = a)
      by (rewrite firstn_app, Nat.sub_diag, firstn_all; simpl; apply app_nil_r).
    rewrite Heq, app_assoc, firstn_app in H.
    rewrite firstn_all2 in H by exact Hlen.
    rewrite <- app_assoc in H. now symmetry.
Qed.

Lemma indexOf_min (p x y : jsstring) :
  exists e, indexOf p (x ++ p ++ y) = Some e /\ e <= length x.
Proof.
  induction x as [|c x (e & He & Hle)].
  - exists 0. cbn [app length]. split; [|lia].
    destruct (p ++ y) eqn:E; cbn [indexOf]; rewrite <- E, startsWith_self_app;
      reflexivity.
  - cbn [app indexOf]. destruct (startsWith p (c :: x ++ p ++ y)).
    + exists 0. split; [reflexivity | lia].
    + exists (S e). rewrite He. split; [reflexivity | simpl; lia].
Qed.

(** [indexOf] finds the marker the composer wrote, when the text before it
    holds none. *)
Lemma indexOf_marker_app (a w rest : jsstring) :
  ~ infix memoryPrefix a -> forallb isWhiteSpace w = true ->
  indexOf memoryPrefix (a ++ w ++ memoryPrefix ++ rest)
  = Some (length a + length w).
Proof.
  intros Ha Hw.
  destruct (indexOf_min memoryPrefix (a ++ w) rest) as (e & He & Hle).
  rewrite <- app_assoc in He. rewrite He. f_equal.
  destruct (indexOf_Some_split _ _ _ He) as (x & y & Hxy & Hx).
  pose proof (marker_first _ _ _ _ _ Hxy Ha Hw).
  rewrite length_app in Hle. lia.
Qed.

(** The regex cuts at the first position from which white space and then
    the marker follow. *)
Lemma replace_memInfo_at (u t : jsstring) :
  (forall u1 u2, u = u1 ++ u2 -> u2 <> [] ->
                 startsWith memoryPrefix (trimStart (u2 ++ t)) = false) ->
  startsWith memoryPrefix (trimStart t) = true ->
  replace_memInfo (u ++ t) = u.
Proof.
  intros Hu Ht. induction u as [|c u IH]; rewrite replace_memInfo_eq.
  - cbn [app]. now rewrite Ht.
  - rewrite (Hu [] (c :: u)) by (reflexivity || discriminate).
    cbn [app]. f_equal. apply IH. intros u1 u2 -> Hne.
    now apply (Hu (c :: u1) u2).
Qed.

Lemma trimEnd_fixed_last (l : jsstring) (d : N) :
  trimEnd (l ++ [d]) = l ++ [d] -> isWhiteSpace d = false.
Proof.
  intros H. destruct (isWhiteSpace d) eqn:E; [|reflexivity]. exfalso.
  unfold trimEnd in H. rewrite rev_app_distr in H. cbn [rev app] in H.
  cbn [trimStart] in H. rewrite E in H.
  pose proof (trimStart_length (rev l)) as Hl.
  apply (f_equal (@length N)) in H.
  rewrite length_rev, length_app in H. rewrite length_rev in Hl.
  simpl in H. lia.
Qed.

Lemma trimStart_app_keep (u t : jsstring) :
  trimStart u <> [] -> trimStart (u ++ t) = trimStart u ++ t.
Proof.
  induction u as [|c u IH]; [intros H; now contradiction H|].
  cbn [app trimStart]. destruct (isWhiteSpace c); [exact IH | reflexivity].
Qed.

(** With no marker in [a] and no white space at the end of [a], the regex
    cuts [a ++ w ++ marker ++ rest] back to [a]. *)
Lemma replace_memInfo_app (a w rest : jsstring) :
  ~ infix memoryPrefix a -> trimEnd a = a ->
  forallb isWhiteSpace w = true ->
  replace_memInfo (a ++ w ++ memoryPrefix ++ rest) = a.
Proof.
  intros Ha Ht Hw. apply replace_memInfo_at.
  - intros u1 u2 -> Hne.
    destruct (exists_last Hne) as (l & d & ->).
    assert (Hd : isWhiteSpace d = false).
    { apply (trimEnd_fixed_last (u1 ++ l)). now rewrite <- app_assoc. }
    assert (Hk : trimStart (l ++ [d]) <> []).
    { rewrite trimStart_snoc by exact Hd. now destruct (trimStart l). }
    rewrite trimStart_app_keep by exact Hk.
    destruct (startsWith _ _) eqn:Hs; [|reflexivity]. exfalso.
    apply startsWith_iff in Hs as [r Hr].
    destruct (trimStart_split (l ++ [d])) as (v & Hv & _).
    assert (Heq : (u1 ++ l ++ [d]) ++ w ++ memoryPrefix ++ rest
                  = (u1 ++ v) ++ memoryPrefix ++ r).
    { rewrite <- Hr. rewrite Hv at 1. now rewrite <- !app_assoc. }
    pose proof (marker_first _ _ _ _ _ Heq Ha Hw) as Hlen.
    apply (f_equal (@length N)) in Hv.
    rewrite !length_app in *.
    assert (0 < length (trimStart (l ++ [d])))
      by (destruct (trimStart (l ++ [d])); [congruence | simpl; lia]).
    simpl in *. lia.
  - rewrite trimStart_ws_app by exact Hw.
    now rewrite trimStart_memoryPrefix, startsWith_self_app.
Qed.

(** *** Idempotence of the strips *)

Lemma strip_prefix_no_marker (s : jsstring) :
  ~ infix memoryPrefix s -> TextSite.strip_prefix s = s.
Proof.
  intros H. unfold TextSite.strip_prefix.
  now rewrite (proj2 (indexOf_None_iff _ _) H).
Qed.

Lemma strip_prefix_result (s : jsstring) (e : nat) :
  indexOf memoryPrefix s = Some e -> ~ infix memoryPrefix (firstn e s).
Proof.
  intros He (x & y & Hxy).
  destruct (indexOf_min memoryPrefix x (y ++ skipn e s)) as (k & Hk & Hle).
  assert (Hs : s = x ++ memoryPrefix ++ y ++ skipn e s).
  { rewrite <- (firstn_skipn e s) at 1. rewrite Hxy. now rewrite <- !app_assoc. }
  rewrite <- Hs, He in Hk. injection Hk as <-.
  apply (f_equal (@length N)) in Hxy.
  rewrite length_firstn, !length_app in Hxy.
  assert (0 < length memoryPrefix) by (rewrite memoryPrefix_cons; simpl; lia).
  lia.
Qed.

Lemma strip_prefix_idem (s : jsstring) :
  TextSite.strip_prefix (TextSite.strip_prefix s) = TextSite.strip_prefix s.
Proof.
  unfold TextSite.strip_prefix at 2 3.
  destruct (indexOf memoryPrefix s) as [e|] eqn:He.
  - apply strip_prefix_no_marker. intros H. apply infix_trim in H.
    now apply (strip_prefix_result _ _ He).
  - apply strip_prefix_no_marker. now apply indexOf_None_iff.
Qed.

Lemma strip_regex_no_marker (s : jsstring) :
  ~ infix memoryPrefix (strip_regex s).
Proof.
  intros H. apply infix_trim in H. now apply (replace_memInfo_no_marker s).
Qed.

Lemma strip_regex_idem (s : jsstring) :
  strip_regex (strip_regex s) = strip_regex s.
Proof.
  unfold strip_regex at 1.
  rewrite replace_memInfo_id by apply strip_regex_no_marker.
  apply trim_idem.
Qed.

Lemma trimStart_fixed_head (c : N) (r : jsstring) :
  trimStart (c :: r) = c :: r -> isWhiteSpace c = false.
Proof.
  intros H. destruct (isWhiteSpace c) eqn:E; [|reflexivity]. exfalso.
  cbn [trimStart] in H. rewrite E in H.
  pose proof (trimStart_length r) as Hl. rewrite H in Hl. simpl in Hl. lia.
Qed.

(** Whether [p] first occurs at the end of [a] does not depend on what
    follows that occurrence. *)
Lemma indexOf_app_indep (p a b b' : jsstring) :
  indexOf p (a ++ p ++ b) = Some (length a) ->
  indexOf p (a ++ p ++ b') = Some (length a).
Proof.
  induction a as [|c a IH]; cbn [app length].
  - intros _. destruct (p ++ b') eqn:E; cbn [indexOf];
      rewrite <- E, startsWith_self_app; reflexivity.
  - cbn [indexOf]. intros H.
    assert (Hs : startsWith p (c :: a ++ p ++ b) = startsWith p (c :: a ++ p ++ b')).
    { change (c :: a ++ p ++ b) with ((c :: a) ++ p ++ b).
      change (c :: a ++ p ++ b') with ((c :: a) ++ p ++ b').
      rewrite !app_assoc.
      rewrite (startsWith_app_long p ((c :: a) ++ p) b),
              (startsWith_app_long p ((c :: a) ++ p) b')
        by (rewrite length_app; lia).
      reflexivity. }
    rewrite <- Hs. destruct (startsWith p (c :: a ++ p ++ b)); [discriminate|].
    destruct (indexOf p (a ++ p ++ b)) as [k|] eqn:Hk; [|discriminate].
    cbn [option_map] in H. injection H as ->.
    now rewrite (IH eq_refl).
Qed.

Lemma strip_message_idem (s : jsstring) :
  ChatGPT.strip_message (ChatGPT.strip_message s) = ChatGPT.strip_message s.
Proof.
  unfold ChatGPT.strip_message at 2 3. fold (strip_regex s).
  set (closing := lit "</p>").
  destruct (indexOf closing (strip_regex s)) as [e|] eqn:He.
  - destruct (indexOf_Some_split _ _ _ He) as (a & b & Hab & Hlen).
    assert (Hr : firstn (e + 4) (strip_regex s) = a ++ closing).
    { rewrite Hab, app_assoc, firstn_app.
      rewrite firstn_all2 by (rewrite length_app; simpl; lia).
      rewrite length_app. replace (e + 4 - _) with 0 by (simpl; lia).
      apply app_nil_r. }
    rewrite Hr.
    assert (Hfree : ~ infix memoryPrefix (a ++ closing)).
    { rewrite <- Hr. intros H. apply infix_firstn in H.
      now apply (strip_regex_no_marker s). }
    assert (Htrim : trim (a ++ closing) = a ++ closing).
    { unfold trim.
      assert (Hst : trimStart (a ++ closing) = a ++ closing).
      { destruct a as [|c a']; [reflexivity|].
        cbn [app]. apply trimStart_cons.
        pose proof (trimmed_trimStart _ (trimmed_trim (replace_memInfo s))) as Ht.
        fold (strip_regex s) in Ht. rewrite Hab in Ht.
        now apply trimStart_fixed_head in Ht. }
      rewrite Hst.
      change closing with ([60; 47; 112] ++ [62])%N.
      rewrite app_assoc. now apply trimEnd_snoc. }
    unfold ChatGPT.strip_message.
    rewrite replace_memInfo_id by exact Hfree. rewrite Htrim.
    fold closing.
    assert (Hidx : indexOf closing (a ++ closing) = Some e).
    { rewrite <- Hlen. rewrite <- (app_nil_r closing) at 2.
      apply (indexOf_app_indep closing a b). now rewrite <- Hab, Hlen. }
    rewrite Hidx. apply firstn_all2. rewrite length_app. simpl. lia.
  - unfold ChatGPT.strip_message. fold (strip_regex (strip_regex s)).
    rewrite strip_regex_idem. fold closing. now rewrite He.
Qed.

(** ** C9: the strips are idempotent *)

(** C9.  Stripping twice is stripping once, for each of the marker strips of
    the scripts: the regex followed by [trim]; the whole strip that
    [handleMem0Click] applies to the message (regex, [trim], cut after the
    first closing paragraph tag); and the [indexOf] strip of the Grok
    script. *)
Theorem strip_idempotent (c : jsstring) :
  strip_regex (strip_regex c) = strip_regex c /\
  ChatGPT.strip_message (ChatGPT.strip_message c) = ChatGPT.strip_message c /\
  TextSite.strip_prefix (TextSite.strip_prefix c) = TextSite.strip_prefix c.
Proof.
  split; [apply strip_regex_idem|].
  split; [apply strip_message_idem | apply strip_prefix_idem].
Qed.

(** ** C5: the block that is appended *)

Lemma forEach_bullets (n : nat) (rest : list jsstring) (k : nat) (acc : jsstring) :
  k + length rest = n ->
  forEach_from
    (fun memoriesContent mem index =>
       let memoriesContent := memoriesContent ++ lit "- " ++ mem in
       if index <? n - 1 then memoriesContent ++ nl else memoriesContent)
    rest k acc
  = acc ++ lines (map bullet rest).
Proof.
  revert k acc; induction rest as [|x rest IH]; intros k acc Hn.
  - cbn. now rewrite app_nil_r.
  - cbn [forEach_from]. destruct rest as [|y rest].
    + cbn [forEach_from map lines].
      assert (Hk : (k <? n - 1) = false) by (apply Nat.ltb_ge; simpl in Hn; lia).
      now rewrite Hk.
    + assert (Hk : (k <? n - 1) = true) by (apply Nat.ltb_lt; simpl in Hn; lia).
      rewrite Hk, IH by (simpl in *; lia).
      cbn [map lines]. unfold bullet. now rewrite <- !app_assoc.
Qed.

Lemma text_memoriesContent_closed (memories : list jsstring) :
  TextSite.memoriesContent memories = nl ++ nl ++ text_block memories.
Proof.
  unfold TextSite.memoriesContent, forEach, text_block.
  rewrite (forEach_bullets (length memories)) by reflexivity.
  now rewrite <- !app_assoc.
Qed.





(** ** C3: stripping what was composed *)

Lemma text_compose_shape (original : jsstring) (memories : list jsstring) :
  TextSite.compose original memories
  = original ++ (nl ++ nl) ++ memoryPrefix ++ (nl ++ lines (map bullet memories)).
Proof.
  unfold TextSite.compose. rewrite text_memoriesContent_closed.
  unfold text_block. now rewrite <- !app_assoc.
Qed.

(** C3, as the code has it.  For a message that is trimmed (as the captured
    text always is) and holds no marker, stripping the plain-text
    composition of the Perplexity and Grok scripts gives the message back,
    with the [indexOf] strip as with the regex strip. *)
Theorem strip_compose_text (original : jsstring) (memories : list jsstring) :
  trimmed original -> ~ infix memoryPrefix original ->
  TextSite.strip_prefix (TextSite.compose original memories) = original /\
  strip_regex (TextSite.compose original memories) = original.
Proof.
  intros Ht Hm. rewrite text_compose_shape. split.
  - unfold TextSite.strip_prefix.
    rewrite indexOf_marker_app by (exact Hm || reflexivity).
    unfold substring0. rewrite app_assoc, firstn_app.
    rewrite firstn_all2 by (rewrite length_app; lia).
    rewrite <- length_app, Nat.sub_diag. cbn [firstn]. rewrite app_nil_r.
    now apply trim_app_ws.
  - unfold strip_regex.
    rewrite replace_memInfo_app; [exact Ht | exact Hm | | reflexivity].
    now apply trimmed_trimEnd.
Qed.

Lemma strip_compose_text_witness :
  TextSite.strip_prefix
    (TextSite.compose (lit "I love Python") [lit "Loves FastAPI"; lit "Uses Rocq"])
  = lit "I love Python" /\
  strip_regex
    (TextSite.compose (lit "I love Python") [lit "Loves FastAPI"; lit "Uses Rocq"])
  = lit "I love Python".
Proof.
  apply (strip_compose_text (lit "I love Python")
                            [lit "Loves FastAPI"; lit "Uses Rocq"]).
  - reflexivity.
  - apply indexOf_None_iff. reflexivity.
Defined.

(** On the markup the ChatGPT script writes into a rich input, the strip it
    applies to that markup (lines 224-229) does not give the message back:
    the marker sits inside the wrapper, and what precedes it stays.  And a
    message that itself quotes the marker phrase is cut at the quotation,
    in plain text too. *)
Lemma strip_compose_counterexample :
  let original := lit "I love Python" in
  let composed := ChatGPT.compose ChatGPT.DIV original [lit "Loves FastAPI"] in
  let quoting := lit "What does " ++ memoryPrefix ++ lit " mean?" in
  ChatGPT.strip_content composed
  = original ++ lit "<div><br></div>" ++ ChatGPT.wrapper_open ++ lit "<strong>"
  /\ ChatGPT.strip_content composed <> original
  /\ strip_regex composed <> original
  /\ TextSite.strip_prefix (TextSite.compose quoting [lit "Loves FastAPI"])
     = lit "What does"
  /\ TextSite.strip_prefix (TextSite.compose quoting [lit "Loves FastAPI"])
     <> quoting.
Proof.
  cbv zeta. split; [vm_compute; reflexivity|].
  split; [vm_compute; discriminate|].
  split; [vm_compute; discriminate|].
  split; [vm_compute; reflexivity | vm_compute; discriminate].
Qed.

(** ** The ChatGPT controller: the guard *)

Ltac break_match :=
  match goal with
  | |- context [match ?x with _ => _ end] => destruct x eqn:?
  | |- context [if ?x then _ else _] => destruct x eqn:?
  end.

(** Counting effects in a trace that was extended by known effects. *)
Ltac solve_counts :=
  unfold count; cbn; rewrite <- ?app_assoc; rewrite ?filter_app, ?length_app;
  cbn; repeat split; try reflexivity; try lia.

Lemma strip_message_no_marker (m : jsstring) :
  ~ infix memoryPrefix (ChatGPT.strip_message m).
Proof.
  unfold ChatGPT.strip_message. fold (strip_regex m).
  destruct (indexOf _ _).
  - intros H. apply infix_firstn in H. now apply (strip_regex_no_marker m).
  - apply strip_regex_no_marker.
Qed.

Arguments ChatGPT.strip_message : simpl never.
Arguments ChatGPT.compose : simpl never.
Arguments ChatGPT.getLastMessages : simpl never.
Arguments TextSite.compose : simpl never.
Arguments TextSite.strip_prefix : simpl never.
Arguments trim : simpl never.
Arguments count : simpl never.

Section ChatGPTGuard.

Import ChatGPT.
Variable render : jsstring -> jsstring.

Lemma guarded_init i sb mc : guarded (init i sb mc).
Proof. split; [reflexivity | constructor]. Qed.

Lemma guarded_ext st st' :
  isProcessingMem0 st' = isProcessingMem0 st -> inflight st' = inflight st ->
  guarded st -> guarded st'.
Proof. unfold guarded. now intros -> ->. Qed.

Lemma guarded_idle st' :
  isProcessingMem0 st' = false -> inflight st' = [] -> guarded st'.
Proof. unfold guarded. intros -> ->. split; [reflexivity | constructor]. Qed.

Lemma catch_finally_flag tr st :
  isProcessingMem0 (catch_finally tr st) = false /\
  inflight (catch_finally tr st) = inflight st /\
  input (catch_finally tr st) = input st /\
  timers (catch_finally tr st) = timers st /\
  adds (catch_finally tr st) = adds st.
Proof. unfold catch_finally. destruct (popup_of tr); cbn; auto. Qed.

Lemma handleMem0Click_guarded tr st :
  guarded st -> guarded (handleMem0Click tr st).
Proof.
  intros H. unfold handleMem0Click. cbn [getMemoryEnabledState negb].
  destruct (truthy (getInputValue (emit [ButtonLoading true] st))) eqn:Hm;
    cbn [negb].
  - destruct (isProcessingMem0 (emit [ButtonLoading true] st)) eqn:Hp.
    + revert H. now apply guarded_ext.
    + cbn in Hp. destruct H as [Hflag _]. rewrite Hp in Hflag.
      destruct (getLastMessages 2 _).
      * split; cbn; rewrite Hflag; [reflexivity|].
        constructor; [|constructor]. cbn.
        split; [|apply strip_message_no_marker].
        unfold getInputValue in Hm. cbn in Hm.
        destruct (input st); [reflexivity | discriminate].
      * destruct (catch_finally_flag tr
                    (emit [ConsoleLog]
                       (set_isProcessingMem0 true (emit [ButtonLoading true] st))))
          as (Hf & Hi & _).
        apply guarded_idle; [exact Hf | now rewrite Hi].
  - revert H. apply guarded_ext; destruct (popup_of tr); reflexivity.
Qed.

Lemma resume_search_idle c r st :
  isProcessingMem0 (resume_search render c r st) = false /\
  inflight (resume_search render c r st) = inflight st.
Proof.
  unfold resume_search, write_input.
  repeat break_match; cbn;
    try (destruct (catch_finally_flag (c_trigger c) st) as (Hf & Hi & _);
         now split);
    now split.
Qed.

Lemma resume_add_guard messages r st :
  isProcessingMem0 (resume_add messages r st) = isProcessingMem0 st /\
  inflight (resume_add messages r st) = inflight st /\
  input (resume_add messages r st) = input st /\
  timers (resume_add messages r st) = timers st.
Proof. unfold resume_add. repeat break_match; cbn; auto. Qed.

Lemma remove_nth_singleton {A : Type} (l : list A) (i : nat) (x : A) :
  length l = 1 -> nth_error l i = Some x -> remove_nth i l = [].
Proof.
  destruct l as [|y [|z l]]; try discriminate. intros _.
  destruct i as [|i]; [reflexivity|]. destruct i; discriminate.
Qed.

Lemma step_guarded st e : guarded st -> guarded (step render st e).
Proof.
  intros H. destruct e; cbn [step].
  - destruct (input st); [|exact H].
    destruct shiftKey; cbn [negb]; [exact H|].
    cbn [getMemoryEnabledState]. apply handleMem0Click_guarded.
    revert H. now apply guarded_ext.
  - apply handleMem0Click_guarded. revert H. now apply guarded_ext.
  - now apply handleMem0Click_guarded.
  - destruct (nth_error (inflight st) i) as [c|] eqn:Hc; [|exact H].
    destruct (resume_search_idle c r (set_inflight (remove_nth i (inflight st)) st))
      as (Hf & Hi).
    apply guarded_idle; [exact Hf|]. rewrite Hi. cbn.
    destruct H as [Hflag _]. destruct (isProcessingMem0 st).
    + now apply (remove_nth_singleton _ _ c).
    + rewrite Hflag in Hc. destruct i; discriminate.
  - destruct (nth_error (adds st) i) as [m|]; [|exact H].
    destruct (resume_add_guard m r (set_adds (remove_nth i (adds st)) st))
      as (Hf & Hi & _).
    revert H. now apply guarded_ext.
  - destruct (timers st); [exact H|]. revert H. now apply guarded_ext.
  - revert H. now apply guarded_ext.
Qed.

Lemma reachable_guarded st : reachable render st -> guarded st.
Proof.
  induction 1; [apply guarded_init | now apply step_guarded].
Qed.

Lemma count_app p t es : count p (t ++ es) = count p t + count p es.
Proof. unfold count. now rewrite filter_app, length_app. Qed.

Lemma count_quiet es :
  forallb quiet es = true ->
  count isSearchCall es = 0 /\ count isAddCall es = 0 /\
  count isRelease es = 0 /\ count isInputWrite es = 0.
Proof.
  induction es as [|e es IH]; [now repeat split|].
  cbn [forallb]. intros H. apply andb_true_iff in H as [He Hes].
  destruct (IH Hes) as (H1 & H2 & H3 & H4).
  unfold count in *. cbn [filter].
  destruct e; cbn in He; try discriminate; cbn; auto.
Qed.

(** While the flag is set, an activation of [handleMem0Click] ends at the
    guard (or before it, at the empty-message check). *)
Lemma handleMem0Click_busy tr st :
  isProcessingMem0 st = true ->
  inflight (handleMem0Click tr st) = inflight st /\
  isProcessingMem0 (handleMem0Click tr st) = true /\
  input (handleMem0Click tr st) = input st /\
  timers (handleMem0Click tr st) = timers st /\
  exists es, trace (handleMem0Click tr st) = trace st ++ es /\
             forallb quiet es = true.
Proof.
  intros Hp. unfold handleMem0Click. cbn [getMemoryEnabledState negb].
  destruct (truthy (getInputValue (emit [ButtonLoading true] st))); cbn [negb].
  - cbn [isProcessingMem0 emit]. rewrite Hp. cbn.
    repeat split; try assumption. now exists [ButtonLoading true].
  - destruct (popup_of tr); cbn; repeat split; try assumption;
      eexists; rewrite <- !app_assoc; split; reflexivity.
Qed.

(** An activation that adds to what is awaited has issued one search
    call. *)
Lemma handleMem0Click_start tr st :
  length (inflight (handleMem0Click tr st)) = S (length (inflight st)) ->
  count isSearchCall (trace (handleMem0Click tr st))
  = S (count isSearchCall (trace st)).
Proof.
  unfold handleMem0Click. cbn [getMemoryEnabledState negb].
  destruct (truthy (getInputValue (emit [ButtonLoading true] st))); cbn [negb].
  - destruct (isProcessingMem0 (emit [ButtonLoading true] st)).
    + cbn. intros H. lia.
    + destruct (getLastMessages 2 _).
      * intros _. cbn [trace emit set_inflight set_isProcessingMem0].
        rewrite <- !app_assoc, count_app. unfold count. cbn. lia.
      * match goal with
        | |- context [catch_finally tr ?s] =>
            destruct (catch_finally_flag tr s) as (_ & Hi & _)
        end.
        rewrite Hi. cbn. intros H. lia.
  - destruct (popup_of tr); cbn; intros H; lia.
Qed.

End ChatGPTGuard.

(** ** C1: at most one submission at a time *)

(** C1, as the code has it.  In the ChatGPT script the flag
    [isProcessingMem0] admits one activation at a time: in every state the
    page can reach, at most one search is awaited, and while one is, a
    further Enter changes neither the flag nor what is awaited, and causes
    no search call, no add call, no release and no write to the input.  So
    from an idle page whose Enter starts a cycle, two Enters cause exactly
    one search call. *)
Theorem chatgpt_enter_reentrant_noop
        (render : jsstring -> jsstring) (st : ChatGPT.state) (shiftKey : bool) :
  ChatGPT.reachable render st ->
  length (ChatGPT.inflight st) <= 1 /\
  (ChatGPT.inflight st <> [] ->
   let st' := ChatGPT.step render st (ChatGPT.KeyDownEnter shiftKey) in
   ChatGPT.isProcessingMem0 st = true /\
   ChatGPT.isProcessingMem0 st' = true /\
   ChatGPT.inflight st' = ChatGPT.inflight st /\
   ChatGPT.input st' = ChatGPT.input st /\
   count isSearchCall (ChatGPT.trace st') = count isSearchCall (ChatGPT.trace st) /\
   count isAddCall (ChatGPT.trace st') = count isAddCall (ChatGPT.trace st) /\
   count isRelease (ChatGPT.trace st') = count isRelease (ChatGPT.trace st)) /\
  (length (ChatGPT.inflight
             (ChatGPT.step render st (ChatGPT.KeyDownEnter false))) =
   S (length (ChatGPT.inflight st)) ->
   let st2 := ChatGPT.run render st
                [ChatGPT.KeyDownEnter false; ChatGPT.KeyDownEnter false] in
   count isSearchCall (ChatGPT.trace st2)
   = S (count isSearchCall (ChatGPT.trace st))
   /\ length (ChatGPT.inflight st2) = 1).
Proof.
  intros Hr. pose proof (reachable_guarded render st Hr) as Hg.
  assert (Hbusy : forall s sk, ChatGPT.guarded s -> ChatGPT.inflight s <> [] ->
    let s' := ChatGPT.step render s (ChatGPT.KeyDownEnter sk) in
    ChatGPT.isProcessingMem0 s = true /\
    ChatGPT.isProcessingMem0 s' = true /\
    ChatGPT.inflight s' = ChatGPT.inflight s /\
    ChatGPT.input s' = ChatGPT.input s /\
    count isSearchCall (ChatGPT.trace s') = count isSearchCall (ChatGPT.trace s) /\
    count isAddCall (ChatGPT.trace s') = count isAddCall (ChatGPT.trace s) /\
    count isRelease (ChatGPT.trace s') = count isRelease (ChatGPT.trace s)).
  { intros s sk [Hflag _] Hne.
    assert (Hp : ChatGPT.isProcessingMem0 s = true).
    { destruct (ChatGPT.isProcessingMem0 s); [reflexivity | contradiction]. }
    cbn zeta. cbn [ChatGPT.step].
    destruct (ChatGPT.input s) eqn:Hin; [|now rewrite Hin].
    destruct sk; cbn [negb]; [now rewrite Hin|].
    cbn [ChatGPT.getMemoryEnabledState].
    destruct (handleMem0Click_busy ChatGPT.EnterKey
                (ChatGPT.emit [PreventDefault; StopPropagation] s) Hp)
      as (Hi & Hf & Hinp & _ & es & Ht & Hq).
    rewrite Hi, Hf, Hinp, Ht. cbn [ChatGPT.inflight ChatGPT.input ChatGPT.trace ChatGPT.emit].
    destruct (count_quiet es Hq) as (Q1 & Q2 & Q3 & _).
    rewrite <- app_assoc, !count_app, Q1, Q2, Q3.
    unfold count. repeat split; try assumption; cbn; lia. }
  split; [|split].
  - destruct Hg as [Hflag _].
    destruct (ChatGPT.isProcessingMem0 st); rewrite Hflag; simpl; lia.
  - now apply Hbusy.
  - intros Hstart. cbn [ChatGPT.run fold_left].
    set (st1 := ChatGPT.step render st (ChatGPT.KeyDownEnter false)) in *.
    assert (Hg1 : ChatGPT.guarded st1) by now apply step_guarded.
    assert (Hne1 : ChatGPT.inflight st1 <> [])
      by (destruct (ChatGPT.inflight st1); [discriminate Hstart | discriminate]).
    destruct (Hbusy st1 false Hg1 Hne1) as (Hp1 & _ & Hi2 & _ & Hs2 & _).
    cbn zeta in Hi2, Hs2. rewrite Hs2, Hi2.
    split.
    + (* the first Enter started the cycle, with one search call *)
      subst st1. revert Hstart. cbn [ChatGPT.step].
      destruct (ChatGPT.input st) eqn:Hin; [|intros; lia].
      cbn [negb ChatGPT.getMemoryEnabledState]. intros Hstart.
      pose proof (handleMem0Click_start ChatGPT.EnterKey
                    (ChatGPT.emit [PreventDefault; StopPropagation] st) Hstart)
        as Hone.
      rewrite Hone.
      cbn [ChatGPT.trace ChatGPT.emit]. rewrite count_app. unfold count. cbn. lia.
    + destruct Hg1 as [Hflag1 _]. now rewrite Hp1 in Hflag1.
Qed.

Lemma chatgpt_enter_reentrant_noop_witness :
  let idle := chatgpt_page (lit "I love Python") in
  let st := ChatGPT.step plain_render idle (ChatGPT.KeyDownEnter false) in
  ChatGPT.reachable plain_render st /\
  ChatGPT.inflight st <> [] /\
  count isSearchCall
        (ChatGPT.trace (ChatGPT.step plain_render st (ChatGPT.KeyDownEnter false)))
  = 1 /\
  count isSearchCall
        (ChatGPT.trace
           (ChatGPT.run plain_render idle
              [ChatGPT.KeyDownEnter false; ChatGPT.KeyDownEnter false]))
  = 1.
Proof.
  cbv zeta.
  assert (Hr : ChatGPT.reachable plain_render
                 (ChatGPT.step plain_render (chatgpt_page (lit "I love Python"))
                               (ChatGPT.KeyDownEnter false)))
    by apply ChatGPT.reachable_step, ChatGPT.reachable_init.
  assert (Hne : ChatGPT.inflight
                  (ChatGPT.step plain_render (chatgpt_page (lit "I love Python"))
                                (ChatGPT.KeyDownEnter false)) <> [])
    by (vm_compute; discriminate).
  split; [exact Hr|]. split; [exact Hne|]. split.
  - destruct (chatgpt_enter_reentrant_noop plain_render _ false Hr) as (_ & Hbusy & _).
    destruct (Hbusy Hne) as (_ & _ & _ & _ & Hs & _).
    rewrite Hs. vm_compute. reflexivity.
  - destruct (chatgpt_enter_reentrant_noop plain_render
                (chatgpt_page (lit "I love Python")) false
                (ChatGPT.reachable_init plain_render
                   (Some (ChatGPT.Div (lit "I love Python") (lit "I love Python")))
                   true None))
      as (_ & _ & Htwice).
    destruct (Htwice eq_refl) as [Hs _]. exact Hs.
Defined.

(** The Perplexity and Grok scripts have no such flag: each Enter on a
    non-empty textarea starts an activation of its own, and two Enters
    while the first search is still awaited cause two search calls.  In the
    ChatGPT script the flag is cleared as soon as the click on the send
    button is scheduled, so an Enter that comes before the scheduled click
    starts a second search. *)
Lemma enter_twice_counterexample :
  let es := [TextSite.KeyDownEnter false false; TextSite.StorageGot 0;
             TextSite.KeyDownEnter false false; TextSite.StorageGot 1] in
  let st := TextSite.run TextSite.Perplexity
                         (text_page (lit "I love Python") true with_key) es in
  let releasing := ChatGPT.run plain_render (chatgpt_page (lit "I love Python"))
                     [ChatGPT.KeyDownEnter false;
                      ChatGPT.SearchSettled 0 (found [lit "Loves FastAPI"]);
                      ChatGPT.KeyDownEnter false] in
  length (TextSite.inflight st) = 2 /\
  count isSearchCall (TextSite.trace st) = 2 /\
  count isSearchCall
        (TextSite.trace
           (TextSite.run TextSite.Grok
                         (text_page (lit "I love Python") true with_key) es)) = 2 /\
  ChatGPT.timers releasing = 1 /\
  count isRelease (ChatGPT.trace releasing) = 1 /\
  count isSearchCall (ChatGPT.trace releasing) = 2.
Proof. vm_compute. repeat split. Qed.

(** ** C2: a search that fails *)

Section ChatGPTFailure.

Import ChatGPT.
Variable render : jsstring -> jsstring.

Lemma catch_finally_trace tr st :
  exists es, trace (catch_finally tr st) = trace st ++ es /\
             forallb quiet es = true.
Proof.
  unfold catch_finally. destruct tr; cbn; rewrite <- ?app_assoc;
    eexists; split; reflexivity.
Qed.

Lemma resume_search_failed c r st :
  failed r = true -> resume_search render c r st = catch_finally (c_trigger c) st.
Proof.
  destruct r as [|status body]; [reflexivity|]. cbn [failed resume_search].
  now intros ->.
Qed.

End ChatGPTFailure.

Section TextSiteFailure.

Import TextSite.

Lemma textsite_resume_search_failed s cap msg click msgs r st :
  failed r = true ->
  resume_search s cap msg click msgs r st = catch_block s msg st.
Proof.
  destruct r as [|status body]; [reflexivity|]. cbn [failed resume_search].
  now intros ->.
Qed.

End TextSiteFailure.

(** C2, as the code has it.  When the search fails (the request is rejected
    or the status is not a 2xx one), the cycle ends and no add call is made.
    ChatGPT: the flag is cleared, nothing is awaited any more, and the input
    is left as it was, never having been rewritten.  Perplexity: the captured
    message is written back to the textarea; Grok: the textarea is left as
    it is.  In no script is the submission released on this path: the send
    button is not clicked and no click is scheduled. *)
Theorem search_failure_degrades
        (render : jsstring -> jsstring) (st : ChatGPT.state) (c : ChatGPT.cycle)
        (s : TextSite.site) (ts : TextSite.state)
        (capturedText message : jsstring) (clickSendButton : bool)
        (messages : list ConversationMessage)
        (i : nat) (r : fetchResult) :
  failed r = true ->
  (ChatGPT.reachable render st -> nth_error (ChatGPT.inflight st) i = Some c ->
   let st' := ChatGPT.step render st (ChatGPT.SearchSettled i r) in
   ChatGPT.isProcessingMem0 st' = false /\
   ChatGPT.inflight st' = [] /\
   ChatGPT.input st' = ChatGPT.input st /\
   ChatGPT.timers st' = ChatGPT.timers st /\
   count isInputWrite (ChatGPT.trace st') = count isInputWrite (ChatGPT.trace st) /\
   count isRelease (ChatGPT.trace st') = count isRelease (ChatGPT.trace st) /\
   count isAddCall (ChatGPT.trace st') = count isAddCall (ChatGPT.trace st))
  /\
  (nth_error (TextSite.inflight ts) i
   = Some (TextSite.AwaitSearch capturedText message clickSendButton messages) ->
   truthy (Some message) = true ->
   let ts' := TextSite.step s ts (TextSite.SearchSettled i r) in
   TextSite.inflight ts' = remove_nth i (TextSite.inflight ts) /\
   TextSite.textarea ts'
   = match s, TextSite.textarea ts with
     | TextSite.Perplexity, Some _ => Some message
     | _, old => old
     end /\
   TextSite.timers ts' = TextSite.timers ts /\
   count isRelease (TextSite.trace ts') = count isRelease (TextSite.trace ts) /\
   count isAddCall (TextSite.trace ts') = count isAddCall (TextSite.trace ts)).
Proof.
  intros Hr. split.
  - intros Hreach Hc. cbn zeta. cbn [ChatGPT.step]. rewrite Hc.
    rewrite resume_search_failed by exact Hr.
    set (st0 := ChatGPT.set_inflight (remove_nth i (ChatGPT.inflight st)) st).
    destruct (catch_finally_flag (ChatGPT.c_trigger c) st0) as (Hf & Hi & Hin & Ht & _).
    destruct (catch_finally_trace (ChatGPT.c_trigger c) st0) as (es & Hes & Hq).
    destruct (count_quiet es Hq) as (_ & Q2 & Q3 & Q4).
    rewrite Hf, Hi, Hin, Ht, Hes, !count_app, Q2, Q3, Q4.
    subst st0. cbn.
    destruct (reachable_guarded render st Hreach) as [Hflag _].
    assert (Hrem : remove_nth i (ChatGPT.inflight st) = []).
    { destruct (ChatGPT.isProcessingMem0 st).
      - now apply (remove_nth_singleton _ _ c).
      - rewrite Hflag in Hc. destruct i; discriminate. }
    rewrite Hrem. unfold count. repeat split; lia.
  - intros Hc Hm. cbn zeta. cbn [TextSite.step]. rewrite Hc.
    rewrite textsite_resume_search_failed by exact Hr.
    unfold TextSite.catch_block, TextSite.setInputValue. rewrite Hm.
    destruct s; cbn.
    + destruct (TextSite.textarea ts) eqn:Hta; cbn; rewrite ?Hta; solve_counts.
    + destruct (TextSite.textarea ts); solve_counts.
Qed.

Lemma search_failure_degrades_witness :
  let r := HttpResponse 500 None in
  let st := ChatGPT.step plain_render (chatgpt_page (lit "I love Python"))
                         (ChatGPT.KeyDownEnter false) in
  let ts := TextSite.run TextSite.Perplexity
                         (text_page (lit "  I love Python ") true with_key)
                         [TextSite.KeyDownEnter false false; TextSite.StorageGot 0] in
  failed r = true /\
  ChatGPT.isProcessingMem0 (ChatGPT.step plain_render st (ChatGPT.SearchSettled 0 r))
  = false /\
  ChatGPT.input (ChatGPT.step plain_render st (ChatGPT.SearchSettled 0 r))
  = Some (ChatGPT.Div (lit "I love Python") (lit "I love Python")) /\
  TextSite.textarea (TextSite.step TextSite.Perplexity ts (TextSite.SearchSettled 0 r))
  = Some (lit "I love Python").
Proof.
  cbv zeta.
  pose (message := lit "I love Python").
  pose (messages := [{| msg_role := user; msg_content := message |}]).
  pose (c := {| ChatGPT.c_trigger := ChatGPT.EnterKey;
                ChatGPT.c_inputElement := true;
                ChatGPT.c_message := message;
                ChatGPT.c_messages := messages |}).
  destruct (search_failure_degrades plain_render
              (ChatGPT.step plain_render (chatgpt_page (lit "I love Python"))
                            (ChatGPT.KeyDownEnter false))
              c TextSite.Perplexity
              (TextSite.run TextSite.Perplexity
                            (text_page (lit "  I love Python ") true with_key)
                            [TextSite.KeyDownEnter false false; TextSite.StorageGot 0])
              message message true messages 0 (HttpResponse 500 None) eq_refl)
    as [Hc Ht].
  split; [reflexivity|].
  destruct Hc as (Hflag & _ & Hin & _).
  - apply ChatGPT.reachable_step, ChatGPT.reachable_init.
  - reflexivity.
  - destruct Ht as (_ & Hta & _).
    + reflexivity.
    + reflexivity.
    + split; [exact Hflag|]. split; [rewrite Hin; reflexivity|].
      rewrite Hta. reflexivity.
Defined.

(** On the failure path no script releases the submission: after the
    failed search, and after any timer that could still fire, the send
    button was neither clicked nor scheduled to be. *)
Lemma search_failure_counterexample :
  let st := ChatGPT.run plain_render (chatgpt_page (lit "I love Python"))
              [ChatGPT.KeyDownEnter false;
               ChatGPT.SearchSettled 0 NetworkError;
               ChatGPT.TimerFired] in
  let ts := TextSite.run TextSite.Perplexity
              (text_page (lit "I love Python") true with_key)
              [TextSite.KeyDownEnter false false; TextSite.StorageGot 0;
               TextSite.SearchSettled 0 (HttpResponse 500 None);
               TextSite.TimerFired] in
  count isSearchCall (ChatGPT.trace st) = 1 /\
  count isRelease (ChatGPT.trace st) = 0 /\
  count isSearchCall (TextSite.trace ts) = 1 /\
  count isRelease (TextSite.trace ts) = 0.
Proof. vm_compute. repeat split. Qed.

(** ** C8: an empty input *)

(** C8, as the code has it.  With an empty input, no script issues a search
    call or releases a submission, and nothing is left in progress.  The
    ChatGPT script shows its transient notice only when the activation has
    a popup to show it in, which is the case for the button and not for
    Enter or Ctrl+M, where the error goes to the console only.  The
    Perplexity and Grok scripts ignore the key: they do not call
    [preventDefault] and give no notice. *)
Theorem empty_input_aborts
        (render : jsstring -> jsstring) (st : ChatGPT.state) (tr : ChatGPT.trigger)
        (s : TextSite.site) (ts : TextSite.state) (shiftKey isComposing : bool) :
  (truthy (ChatGPT.getInputValue st) = false ->
   let st' := ChatGPT.step render st (ChatGPT.event_of tr) in
   ChatGPT.isProcessingMem0 st' = ChatGPT.isProcessingMem0 st /\
   ChatGPT.inflight st' = ChatGPT.inflight st /\
   ChatGPT.input st' = ChatGPT.input st /\
   ChatGPT.timers st' = ChatGPT.timers st /\
   count isSearchCall (ChatGPT.trace st') = count isSearchCall (ChatGPT.trace st) /\
   count isRelease (ChatGPT.trace st') = count isRelease (ChatGPT.trace st) /\
   count isAddCall (ChatGPT.trace st') = count isAddCall (ChatGPT.trace st) /\
   count isNotice (ChatGPT.trace st')
   = count isNotice (ChatGPT.trace st) + (if ChatGPT.popup_of tr then 1 else 0))
  /\
  (match TextSite.textarea ts with
   | Some value => trim value = []
   | None => True
   end ->
   let ts' := TextSite.step s ts (TextSite.KeyDownEnter shiftKey isComposing) in
   TextSite.inflight ts' = TextSite.inflight ts /\
   TextSite.textarea ts' = TextSite.textarea ts /\
   TextSite.timers ts' = TextSite.timers ts /\
   TextSite.trace ts'
   = TextSite.trace ts ++
     (if negb shiftKey && negb isComposing
      then match s with TextSite.Perplexity => [ConsoleLog] | TextSite.Grok => [] end
      else [])).
Proof.
  split.
  - intros He. cbn zeta.
    assert (Hh : forall s0, truthy (ChatGPT.getInputValue s0) = false ->
      let s' := ChatGPT.handleMem0Click tr s0 in
      ChatGPT.isProcessingMem0 s' = ChatGPT.isProcessingMem0 s0 /\
      ChatGPT.inflight s' = ChatGPT.inflight s0 /\
      ChatGPT.input s' = ChatGPT.input s0 /\
      ChatGPT.timers s' = ChatGPT.timers s0 /\
      ChatGPT.trace s'
      = ChatGPT.trace s0 ++ [ButtonLoading true; ConsoleError "No input message found"]
          ++ (if ChatGPT.popup_of tr then [ShowPopup "No input message found"] else [])
          ++ [ButtonLoading false]).
    { intros s0 H0. cbn zeta. unfold ChatGPT.handleMem0Click.
      cbn [ChatGPT.getMemoryEnabledState negb].
      change (ChatGPT.getInputValue (ChatGPT.emit [ButtonLoading true] s0))
        with (ChatGPT.getInputValue s0).
      rewrite H0. cbn [negb].
      destruct (ChatGPT.popup_of tr); cbn; rewrite <- ?app_assoc; repeat split. }
    destruct tr; cbn [ChatGPT.event_of ChatGPT.step ChatGPT.popup_of].
    + destruct (ChatGPT.input st) eqn:Hin; [|rewrite Hin; solve_counts].
      cbn [negb ChatGPT.getMemoryEnabledState].
      destruct (Hh (ChatGPT.emit [PreventDefault; StopPropagation] st) He)
        as (H1 & H2 & H3 & H4 & H5).
      rewrite H1, H2, H3, H4, H5. cbn [ChatGPT.popup_of].
      cbn [ChatGPT.input ChatGPT.emit]. rewrite Hin. solve_counts.
    + destruct (Hh (ChatGPT.emit [PreventDefault] st) He)
        as (H1 & H2 & H3 & H4 & H5).
      rewrite H1, H2, H3, H4, H5. cbn [ChatGPT.popup_of]. solve_counts.
    + destruct (Hh st He) as (H1 & H2 & H3 & H4 & H5).
      rewrite H1, H2, H3, H4, H5. cbn [ChatGPT.popup_of]. solve_counts.
  - intros He. cbn zeta. cbn [TextSite.step].
    assert (Hk : forall t,
      TextSite.inflight (TextSite.textarea_keydown shiftKey t) = TextSite.inflight t /\
      TextSite.textarea (TextSite.textarea_keydown shiftKey t) = TextSite.textarea t /\
      TextSite.timers (TextSite.textarea_keydown shiftKey t) = TextSite.timers t /\
      TextSite.trace (TextSite.textarea_keydown shiftKey t) = TextSite.trace t).
    { intros t. unfold TextSite.textarea_keydown.
      destruct (TextSite.textarea t) eqn:Hta; [|now rewrite Hta].
      destruct (TextSite.focused t && negb shiftKey); cbn; now rewrite Hta. }
    unfold TextSite.handleEnterKey.
    destruct (negb shiftKey && negb isComposing).
    + set (ts0 := match s with
                  | TextSite.Perplexity => TextSite.emit [ConsoleLog] ts
                  | TextSite.Grok => ts
                  end).
      assert (H0 : TextSite.inflight ts0 = TextSite.inflight ts /\
                   TextSite.textarea ts0 = TextSite.textarea ts /\
                   TextSite.timers ts0 = TextSite.timers ts /\
                   TextSite.trace ts0
                   = TextSite.trace ts ++
                     match s with
                     | TextSite.Perplexity => [ConsoleLog]
                     | TextSite.Grok => []
                     end).
      { subst ts0. destruct s; cbn; rewrite ?app_nil_r; repeat split. }
      destruct H0 as (I1 & I2 & I3 & I4).
      assert (Hres : (let (st1, stopped) :=
                        match TextSite.textarea ts0 with
                        | Some value =>
                            if TextSite.focused ts0
                            then
                              if truthy (Some (trim value))
                              then (TextSite.handleMem0Processing (trim value) true
                                      (TextSite.emit [PreventDefault; StopPropagation] ts0),
                                    true)
                              else (ts0, false)
                            else (ts0, false)
                        | None => (ts0, false)
                        end in
                      if stopped then st1 else TextSite.textarea_keydown shiftKey st1)
                     = TextSite.textarea_keydown shiftKey ts0).
      { rewrite I2. destruct (TextSite.textarea ts) as [value|]; [|reflexivity].
        rewrite He. cbn [truthy]. now destruct (TextSite.focused ts0). }
      rewrite Hres. destruct (Hk ts0) as (K1 & K2 & K3 & K4).
      rewrite K1, K2, K3, K4. now repeat split.
    + destruct (Hk ts) as (K1 & K2 & K3 & K4).
      rewrite K1, K2, K3, K4, app_nil_r. now repeat split.
Qed.

Lemma empty_input_aborts_witness :
  let st := chatgpt_page [] in
  let ts := text_page (lit "   ") true with_key in
  truthy (ChatGPT.getInputValue st) = false /\
  trim (lit "   ") = [] /\
  count isSearchCall
        (ChatGPT.trace (ChatGPT.step plain_render st ChatGPT.ClickMem0Button)) = 0 /\
  count isNotice
        (ChatGPT.trace (ChatGPT.step plain_render st ChatGPT.ClickMem0Button)) = 1 /\
  TextSite.trace (TextSite.step TextSite.Grok ts (TextSite.KeyDownEnter false false))
  = [].
Proof.
  cbv zeta.
  destruct (empty_input_aborts plain_render (chatgpt_page []) ChatGPT.Mem0Button
              TextSite.Grok (text_page (lit "   ") true with_key) false false)
    as [Hc Ht].
  split; [reflexivity|]. split; [reflexivity|].
  destruct Hc as (_ & _ & _ & _ & Hs & _ & _ & Hn); [reflexivity|].
  destruct Ht as (_ & _ & _ & Htr); [reflexivity|].
  split; [exact Hs|]. split; [exact Hn | exact Htr].
Defined.

(** Enter on an empty ChatGPT input: the key is suppressed and the error is
    logged, but there is no popup to show a notice in. *)
Lemma empty_input_counterexample :
  let st := ChatGPT.step plain_render (chatgpt_page []) (ChatGPT.KeyDownEnter false) in
  ChatGPT.trace st
  = [PreventDefault; StopPropagation; ButtonLoading true;
     ConsoleError "No input message found"; ButtonLoading false] /\
  count isNotice (ChatGPT.trace st) = 0 /\
  count isNotice
        (TextSite.trace
           (TextSite.step TextSite.Perplexity (text_page [] true with_key)
                          (TextSite.KeyDownEnter false false))) = 0.
Proof. vm_compute. repeat split. Qed.

(** ** C10: no credentials in the Perplexity and Grok scripts *)

Lemma remove_nth_length_app {A : Type} (l : list A) (x : A) :
  remove_nth (length l) (l ++ [x]) = l.
Proof.
  induction l as [|y l IH]; cbn [length app remove_nth];
    [reflexivity | f_equal; exact IH].
Qed.

Lemma nth_error_length_app {A : Type} (l : list A) (x : A) :
  nth_error (l ++ [x]) (length l) = Some x.
Proof. rewrite nth_error_app2, Nat.sub_diag by lia. reflexivity. Qed.

Lemma replace_nth_length_app {A : Type} (l : list A) (x y : A) :
  replace_nth (length l) y (l ++ [x]) = l ++ [y].
Proof.
  induction l as [|z l IH]; cbn [length app replace_nth];
    [reflexivity | f_equal; exact IH].
Qed.



(** ** C7: the context sent with the add call *)

Lemma turn_message_rev (el : ChatGPT.turnElement) :
  rev (turn_message el) = turn_message el.
Proof. destruct el as [[t|]|[t|]|]; reflexivity. Qed.

Lemma flat_map_turn_rev (children : list ChatGPT.turnElement) :
  flat_map turn_message (rev children) = rev (flat_map turn_message children).
Proof.
  induction children as [|el children IH]; [reflexivity|].
  cbn [rev flat_map]. rewrite flat_map_app, IH, rev_app_distr, turn_message_rev.
  cbn [flat_map]. now rewrite app_nil_r.
Qed.

(** The loop collects, from the last child on, the first [count] messages
    it meets, each put in front of the ones collected before. *)
Lemma getLastMessages_loop_spec (count : nat) (els : list ChatGPT.turnElement)
      (acc : list ConversationMessage) :
  Forall readable els -> length acc <= count ->
  ChatGPT.getLastMessages_loop count els acc
  = Some (rev (firstn (count - length acc) (flat_map turn_message els)) ++ acc).
Proof.
  intros Hr. revert acc. induction Hr as [|el els Hel _ IH]; intros acc Hlen.
  - cbn. now rewrite firstn_nil.
  - cbn [ChatGPT.getLastMessages_loop].
    destruct (count <=? length acc) eqn:Hc.
    + apply Nat.leb_le in Hc. replace (count - length acc) with 0 by lia.
      reflexivity.
    + apply Nat.leb_gt in Hc.
      destruct el as [[t|]|[t|]|]; cbn in Hel; try contradiction;
        cbn [flat_map turn_message app].
      * rewrite IH by (cbn; lia). cbn [length].
        replace (count - length acc) with (S (count - S (length acc))) by lia.
        cbn [firstn rev]. now rewrite <- app_assoc.
      * rewrite IH by (cbn; lia). cbn [length].
        replace (count - length acc) with (S (count - S (length acc))) by lia.
        cbn [firstn rev]. now rewrite <- app_assoc.
      * now apply IH.
Qed.

Lemma getLastMessages_last_turns (count : nat) (st : ChatGPT.state)
      (children : list ChatGPT.turnElement) :
  ChatGPT.messageContainer st = Some children -> Forall readable children ->
  ChatGPT.getLastMessages count st = Some (last_turns count children).
Proof.
  intros Hmc Hr. unfold ChatGPT.getLastMessages. rewrite Hmc.
  rewrite getLastMessages_loop_spec by (try apply Forall_rev; (exact Hr || cbn; lia)).
  cbn [length]. rewrite Nat.sub_0_r, app_nil_r, flat_map_turn_rev, firstn_rev.
  now rewrite rev_involutive.
Qed.

Lemma chatgpt_resume_search_adds render c status data st :
  ok status = true ->
  filter isAddCall
         (ChatGPT.trace
            (ChatGPT.resume_search render c (HttpResponse status (Some data)) st))
  = filter isAddCall (ChatGPT.trace st) ++ [AddCall (ChatGPT.c_messages c) true].
Proof.
  intros Hok. unfold ChatGPT.resume_search, ChatGPT.write_input. rewrite Hok.
  cbn [negb].
  repeat break_match; cbn; rewrite <- ?app_assoc, ?filter_app; cbn;
    rewrite ?app_nil_r; reflexivity.
Qed.

Lemma textsite_resume_search_adds s cap msg click msgs status data st :
  ok status = true ->
  (TextSite.textarea st <> None -> TextSite.memoriesArray data <> None) ->
  filter isAddCall
         (TextSite.trace
            (TextSite.resume_search s cap msg click msgs
                                    (HttpResponse status (Some data)) st))
  = filter isAddCall (TextSite.trace st) ++ [AddCall msgs true].
Proof.
  intros Hok Hd. unfold TextSite.resume_search, TextSite.setInputValue,
    TextSite.clickSendButtonWithDelay.
  rewrite Hok. cbn [negb].
  destruct (TextSite.textarea st) eqn:Hta.
  - destruct (TextSite.memoriesArray data) eqn:Hm;
      [|exfalso; now apply Hd].
    destruct s; cbn [TextSite.textarea TextSite.set_lastInputValue];
      rewrite ?Hta; repeat break_match; cbn;
      rewrite <- ?app_assoc, ?filter_app; cbn; rewrite ?app_nil_r; reflexivity.
  - cbn. rewrite <- ?app_assoc, ?filter_app. cbn. now rewrite ?app_nil_r.
Qed.

(** C7, as the code has it.  The add call of a cycle carries the messages
    assembled when the cycle started.  In the ChatGPT script these are the
    last two turns of the conversation in the page ([getLastMessages(2)],
    which for a container whose turns can all be read returns the last two
    of them in page order) followed by the new user message, stripped.  In
    the Perplexity and Grok scripts they are the new user message alone:
    nothing is read from the conversation in the page.  When the add call
    settles, the response is logged (the ChatGPT script repeats a failed
    request once) and the controller's flag, awaited searches, input and
    timers are left as they are. *)
Theorem add_call_context
        (render : jsstring -> jsstring) (st : ChatGPT.state)
        (m : jsstring) (ms : list ConversationMessage)
        (children : list ChatGPT.turnElement)
        (s : TextSite.site) (ts : TextSite.state) (value : jsstring)
        (status : N) (data : responseData) (i : nat) (r : addResult) :
  ok status = true ->
  (ChatGPT.reachable render st ->
   ChatGPT.isProcessingMem0 st = false ->
   ChatGPT.getInputValue st = Some m -> truthy (Some m) = true ->
   ChatGPT.getLastMessages 2 st = Some ms ->
   let st2 := ChatGPT.run render st
                [ChatGPT.KeyDownEnter false;
                 ChatGPT.SearchSettled 0 (HttpResponse status (Some data))] in
   filter isAddCall (ChatGPT.trace st2)
   = filter isAddCall (ChatGPT.trace st)
       ++ [AddCall (ms ++ [{| msg_role := user;
                              msg_content := ChatGPT.strip_message m |}]) true])
  /\
  (ChatGPT.messageContainer st = Some children -> Forall readable children ->
   ChatGPT.getLastMessages 2 st = Some (last_turns 2 children))
  /\
  (TextSite.inflight ts = [] ->
   TextSite.textarea ts = Some value -> TextSite.focused ts = true ->
   truthy (Some (trim value)) = true ->
   truthy (TextSite.apiKey (TextSite.storage ts))
   || truthy (TextSite.access_token (TextSite.storage ts)) = true ->
   TextSite.memory_enabled (TextSite.storage ts) <> Some false ->
   TextSite.memoriesArray data <> None ->
   let ts3 := TextSite.run s ts
                [TextSite.KeyDownEnter false false; TextSite.StorageGot 0;
                 TextSite.SearchSettled 0 (HttpResponse status (Some data))] in
   filter isAddCall (TextSite.trace ts3)
   = filter isAddCall (TextSite.trace ts)
       ++ [AddCall [{| msg_role := user; msg_content := trim value |}] true])
  /\
  (let st' := ChatGPT.step render st (ChatGPT.AddSettled i r) in
   ChatGPT.isProcessingMem0 st' = ChatGPT.isProcessingMem0 st /\
   ChatGPT.inflight st' = ChatGPT.inflight st /\
   ChatGPT.input st' = ChatGPT.input st /\
   ChatGPT.timers st' = ChatGPT.timers st)
  /\
  (let ts' := TextSite.step s ts (TextSite.AddSettled r) in
   TextSite.inflight ts' = TextSite.inflight ts /\
   TextSite.textarea ts' = TextSite.textarea ts /\
   TextSite.timers ts' = TextSite.timers ts).
Proof.
  intros Hok. split; [|split; [|split; [|split]]].
  - intros Hreach Hflag Hgiv Htr Hms. cbn zeta.
    destruct (reachable_guarded render st Hreach) as [Hg _].
    rewrite Hflag in Hg.
    cbn [ChatGPT.run fold_left].
    set (c := {| ChatGPT.c_trigger := ChatGPT.EnterKey;
                 ChatGPT.c_inputElement := true;
                 ChatGPT.c_message := ChatGPT.strip_message m;
                 ChatGPT.c_messages :=
                   ms ++ [{| msg_role := user;
                             msg_content := ChatGPT.strip_message m |}] |}).
    assert (H1 : ChatGPT.step render st (ChatGPT.KeyDownEnter false)
                 = ChatGPT.set_inflight [c]
                     (ChatGPT.emit
                        [PreventDefault; StopPropagation; ButtonLoading true;
                         ConsoleLog; SearchCall (ChatGPT.strip_message m) 20]
                        (ChatGPT.set_isProcessingMem0 true st))).
    { cbn [ChatGPT.step].
      destruct (ChatGPT.input st) as [el|] eqn:Hin;
        [|unfold ChatGPT.getInputValue in Hgiv; rewrite Hin in Hgiv; discriminate].
      cbn [negb ChatGPT.getMemoryEnabledState].
      unfold ChatGPT.handleMem0Click. cbn [ChatGPT.getMemoryEnabledState negb].
      change (ChatGPT.getInputValue
                (ChatGPT.emit [ButtonLoading true]
                   (ChatGPT.emit [PreventDefault; StopPropagation] st)))
        with (ChatGPT.getInputValue st).
      rewrite Hgiv, Htr. cbn [negb ChatGPT.isProcessingMem0 ChatGPT.emit].
      rewrite Hflag.
      match goal with
      | |- context [ChatGPT.getLastMessages 2 ?s0] =>
          change (ChatGPT.getLastMessages 2 s0) with (ChatGPT.getLastMessages 2 st)
      end.
      rewrite Hms.
      unfold ChatGPT.set_inflight, ChatGPT.emit, ChatGPT.set_isProcessingMem0.
      cbn. rewrite Hin, Hg, <- !app_assoc. reflexivity. }
    rewrite H1.
    cbn [ChatGPT.step ChatGPT.inflight ChatGPT.set_inflight nth_error remove_nth].
    rewrite chatgpt_resume_search_adds by exact Hok.
    cbn [ChatGPT.trace ChatGPT.set_inflight ChatGPT.emit
         ChatGPT.set_isProcessingMem0 ChatGPT.c_messages c].
    rewrite !filter_app. cbn [filter isAddCall app].
    now rewrite !app_nil_r.
  - apply getLastMessages_last_turns.
  - intros Hin Hta Hf Hv Hcred Hen Hd. cbn zeta.
    cbn [TextSite.run fold_left].
    assert (H1 : TextSite.step s ts (TextSite.KeyDownEnter false false)
                 = TextSite.set_inflight
                     [TextSite.AwaitStorage (trim value) (trim value) true]
                     (TextSite.emit
                        (match s with
                         | TextSite.Perplexity => [ConsoleLog]
                         | TextSite.Grok => []
                         end ++ [PreventDefault; StopPropagation; ConsoleLog]) ts)).
    { cbn [TextSite.step]. unfold TextSite.handleEnterKey. cbn [negb andb].
      destruct s; cbn [TextSite.textarea TextSite.focused TextSite.emit];
        rewrite Hta, Hf; unfold TextSite.handleMem0Processing;
        destruct (trim value) as [|c0 r0]; try discriminate Hv;
        unfold TextSite.set_inflight, TextSite.emit; cbn;
        rewrite Hin, <- ?app_assoc; reflexivity. }
    rewrite H1.
    assert (H2 : TextSite.step s
                   (TextSite.set_inflight
                      [TextSite.AwaitStorage (trim value) (trim value) true]
                      (TextSite.emit
                         (match s with
                          | TextSite.Perplexity => [ConsoleLog]
                          | TextSite.Grok => []
                          end ++ [PreventDefault; StopPropagation; ConsoleLog]) ts))
                   (TextSite.StorageGot 0)
                 = TextSite.emit [SearchCall (trim value) 10]
                     (TextSite.set_inflight
                        [TextSite.AwaitSearch (trim value) (trim value) true
                           [{| msg_role := user; msg_content := trim value |}]]
                        (TextSite.emit
                           (match s with
                            | TextSite.Perplexity => [ConsoleLog]
                            | TextSite.Grok => []
                            end ++ [PreventDefault; StopPropagation; ConsoleLog])
                           ts))).
    { cbn [TextSite.step TextSite.inflight TextSite.set_inflight nth_error].
      unfold TextSite.resume_storage.
      cbn [TextSite.storage TextSite.set_inflight TextSite.emit].
      assert (Hc : negb (truthy (TextSite.apiKey (TextSite.storage ts)))
                   && negb (truthy (TextSite.access_token (TextSite.storage ts)))
                   = false)
        by (rewrite <- negb_orb, Hcred; reflexivity).
      rewrite Hc.
      assert (He : negb match TextSite.memory_enabled (TextSite.storage ts) with
                        | Some false => false
                        | _ => true
                        end = false).
      { destruct (TextSite.memory_enabled (TextSite.storage ts)) as [[|]|];
          try reflexivity. now contradiction Hen. }
      rewrite He. reflexivity. }
    rewrite H2.
    cbn [TextSite.step TextSite.inflight TextSite.set_inflight TextSite.emit
         nth_error remove_nth].
    rewrite textsite_resume_search_adds; [|exact Hok|intros _; exact Hd].
    cbn [TextSite.trace TextSite.set_inflight TextSite.emit].
    rewrite <- !app_assoc, !filter_app.
    destruct s; cbn [filter isAddCall app]; now rewrite ?app_nil_r.
  - cbn zeta. cbn [ChatGPT.step].
    destruct (nth_error (ChatGPT.adds st) i) as [msgs|]; [|now repeat split].
    destruct (resume_add_guard msgs r
                (ChatGPT.set_adds (remove_nth i (ChatGPT.adds st)) st))
      as (H1 & H2 & H3 & H4).
    now repeat split.
  - cbn zeta. cbn [TextSite.step].
    destruct (TextSite.adds ts); [now repeat split|].
    destruct r as [|st0 ops]; [now repeat split|].
    destruct (negb (ok st0)); now repeat split.
Qed.

Lemma add_call_context_witness :
  let data := Results [{| memory := lit "Loves FastAPI" |}] in
  let turns := [{| msg_role := user; msg_content := lit "Which language?" |};
                {| msg_role := assistant; msg_content := lit "Python." |}] in
  let new := {| msg_role := user; msg_content := lit "I love Python" |} in
  ok 200 = true /\
  filter isAddCall
    (ChatGPT.trace
       (ChatGPT.run plain_render (chatgpt_conversation (lit "I love Python"))
          [ChatGPT.KeyDownEnter false;
           ChatGPT.SearchSettled 0 (HttpResponse 200 (Some data))]))
  = [AddCall (turns ++ [new]) true] /\
  filter isAddCall
    (TextSite.trace
       (TextSite.run TextSite.Perplexity
          (text_page (lit "I love Python") true with_key)
          [TextSite.KeyDownEnter false false; TextSite.StorageGot 0;
           TextSite.SearchSettled 0 (HttpResponse 200 (Some data))]))
  = [AddCall [new] true] /\
  ChatGPT.getLastMessages 2 (chatgpt_conversation (lit "I love Python"))
  = Some turns.
Proof.
  cbv zeta.
  destruct (add_call_context plain_render
              (chatgpt_conversation (lit "I love Python"))
              (lit "I love Python")
              [{| msg_role := user; msg_content := lit "Which language?" |};
               {| msg_role := assistant; msg_content := lit "Python." |}]
              [ChatGPT.UserTurn (Some (lit "Which language?"));
               ChatGPT.AssistantTurn (Some (lit "Python."))]
              TextSite.Perplexity
              (text_page (lit "I love Python") true with_key)
              (lit "I love Python") 200
              (Results [{| memory := lit "Loves FastAPI" |}])
              0 (AddResponse 200 [ADD]) eq_refl)
    as (Hc & Hl & Ht & _).
  split; [reflexivity|]. split; [|split].
  - rewrite Hc; [reflexivity | apply ChatGPT.reachable_init | reflexivity
                 | reflexivity | reflexivity | reflexivity].
  - rewrite Ht; [reflexivity | reflexivity | reflexivity | reflexivity
                 | reflexivity | reflexivity | discriminate | discriminate].
  - rewrite Hl; [reflexivity | reflexivity |].
    repeat constructor.
Defined.

(** The Perplexity and Grok scripts send the new message alone: whatever
    the conversation in the page, the add call has one message, which is
    not the last two turns followed by the new message. *)
Lemma add_call_context_counterexample :
  let data := Results [{| memory := lit "Loves FastAPI" |}] in
  let new := {| msg_role := user; msg_content := lit "I love Python" |} in
  let prior := [ChatGPT.UserTurn (Some (lit "Which language?"));
                ChatGPT.AssistantTurn (Some (lit "Python."))] in
  let sent (s : TextSite.site) :=
    filter isAddCall
      (TextSite.trace
         (TextSite.run s (text_page (lit "I love Python") true with_key)
            [TextSite.KeyDownEnter false false; TextSite.StorageGot 0;
             TextSite.SearchSettled 0 (HttpResponse 200 (Some data))])) in
  sent TextSite.Perplexity = [AddCall [new] true] /\
  sent TextSite.Grok = [AddCall [new] true] /\
  [new] <> last_turns 2 prior ++ [new].
Proof.
  cbv zeta. split; [reflexivity|]. split; [reflexivity|].
  vm_compute. discriminate.
Qed.

(** ** C4: one block at most *)

Lemma startsWith_sep (p x b : jsstring) (c : N) :
  ~ In c p -> startsWith p (x ++ c :: b) = startsWith p x.
Proof.
  revert x; induction p as [|h p IH]; intros x Hc; [now destruct x|].
  destruct x as [|y x]; cbn [app startsWith].
  - destruct (N.eqb_spec h c) as [->|]; [|reflexivity].
    exfalso. apply Hc. now left.
  - rewrite IH; [reflexivity|]. intros H. apply Hc. now right.
Qed.

Lemma occurrences_nil (p : jsstring) : p <> [] -> occurrences p [] = 0.
Proof. destruct p; [intros H; now contradiction H | reflexivity]. Qed.

(** A code unit that [p] does not contain separates the occurrences of
    [p] before it from those after it. *)
Lemma occurrences_sep (p a b : jsstring) (c : N) :
  ~ In c p -> p <> [] ->
  occurrences p (a ++ c :: b) = occurrences p a + occurrences p b.
Proof.
  intros Hc Hp. induction a as [|d a IH].
  - cbn [app]. rewrite occurrences_nil by exact Hp.
    cbn [occurrences]. pose proof (startsWith_sep p [] b c Hc) as Hs.
    cbn [app] in Hs. rewrite Hs.
    destruct p; [now contradiction Hp | reflexivity].
  - cbn [app occurrences].
    change (d :: a ++ c :: b) with ((d :: a) ++ c :: b).
    rewrite startsWith_sep by exact Hc. rewrite IH. lia.
Qed.

Lemma occurrences_zero_iff (p s : jsstring) :
  occurrences p s = 0 <-> indexOf p s = None.
Proof.
  induction s as [|c s IH]; cbn [occurrences indexOf].
  - destruct (startsWith p []); split; (discriminate || reflexivity).
  - destruct (startsWith p (c :: s)); [split; discriminate|].
    cbn [Nat.add]. rewrite IH. destruct (indexOf p s); cbn;
      split; (discriminate || reflexivity).
Qed.

Lemma occurrences_free (s : jsstring) :
  ~ infix memoryPrefix s -> occurrences memoryPrefix s = 0.
Proof. intros H. now apply occurrences_zero_iff, indexOf_None_iff. Qed.




Lemma marker_no_nl : ~ In 10%N memoryPrefix.
Proof. apply not_In_existsb. reflexivity. Qed.

Lemma memoryPrefix_nonempty : memoryPrefix <> [].
Proof. rewrite memoryPrefix_cons. discriminate. Qed.

Lemma closed_free (s : jsstring) :
  indexOf memoryPrefix s = None -> ~ infix memoryPrefix s.
Proof. apply indexOf_None_iff. Qed.





(** What Enter does on an idle ChatGPT page with a message in its input:
    the flag is set, the search leaves, one activation is awaited. *)
Lemma chatgpt_enter_state (render : jsstring -> jsstring) (st : ChatGPT.state)
      (m : jsstring) (ms : list ConversationMessage) :
  ChatGPT.inflight st = [] ->
  ChatGPT.isProcessingMem0 st = false ->
  ChatGPT.getInputValue st = Some m -> truthy (Some m) = true ->
  ChatGPT.getLastMessages 2 st = Some ms ->
  ChatGPT.step render st (ChatGPT.KeyDownEnter false)
  = ChatGPT.set_inflight
      [{| ChatGPT.c_trigger := ChatGPT.EnterKey;
          ChatGPT.c_inputElement := true;
          ChatGPT.c_message := ChatGPT.strip_message m;
          ChatGPT.c_messages :=
            ms ++ [{| msg_role := user; msg_content := ChatGPT.strip_message m |}] |}]
      (ChatGPT.emit
         [PreventDefault; StopPropagation; ButtonLoading true;
          ConsoleLog; SearchCall (ChatGPT.strip_message m) 20]
         (ChatGPT.set_isProcessingMem0 true st)).
Proof.
  intros Hg Hflag Hgiv Htr Hms. cbn [ChatGPT.step].
  destruct (ChatGPT.input st) as [el|] eqn:Hin;
    [|unfold ChatGPT.getInputValue in Hgiv; rewrite Hin in Hgiv; discriminate].
  cbn [negb ChatGPT.getMemoryEnabledState].
  unfold ChatGPT.handleMem0Click. cbn [ChatGPT.getMemoryEnabledState negb].
  change (ChatGPT.getInputValue
            (ChatGPT.emit [ButtonLoading true]
               (ChatGPT.emit [PreventDefault; StopPropagation] st)))
    with (ChatGPT.getInputValue st).
  rewrite Hgiv, Htr. cbn [negb ChatGPT.isProcessingMem0 ChatGPT.emit].
  rewrite Hflag.
  match goal with
  | |- context [ChatGPT.getLastMessages 2 ?s0] =>
      change (ChatGPT.getLastMessages 2 s0) with (ChatGPT.getLastMessages 2 st)
  end.
  rewrite Hms.
  unfold ChatGPT.set_inflight, ChatGPT.emit, ChatGPT.set_isProcessingMem0.
  cbn. rewrite Hin, Hg, <- !app_assoc. reflexivity.
Qed.





(** ** C6: an empty search result *)





(** ** C5 at the level of the handlers *)



(** * Further properties of the scripts *)

(** ** The ChatGPT controller *)

(** X1.  The flag [isProcessingMem0] is set exactly while one activation of
    [handleMem0Click] waits for its search, and whatever the search settles
    with (memories, an HTTP error, a rejected request, a body that is not
    JSON), the [finally] block clears it and nothing is awaited any more:
    the controller cannot stay locked. *)
Theorem chatgpt_flag_lifecycle (render : jsstring -> jsstring) (st : ChatGPT.state) :
  ChatGPT.reachable render st ->
  (ChatGPT.isProcessingMem0 st = true <-> length (ChatGPT.inflight st) = 1) /\
  (ChatGPT.isProcessingMem0 st = false <-> ChatGPT.inflight st = []) /\
  (forall i c r, nth_error (ChatGPT.inflight st) i = Some c ->
     let st' := ChatGPT.step render st (ChatGPT.SearchSettled i r) in
     ChatGPT.isProcessingMem0 st' = false /\ ChatGPT.inflight st' = []).
Proof.
  intros Hreach. destruct (reachable_guarded render st Hreach) as [Hflag _].
  split; [|split].
  - destruct (ChatGPT.isProcessingMem0 st); [tauto|].
    rewrite Hflag. split; discriminate.
  - destruct (ChatGPT.isProcessingMem0 st); [|tauto].
    split; [discriminate|]. intros H. rewrite H in Hflag. discriminate.
  - intros i c r Hc. cbn zeta. cbn [ChatGPT.step]. rewrite Hc.
    destruct (resume_search_idle render c r
                (ChatGPT.set_inflight (remove_nth i (ChatGPT.inflight st)) st))
      as [Hf Hi].
    split; [exact Hf|]. rewrite Hi. cbn [ChatGPT.inflight ChatGPT.set_inflight].
    destruct (ChatGPT.isProcessingMem0 st).
    + now apply (remove_nth_singleton _ _ c).
    + rewrite Hflag in Hc. destruct i; discriminate.
Qed.

Lemma chatgpt_flag_lifecycle_witness :
  let st := ChatGPT.step plain_render (chatgpt_page (lit "I love Python"))
                         (ChatGPT.KeyDownEnter false) in
  ChatGPT.reachable plain_render st /\
  ChatGPT.isProcessingMem0 st = true /\
  ChatGPT.isProcessingMem0
    (ChatGPT.step plain_render st (ChatGPT.SearchSettled 0 (HttpResponse 200 None)))
  = false.
Proof.
  cbv zeta.
  assert (Hr : ChatGPT.reachable plain_render
                 (ChatGPT.step plain_render (chatgpt_page (lit "I love Python"))
                               (ChatGPT.KeyDownEnter false)))
    by apply ChatGPT.reachable_step, ChatGPT.reachable_init.
  destruct (chatgpt_flag_lifecycle plain_render _ Hr) as (Hone & _ & Hsettle).
  split; [exact Hr|]. split.
  - apply Hone. reflexivity.
  - pose (message := lit "I love Python").
    pose (c := {| ChatGPT.c_trigger := ChatGPT.EnterKey;
                  ChatGPT.c_inputElement := true;
                  ChatGPT.c_message := message;
                  ChatGPT.c_messages :=
                    [{| msg_role := user; msg_content := message |}] |}).
    destruct (Hsettle 0 c (HttpResponse 200 None) eq_refl) as [Hf _]. exact Hf.
Defined.

Lemma getLastMessages_loop_bound (count : nat) (els : list ChatGPT.turnElement)
      (acc ms : list ConversationMessage) :
  ChatGPT.getLastMessages_loop count els acc = Some ms ->
  Forall (fun m => trimmed (msg_content m)) acc ->
  length ms <= Nat.max count (length acc) /\
  Forall (fun m => trimmed (msg_content m)) ms.
Proof.
  revert acc. induction els as [|el els IH]; intros acc; cbn [ChatGPT.getLastMessages_loop].
  - intros [= <-] Hacc. split; [lia | exact Hacc].
  - destruct (count <=? length acc) eqn:Hc.
    + intros [= <-] Hacc. split; [lia | exact Hacc].
    + apply Nat.leb_gt in Hc.
      destruct el as [[t|]|[t|]|]; try discriminate; intros H Hacc.
      * apply IH in H; [|constructor; [apply trimmed_trim | exact Hacc]].
        cbn [length] in H. split; [lia | tauto].
      * apply IH in H; [|constructor; [apply trimmed_trim | exact Hacc]].
        cbn [length] in H. split; [lia | tauto].
      * apply IH in H; [|exact Hacc]. split; [lia | tauto].
Qed.

(** X2.  When [getLastMessages(count)] returns, it returns at most [count]
    messages, each with its text trimmed, and none at all when the page has
    no message container. *)
Theorem getLastMessages_bounded (count : nat) (st : ChatGPT.state)
        (ms : list ConversationMessage) :
  ChatGPT.getLastMessages count st = Some ms ->
  length ms <= count /\
  Forall (fun m => trimmed (msg_content m)) ms /\
  (ChatGPT.messageContainer st = None -> ms = []).
Proof.
  unfold ChatGPT.getLastMessages. intros H.
  destruct (ChatGPT.messageContainer st) as [children|].
  - apply getLastMessages_loop_bound in H; [|constructor].
    cbn [length] in H. rewrite Nat.max_0_r in H.
    split; [tauto|]. split; [tauto | discriminate].
  - injection H as <-. split; [simpl; lia|]. split; [constructor | reflexivity].
Qed.

Lemma getLastMessages_bounded_witness :
  let st := ChatGPT.init None true
              (Some [ChatGPT.UserTurn (Some (lit " first "));
                     ChatGPT.OtherElement;
                     ChatGPT.AssistantTurn (Some (lit "second"));
                     ChatGPT.UserTurn (Some (lit "third  "))]) in
  let ms := [{| msg_role := assistant; msg_content := lit "second" |};
             {| msg_role := user; msg_content := lit "third" |}] in
  ChatGPT.getLastMessages 2 st = Some ms /\ length ms <= 2.
Proof.
  cbv zeta. split; [reflexivity|].
  eapply (getLastMessages_bounded 2
            (ChatGPT.init None true
               (Some [ChatGPT.UserTurn (Some (lit " first "));
                      ChatGPT.OtherElement;
                      ChatGPT.AssistantTurn (Some (lit "second"));
                      ChatGPT.UserTurn (Some (lit "third  "))]))).
  reflexivity.
Defined.

(** X3.  When the conversation in the page has a turn whose text node is
    missing among those [getLastMessages(2)] visits, the [TypeError] is
    caught inside [handleMem0Click]: Enter has been suppressed, the error is
    logged twice, the flag is cleared again, and no search call, no write to
    the input and no release follow; the message stays unsent in the
    input. *)
Theorem chatgpt_unreadable_turn_aborts
        (render : jsstring -> jsstring) (st : ChatGPT.state) (m : jsstring) :
  ChatGPT.isProcessingMem0 st = false ->
  ChatGPT.getInputValue st = Some m -> truthy (Some m) = true ->
  ChatGPT.getLastMessages 2 st = None ->
  let st' := ChatGPT.step render st (ChatGPT.KeyDownEnter false) in
  ChatGPT.trace st'
  = ChatGPT.trace st
      ++ [PreventDefault; StopPropagation; ButtonLoading true; ConsoleLog;
          ConsoleError "Mem0 Local Error:"; ButtonLoading false;
          ConsoleError "Error in Mem0 processing:"] /\
  ChatGPT.isProcessingMem0 st' = false /\
  ChatGPT.inflight st' = ChatGPT.inflight st /\
  ChatGPT.input st' = ChatGPT.input st /\
  ChatGPT.timers st' = ChatGPT.timers st.
Proof.
  intros Hflag Hgiv Htr Hms. cbn zeta. cbn [ChatGPT.step].
  destruct (ChatGPT.input st) as [el|] eqn:Hin;
    [|unfold ChatGPT.getInputValue in Hgiv; rewrite Hin in Hgiv; discriminate].
  cbn [negb ChatGPT.getMemoryEnabledState].
  unfold ChatGPT.handleMem0Click. cbn [ChatGPT.getMemoryEnabledState negb].
  change (ChatGPT.getInputValue
            (ChatGPT.emit [ButtonLoading true]
               (ChatGPT.emit [PreventDefault; StopPropagation] st)))
    with (ChatGPT.getInputValue st).
  rewrite Hgiv, Htr. cbn [negb ChatGPT.isProcessingMem0 ChatGPT.emit].
  rewrite Hflag.
  match goal with
  | |- context [ChatGPT.getLastMessages 2 ?s0] =>
      change (ChatGPT.getLastMessages 2 s0) with (ChatGPT.getLastMessages 2 st)
  end.
  rewrite Hms. cbn. rewrite <- !app_assoc, Hin. now repeat split.
Qed.

Lemma chatgpt_unreadable_turn_aborts_witness :
  let st := ChatGPT.init (Some (ChatGPT.Div (lit "I love Python") (lit "I love Python")))
                         true
                         (Some [ChatGPT.AssistantTurn (Some (lit "Hello"));
                                ChatGPT.UserTurn None]) in
  let st' := ChatGPT.step plain_render st (ChatGPT.KeyDownEnter false) in
  ChatGPT.getLastMessages 2 st = None /\
  count isSearchCall (ChatGPT.trace st') = 0 /\
  count isRelease (ChatGPT.trace st') = 0 /\
  ChatGPT.isProcessingMem0 st' = false.
Proof.
  cbv zeta. split; [reflexivity|].
  destruct (chatgpt_unreadable_turn_aborts plain_render
              (ChatGPT.init (Some (ChatGPT.Div (lit "I love Python")
                                               (lit "I love Python")))
                            true
                            (Some [ChatGPT.AssistantTurn (Some (lit "Hello"));
                                   ChatGPT.UserTurn None]))
              (lit "I love Python") eq_refl eq_refl eq_refl eq_refl)
    as (Htr & Hf & _).
  rewrite Htr. split; [reflexivity|]. split; [reflexivity | exact Hf].
Defined.

Lemma ws_no_marker (m : jsstring) :
  forallb isWhiteSpace m = true -> ~ infix memoryPrefix m.
Proof.
  intros Hw (a & b & ->). rewrite forallb_forall in Hw.
  assert (H : isWhiteSpace 72 = true).
  { apply Hw. apply in_or_app. right. apply in_or_app. left.
    rewrite memoryPrefix_cons. now left. }
  discriminate H.
Qed.

Lemma trim_ws (m : jsstring) : forallb isWhiteSpace m = true -> trim m = [].
Proof.
  intros Hw. unfold trim. rewrite <- (app_nil_r m).
  now rewrite trimStart_ws_app by exact Hw.
Qed.

Lemma strip_message_ws (m : jsstring) :
  forallb isWhiteSpace m = true -> ChatGPT.strip_message m = [].
Proof.
  intros Hw. unfold ChatGPT.strip_message.
  rewrite replace_memInfo_id by now apply ws_no_marker.
  now rewrite trim_ws.
Qed.

(** X4.  [handleMem0Click] tests the message for emptiness before it strips
    and trims it.  An input that holds white space only is therefore not
    treated as empty: on an idle page Enter starts a cycle and the search
    call leaves with the empty string as its query. *)
Theorem chatgpt_blank_input_searches
        (render : jsstring -> jsstring) (st : ChatGPT.state)
        (m : jsstring) (ms : list ConversationMessage) :
  ChatGPT.reachable render st ->
  ChatGPT.isProcessingMem0 st = false ->
  ChatGPT.getInputValue st = Some m -> m <> [] ->
  forallb isWhiteSpace m = true ->
  ChatGPT.getLastMessages 2 st = Some ms ->
  let st' := ChatGPT.step render st (ChatGPT.KeyDownEnter false) in
  ChatGPT.trace st'
  = ChatGPT.trace st
      ++ [PreventDefault; StopPropagation; ButtonLoading true; ConsoleLog;
          SearchCall [] 20] /\
  ChatGPT.isProcessingMem0 st' = true /\
  length (ChatGPT.inflight st') = 1.
Proof.
  intros Hreach Hflag Hgiv Hne Hw Hms. cbn zeta.
  destruct (reachable_guarded render st Hreach) as [Hg _]. rewrite Hflag in Hg.
  assert (Htr : truthy (Some m) = true) by (destruct m; [contradiction | reflexivity]).
  rewrite (chatgpt_enter_state render st m ms Hg Hflag Hgiv Htr Hms).
  rewrite (strip_message_ws m Hw). now repeat split.
Qed.

Lemma chatgpt_blank_input_searches_witness :
  let st := chatgpt_page (lit "   ") in
  search_queries
    (ChatGPT.trace (ChatGPT.step plain_render st (ChatGPT.KeyDownEnter false)))
  = [[]].
Proof.
  cbv zeta.
  assert (Hne : lit "   " <> []) by discriminate.
  destruct (chatgpt_blank_input_searches plain_render (chatgpt_page (lit "   "))
              (lit "   ") []
              (ChatGPT.reachable_init plain_render _ _ _)
              eq_refl eq_refl Hne eq_refl eq_refl)
    as (Htr & _).
  rewrite Htr. reflexivity.
Defined.

(** ** Keys and typing that the scripts let pass *)

Lemma textsite_typing_step (s : TextSite.site) (st : TextSite.state)
      (e : TextSite.event) :
  typing e = true ->
  TextSite.trace (TextSite.step s st e) = TextSite.trace st /\
  TextSite.inflight (TextSite.step s st e) = TextSite.inflight st /\
  TextSite.timers (TextSite.step s st e) = TextSite.timers st /\
  TextSite.adds (TextSite.step s st e) = TextSite.adds st.
Proof.
  destruct e as [shiftKey isComposing| |v| | | | |ta f sb it]; try discriminate;
    intros Ht; cbn [TextSite.step].
  - cbn [typing] in Ht. unfold TextSite.handleEnterKey.
    assert (Hc : negb shiftKey && negb isComposing = false)
      by (destruct shiftKey, isComposing; (reflexivity || discriminate)).
    rewrite Hc. unfold TextSite.textarea_keydown.
    destruct (TextSite.textarea st); [|now repeat split].
    destruct (TextSite.focused st && negb shiftKey); now repeat split.
  - destruct (TextSite.textarea st); [|now repeat split].
    destruct (TextSite.focused st); now repeat split.
  - destruct (TextSite.textarea st); now repeat split.
  - now repeat split.
Qed.

Lemma chatgpt_passive_step (render : jsstring -> jsstring) (st : ChatGPT.state)
      (e : ChatGPT.event) :
  passive e = true ->
  ChatGPT.trace (ChatGPT.step render st e) = ChatGPT.trace st /\
  ChatGPT.inflight (ChatGPT.step render st e) = ChatGPT.inflight st /\
  ChatGPT.isProcessingMem0 (ChatGPT.step render st e) = ChatGPT.isProcessingMem0 st /\
  ChatGPT.timers (ChatGPT.step render st e) = ChatGPT.timers st.
Proof.
  destruct e as [shiftKey| | | | | |i sb mc]; try discriminate;
    intros Hp; cbn [ChatGPT.step].
  - cbn [passive] in Hp. subst shiftKey.
    destruct (ChatGPT.input st); now repeat split.
  - now repeat split.
Qed.

(** X5.  Keys the scripts do not intercept have no effect outside the page:
    Enter with Shift, Enter during IME composition (text sites), key
    releases, typing and re-renders of the page, in any number and order,
    cause no call to the memory service, no [preventDefault], no write and
    no release, and start nothing that would be awaited. *)
Theorem typing_has_no_effect
        (render : jsstring -> jsstring) (st : ChatGPT.state)
        (es : list ChatGPT.event)
        (s : TextSite.site) (ts : TextSite.state) (tes : list TextSite.event) :
  (forallb passive es = true ->
   ChatGPT.trace (ChatGPT.run render st es) = ChatGPT.trace st /\
   ChatGPT.inflight (ChatGPT.run render st es) = ChatGPT.inflight st /\
   ChatGPT.isProcessingMem0 (ChatGPT.run render st es)
   = ChatGPT.isProcessingMem0 st /\
   ChatGPT.timers (ChatGPT.run render st es) = ChatGPT.timers st)
  /\
  (forallb typing tes = true ->
   TextSite.trace (TextSite.run s ts tes) = TextSite.trace ts /\
   TextSite.inflight (TextSite.run s ts tes) = TextSite.inflight ts /\
   TextSite.timers (TextSite.run s ts tes) = TextSite.timers ts /\
   TextSite.adds (TextSite.run s ts tes) = TextSite.adds ts).
Proof.
  split.
  - revert st. induction es as [|e es IH]; intros st Hall; [now repeat split|].
    cbn [forallb] in Hall. apply andb_true_iff in Hall as [He Hes].
    cbn [ChatGPT.run fold_left].
    destruct (chatgpt_passive_step render st e He) as (H1 & H2 & H3 & H4).
    destruct (IH (ChatGPT.step render st e) Hes) as (I1 & I2 & I3 & I4).
    unfold ChatGPT.run in *. rewrite I1, I2, I3, I4. now repeat split.
  - revert ts. induction tes as [|e tes IH]; intros ts Hall; [now repeat split|].
    cbn [forallb] in Hall. apply andb_true_iff in Hall as [He Hes].
    cbn [TextSite.run fold_left].
    destruct (textsite_typing_step s ts e He) as (H1 & H2 & H3 & H4).
    destruct (IH (TextSite.step s ts e) Hes) as (I1 & I2 & I3 & I4).
    unfold TextSite.run in *. rewrite I1, I2, I3, I4. now repeat split.
Qed.

Lemma typing_has_no_effect_witness :
  let es := [ChatGPT.KeyDownEnter true;
             ChatGPT.HostMutation None false None;
             ChatGPT.KeyDownEnter true] in
  let tes := [TextSite.UserInput (lit "I love");
              TextSite.KeyDownEnter true false;
              TextSite.UserInput (lit "I love Python");
              TextSite.KeyDownEnter false true; TextSite.KeyUpEnter] in
  forallb passive es = true /\ forallb typing tes = true /\
  ChatGPT.trace (ChatGPT.run plain_render (chatgpt_page (lit "I love")) es) = [] /\
  TextSite.trace (TextSite.run TextSite.Perplexity (text_page [] true with_key) tes)
  = [].
Proof.
  cbv zeta.
  destruct (typing_has_no_effect plain_render (chatgpt_page (lit "I love"))
              [ChatGPT.KeyDownEnter true;
               ChatGPT.HostMutation None false None;
               ChatGPT.KeyDownEnter true]
              TextSite.Perplexity (text_page [] true with_key)
              [TextSite.UserInput (lit "I love");
               TextSite.KeyDownEnter true false;
               TextSite.UserInput (lit "I love Python");
               TextSite.KeyDownEnter false true; TextSite.KeyUpEnter])
    as [Hc Ht].
  split; [reflexivity|]. split; [reflexivity|].
  destruct (Hc eq_refl) as (Hc1 & _). destruct (Ht eq_refl) as (Ht1 & _).
  split; [exact Hc1 | exact Ht1].
Defined.

(** ** The text sites: storage, response bodies, typing during the search *)

(** X6.  With credentials in the storage and [memory_enabled] set to
    [false], the Perplexity and Grok scripts make no call to the memory
    service and do not touch the textarea: the suppressed Enter is released
    by a click scheduled with delay 0, and when that timer fires the send
    button is clicked if the page has one, and an error is logged if not. *)
Theorem textsite_memory_disabled_releases
        (s : TextSite.site) (st : TextSite.state) (value : jsstring) :
  TextSite.textarea st = Some value ->
  TextSite.focused st = true ->
  truthy (Some (trim value)) = true ->
  truthy (TextSite.apiKey (TextSite.storage st))
  || truthy (TextSite.access_token (TextSite.storage st)) = true ->
  TextSite.memory_enabled (TextSite.storage st) = Some false ->
  let st1 := TextSite.step s st (TextSite.KeyDownEnter false false) in
  let st2 := TextSite.step s st1 (TextSite.StorageGot (length (TextSite.inflight st))) in
  let st3 := TextSite.step s st2 TextSite.TimerFired in
  TextSite.trace st2
  = TextSite.trace st
      ++ match s with TextSite.Perplexity => [ConsoleLog] | TextSite.Grok => [] end
      ++ [PreventDefault; StopPropagation; ConsoleLog; ConsoleLog; SetTimeoutClick 0] /\
  TextSite.inflight st2 = TextSite.inflight st /\
  TextSite.textarea st2 = Some value /\
  TextSite.timers st2 = S (TextSite.timers st) /\
  TextSite.trace st3
  = TextSite.trace st2
      ++ [if TextSite.sendButton st then ClickSend
          else ConsoleError "Send button not found"] /\
  TextSite.timers st3 = TextSite.timers st.
Proof.
  intros Hta Hf Hv Hcred Hen. cbn zeta.
  assert (H1 : TextSite.step s st (TextSite.KeyDownEnter false false)
               = TextSite.set_inflight
                   (TextSite.inflight st
                      ++ [TextSite.AwaitStorage (trim value) (trim value) true])
                   (TextSite.emit
                      (match s with
                       | TextSite.Perplexity => [ConsoleLog]
                       | TextSite.Grok => []
                       end ++ [PreventDefault; StopPropagation; ConsoleLog]) st)).
  { cbn [TextSite.step]. unfold TextSite.handleEnterKey. cbn [negb andb].
    destruct s; cbn [TextSite.textarea TextSite.focused TextSite.emit];
      rewrite Hta, Hf; unfold TextSite.handleMem0Processing;
      destruct (trim value) as [|c r]; try discriminate Hv;
      unfold TextSite.set_inflight, TextSite.emit; cbn;
      rewrite <- ?app_assoc; reflexivity. }
  rewrite H1. cbn [TextSite.step TextSite.inflight TextSite.set_inflight].
  rewrite nth_error_length_app.
  unfold TextSite.resume_storage.
  cbn [TextSite.storage TextSite.set_inflight TextSite.emit].
  assert (Hc : negb (truthy (TextSite.apiKey (TextSite.storage st)))
               && negb (truthy (TextSite.access_token (TextSite.storage st)))
               = false)
    by (rewrite <- negb_orb, Hcred; reflexivity).
  rewrite Hc, Hen. cbn [negb].
  unfold TextSite.clickSendButtonWithDelay.
  cbn. rewrite remove_nth_length_app, Hta.
  destruct (TextSite.sendButton st); destruct s; cbn; rewrite <- ?app_assoc;
    now repeat split.
Qed.

Lemma textsite_memory_disabled_releases_witness :
  let disabled := {| TextSite.apiKey := Some (lit "m0-key");
                     TextSite.userId := None;
                     TextSite.access_token := None;
                     TextSite.memory_enabled := Some false |} in
  TextSite.trace
    (TextSite.run TextSite.Grok (text_page (lit "I love Python") true disabled)
       [TextSite.KeyDownEnter false false; TextSite.StorageGot 0;
        TextSite.TimerFired])
  = [PreventDefault; StopPropagation; ConsoleLog; ConsoleLog; SetTimeoutClick 0;
     ClickSend].
Proof.
  cbv zeta.
  destruct (textsite_memory_disabled_releases TextSite.Grok
              (text_page (lit "I love Python") true
                 {| TextSite.apiKey := Some (lit "m0-key");
                    TextSite.userId := None;
                    TextSite.access_token := None;
                    TextSite.memory_enabled := Some false |})
              (lit "I love Python") eq_refl eq_refl eq_refl eq_refl eq_refl)
    as (H2 & _ & _ & _ & H3 & _).
  cbn [TextSite.run fold_left].
  change (length (TextSite.inflight
                    (text_page (lit "I love Python") true
                       {| TextSite.apiKey := Some (lit "m0-key");
                          TextSite.userId := None;
                          TextSite.access_token := None;
                          TextSite.memory_enabled := Some false |})))
    with 0 in H2, H3.
  rewrite H3, H2. reflexivity.
Defined.




(** X8.  What the Perplexity and Grok scripts write when the memories
    arrive is built from the text captured at Enter, not from what the
    textarea holds at that moment: whatever was typed into the textarea
    while the search was pending is replaced by the captured message and
    the block, and [lastInputValue] is set to the same value. *)
Theorem textsite_response_overwrites_textarea
        (s : TextSite.site) (ts : TextSite.state)
        (capturedText message typed : jsstring) (clickSendButton : bool)
        (messages : list ConversationMessage)
        (i : nat) (status : N) (data : responseData) (memories : list jsstring) :
  nth_error (TextSite.inflight ts) i
  = Some (TextSite.AwaitSearch capturedText message clickSendButton messages) ->
  TextSite.textarea ts = Some typed ->
  ok status = true ->
  option_map (map memory) (TextSite.memoriesArray data) = Some memories ->
  memories <> [] ->
  let ts' := TextSite.step s ts
               (TextSite.SearchSettled i (HttpResponse status (Some data))) in
  let written := TextSite.compose
                   (match s with
                    | TextSite.Perplexity => message
                    | TextSite.Grok => capturedText
                    end) memories in
  TextSite.textarea ts' = Some written /\
  TextSite.lastInputValue ts' = written /\
  filter isInputWrite (TextSite.trace ts')
  = filter isInputWrite (TextSite.trace ts) ++ [InputWritten written].
Proof.
  intros Hc Hta Hok Hd Hne. cbn zeta. cbn [TextSite.step]. rewrite Hc.
  unfold TextSite.resume_search. rewrite Hok. cbn [negb].
  cbn [TextSite.textarea TextSite.set_inflight]. rewrite Hta.
  destruct (TextSite.memoriesArray data) as [rs|]; [|discriminate Hd].
  cbn [option_map] in Hd. injection Hd as Hd. rewrite Hd.
  destruct memories as [|mem mems]; [now contradiction Hne|].
  unfold TextSite.setInputValue, TextSite.clickSendButtonWithDelay.
  destruct s, clickSendButton;
    cbn [TextSite.textarea TextSite.set_lastInputValue TextSite.set_inflight];
    rewrite ?Hta; cbn; rewrite ?Hta; cbn;
    (split; [reflexivity|]); (split; [reflexivity|]);
    rewrite !filter_app; cbn; now rewrite ?app_nil_r.
Qed.

Lemma textsite_response_overwrites_textarea_witness :
  TextSite.textarea
    (TextSite.run TextSite.Perplexity (text_page (lit "I love Python") true with_key)
       [TextSite.KeyDownEnter false false; TextSite.StorageGot 0;
        TextSite.UserInput (lit "I love Python and Rocq");
        TextSite.SearchSettled 0 (found [lit "Loves FastAPI"])])
  = Some (TextSite.compose (lit "I love Python") [lit "Loves FastAPI"]).
Proof.
  pose (message := lit "I love Python").
  assert (Hne : [lit "Loves FastAPI"] <> []) by discriminate.
  destruct (textsite_response_overwrites_textarea TextSite.Perplexity
              (TextSite.run TextSite.Perplexity
                 (text_page (lit "I love Python") true with_key)
                 [TextSite.KeyDownEnter false false; TextSite.StorageGot 0;
                  TextSite.UserInput (lit "I love Python and Rocq")])
              message message (lit "I love Python and Rocq") true
              [{| msg_role := user; msg_content := message |}]
              0 200 (Results [{| memory := lit "Loves FastAPI" |}])
              [lit "Loves FastAPI"] eq_refl eq_refl eq_refl eq_refl
              Hne)
    as (Hta & _).
  exact Hta.
Defined.

(** X9.  The send button is looked up by the text sites when the timer
    fires.  When the page has none at that moment, the error is logged, no
    click happens, and the textarea still holds what the cycle wrote, so
    the user can send by hand; the add call has been made all the same. *)
Theorem textsite_missing_send_button
        (s : TextSite.site) (ts : TextSite.state)
        (capturedText message old : jsstring)
        (messages : list ConversationMessage)
        (i : nat) (status : N) (data : responseData) (rs : list MemoryRecord) :
  nth_error (TextSite.inflight ts) i
  = Some (TextSite.AwaitSearch capturedText message true messages) ->
  TextSite.textarea ts = Some old ->
  TextSite.sendButton ts = false ->
  ok status = true ->
  TextSite.memoriesArray data = Some rs ->
  let ts1 := TextSite.step s ts
               (TextSite.SearchSettled i (HttpResponse status (Some data))) in
  let ts2 := TextSite.step s ts1 TextSite.TimerFired in
  TextSite.timers ts1 = S (TextSite.timers ts) /\
  filter isAddCall (TextSite.trace ts1)
  = filter isAddCall (TextSite.trace ts) ++ [AddCall messages true] /\
  TextSite.trace ts2 = TextSite.trace ts1 ++ [ConsoleError "Send button not found"] /\
  TextSite.textarea ts2 = TextSite.textarea ts1 /\
  TextSite.timers ts2 = TextSite.timers ts /\
  count isClick (TextSite.trace ts2) = count isClick (TextSite.trace ts).
Proof.
  intros Hc Hta Hsb Hok Hd. cbn zeta. cbn [TextSite.step]. rewrite Hc.
  unfold TextSite.resume_search. rewrite Hok. cbn [negb].
  cbn [TextSite.textarea TextSite.set_inflight]. rewrite Hta, Hd.
  unfold TextSite.setInputValue, TextSite.clickSendButtonWithDelay.
  destruct s, (map memory rs);
    cbn [TextSite.textarea TextSite.set_lastInputValue TextSite.set_inflight];
    rewrite ?Hta; cbn; rewrite ?Hsb; cbn;
    rewrite <- ?app_assoc; unfold count; rewrite ?filter_app; cbn;
    rewrite ?app_nil_r; repeat split; lia.
Qed.

Lemma textsite_missing_send_button_witness :
  let ts := TextSite.run TextSite.Grok (text_page (lit "I love Python") false with_key)
              [TextSite.KeyDownEnter false false; TextSite.StorageGot 0;
               TextSite.SearchSettled 0 (found [lit "Loves FastAPI"]);
               TextSite.TimerFired] in
  TextSite.textarea ts
  = Some (TextSite.compose (lit "I love Python") [lit "Loves FastAPI"]) /\
  count isClick (TextSite.trace ts) = 0.
Proof.
  cbv zeta.
  pose (message := lit "I love Python").
  destruct (textsite_missing_send_button TextSite.Grok
              (TextSite.run TextSite.Grok
                 (text_page (lit "I love Python") false with_key)
                 [TextSite.KeyDownEnter false false; TextSite.StorageGot 0])
              message message message
              [{| msg_role := user; msg_content := message |}]
              0 200 (Results [{| memory := lit "Loves FastAPI" |}])
              [{| memory := lit "Loves FastAPI" |}]
              eq_refl eq_refl eq_refl eq_refl eq_refl)
    as (_ & _ & _ & Hta & _ & Hclick).
  split.
  - eapply eq_trans; [exact Hta | reflexivity].
  - eapply eq_trans; [exact Hclick | reflexivity].
Defined.

(** ** The ChatGPT controller: release and notices *)

Lemma chatgpt_resume_search_notice render c status data st :
  ok status = true -> ChatGPT.c_inputElement c = true ->
  count isNotice
        (ChatGPT.trace
           (ChatGPT.resume_search render c (HttpResponse status (Some data)) st))
  = count isNotice (ChatGPT.trace st)
    + (if ChatGPT.popup_of (ChatGPT.c_trigger c)
       then match map memory (ChatGPT.memoriesArray data) with
            | [] => 1
            | _ :: _ => 0
            end
       else 0).
Proof.
  intros Hok Hel. unfold ChatGPT.resume_search, ChatGPT.write_input.
  rewrite Hok, Hel. cbn [negb ChatGPT.input ChatGPT.emit].
  destruct (map memory (ChatGPT.memoriesArray data));
    destruct (ChatGPT.input st) as [[tc ih|tc v]|] eqn:Hin;
    destruct (ChatGPT.popup_of (ChatGPT.c_trigger c));
    destruct (ChatGPT.clickSendButton_of (ChatGPT.c_trigger c));
    cbn; rewrite ?Hin; cbn; destruct (ChatGPT.sendButton st); solve_counts.
Qed.

(** X10.  When the search of a ChatGPT cycle succeeds, the submission is
    released exactly when the cycle was started by Enter or Ctrl+M and the
    page has a send button at that moment: one click is then scheduled.  A
    cycle started from the memory button never sends, and a missing send
    button is reported on the console without a click.  In every case the
    add call of the cycle is made and the flag is cleared. *)
Theorem chatgpt_release_decision
        (render : jsstring -> jsstring) (st : ChatGPT.state) (c : ChatGPT.cycle)
        (i : nat) (status : N) (data : responseData) :
  ChatGPT.reachable render st ->
  nth_error (ChatGPT.inflight st) i = Some c ->
  ok status = true ->
  let st' := ChatGPT.step render st
               (ChatGPT.SearchSettled i (HttpResponse status (Some data))) in
  let released :=
    match ChatGPT.c_trigger c with
    | ChatGPT.Mem0Button => false
    | _ => ChatGPT.sendButton st
    end in
  count isSchedule (ChatGPT.trace st')
  = count isSchedule (ChatGPT.trace st) + (if released then 1 else 0) /\
  count isClick (ChatGPT.trace st') = count isClick (ChatGPT.trace st) /\
  ChatGPT.timers st' = ChatGPT.timers st + (if released then 1 else 0) /\
  filter isAddCall (ChatGPT.trace st')
  = filter isAddCall (ChatGPT.trace st) ++ [AddCall (ChatGPT.c_messages c) true] /\
  ChatGPT.isProcessingMem0 st' = false.
Proof.
  intros Hreach Hc Hok. cbn zeta. cbn [ChatGPT.step]. rewrite Hc.
  rewrite chatgpt_resume_search_adds by exact Hok.
  destruct (resume_search_idle render c (HttpResponse status (Some data))
              (ChatGPT.set_inflight (remove_nth i (ChatGPT.inflight st)) st))
    as [Hf _].
  rewrite Hf.
  assert (Hcounts :
    count isSchedule
      (ChatGPT.trace
         (ChatGPT.resume_search render c (HttpResponse status (Some data))
            (ChatGPT.set_inflight (remove_nth i (ChatGPT.inflight st)) st)))
    = count isSchedule (ChatGPT.trace st)
      + (if match ChatGPT.c_trigger c with
            | ChatGPT.Mem0Button => false
            | _ => ChatGPT.sendButton st
            end then 1 else 0) /\
    count isClick
      (ChatGPT.trace
         (ChatGPT.resume_search render c (HttpResponse status (Some data))
            (ChatGPT.set_inflight (remove_nth i (ChatGPT.inflight st)) st)))
    = count isClick (ChatGPT.trace st) /\
    ChatGPT.timers
      (ChatGPT.resume_search render c (HttpResponse status (Some data))
         (ChatGPT.set_inflight (remove_nth i (ChatGPT.inflight st)) st))
    = ChatGPT.timers st
      + (if match ChatGPT.c_trigger c with
            | ChatGPT.Mem0Button => false
            | _ => ChatGPT.sendButton st
            end then 1 else 0)).
  { unfold ChatGPT.resume_search, ChatGPT.write_input. rewrite Hok.
    cbn [negb ChatGPT.input ChatGPT.emit ChatGPT.set_inflight].
    destruct (ChatGPT.c_inputElement c);
      destruct (map memory (ChatGPT.memoriesArray data));
      destruct (ChatGPT.input st) as [[tc ih|tc v]|] eqn:Hin;
      destruct (ChatGPT.c_trigger c);
      cbn; rewrite ?Hin; cbn; destruct (ChatGPT.sendButton st); solve_counts. }
  destruct Hcounts as (H1 & H2 & H3). rewrite H1, H2, H3. now repeat split.
Qed.

Lemma chatgpt_release_decision_witness :
  let data := Results [{| memory := lit "Loves FastAPI" |}] in
  let st := ChatGPT.step plain_render (chatgpt_page (lit "I love Python"))
                         ChatGPT.ClickMem0Button in
  let st' := ChatGPT.step plain_render st
               (ChatGPT.SearchSettled 0 (HttpResponse 200 (Some data))) in
  count isSchedule (ChatGPT.trace st') = 0 /\
  count isAddCall (ChatGPT.trace st') = 1 /\
  ChatGPT.timers st' = 0.
Proof.
  cbv zeta.
  pose (message := lit "I love Python").
  pose (c := {| ChatGPT.c_trigger := ChatGPT.Mem0Button;
                ChatGPT.c_inputElement := true;
                ChatGPT.c_message := message;
                ChatGPT.c_messages :=
                  [{| msg_role := user; msg_content := message |}] |}).
  assert (Hreach : ChatGPT.reachable plain_render
                     (ChatGPT.step plain_render (chatgpt_page (lit "I love Python"))
                                   ChatGPT.ClickMem0Button))
    by apply ChatGPT.reachable_step, ChatGPT.reachable_init.
  destruct (chatgpt_release_decision plain_render _ c 0 200
              (Results [{| memory := lit "Loves FastAPI" |}])
              Hreach eq_refl eq_refl)
    as (Hs & _ & Ht & Ha & _).
  split; [rewrite Hs; reflexivity|].
  split; [unfold count; rewrite Ha; reflexivity | rewrite Ht; reflexivity].
Defined.

(** X11.  The ChatGPT script shows a popup only in a cycle started from the
    memory button: when the search fails (the connection error notice) and
    when it succeeds with no memories (the no-memories notice).  Cycles
    started by Enter or Ctrl+M never show one, and a cycle that found
    memories shows none either. *)
Theorem chatgpt_notice_decision
        (render : jsstring -> jsstring) (st : ChatGPT.state) (c : ChatGPT.cycle)
        (i : nat) (r : fetchResult) :
  ChatGPT.reachable render st ->
  nth_error (ChatGPT.inflight st) i = Some c ->
  let st' := ChatGPT.step render st (ChatGPT.SearchSettled i r) in
  let shown :=
    match ChatGPT.c_trigger c, r with
    | ChatGPT.Mem0Button, NetworkError => true
    | ChatGPT.Mem0Button, HttpResponse status None => true
    | ChatGPT.Mem0Button, HttpResponse status (Some data) =>
        negb (ok status)
        || match ChatGPT.memoriesArray data with [] => true | _ :: _ => false end
    | _, _ => false
    end in
  count isNotice (ChatGPT.trace st')
  = count isNotice (ChatGPT.trace st) + (if shown then 1 else 0).
Proof.
  intros Hreach Hc. cbn zeta.
  destruct (reachable_guarded render st Hreach) as [_ Hall].
  rewrite Forall_forall in Hall.
  destruct (Hall c (nth_error_In _ _ Hc)) as [Hel _].
  cbn [ChatGPT.step]. rewrite Hc.
  assert (Hcatch : forall s0,
    count isNotice (ChatGPT.trace (ChatGPT.catch_finally (ChatGPT.c_trigger c) s0))
    = count isNotice (ChatGPT.trace s0)
      + (if ChatGPT.popup_of (ChatGPT.c_trigger c) then 1 else 0)).
  { intros s0. unfold ChatGPT.catch_finally.
    destruct (ChatGPT.c_trigger c); solve_counts. }
  destruct r as [|status [data|]].
  - cbn [ChatGPT.resume_search]. rewrite Hcatch.
    cbn [ChatGPT.trace ChatGPT.set_inflight].
    now destruct (ChatGPT.c_trigger c).
  - destruct (ok status) eqn:Hok.
    + rewrite chatgpt_resume_search_notice by assumption.
      cbn [ChatGPT.trace ChatGPT.set_inflight negb orb].
      destruct (ChatGPT.c_trigger c); cbn [ChatGPT.popup_of]; try reflexivity.
      now destruct (ChatGPT.memoriesArray data).
    + cbn [ChatGPT.resume_search]. rewrite Hok. cbn [negb]. rewrite Hcatch.
      cbn [ChatGPT.trace ChatGPT.set_inflight orb].
      now destruct (ChatGPT.c_trigger c).
  - cbn [ChatGPT.resume_search].
    destruct (negb (ok status)); rewrite Hcatch;
      cbn [ChatGPT.trace ChatGPT.set_inflight];
      now destruct (ChatGPT.c_trigger c).
Qed.

Lemma chatgpt_notice_decision_witness :
  let st := ChatGPT.step plain_render (chatgpt_page (lit "I love Python"))
                         ChatGPT.ClickMem0Button in
  count isNotice
    (ChatGPT.trace (ChatGPT.step plain_render st (ChatGPT.SearchSettled 0 (found []))))
  = 1 /\
  count isNotice
    (ChatGPT.trace
       (ChatGPT.run plain_render (chatgpt_page (lit "I love Python"))
          [ChatGPT.KeyDownEnter false; ChatGPT.SearchSettled 0 NetworkError]))
  = 0.
Proof.
  cbv zeta.
  pose (message := lit "I love Python").
  pose (msgs := [{| msg_role := user; msg_content := message |}]).
  split.
  - assert (Hreach : ChatGPT.reachable plain_render
                       (ChatGPT.step plain_render (chatgpt_page (lit "I love Python"))
                                     ChatGPT.ClickMem0Button))
      by apply ChatGPT.reachable_step, ChatGPT.reachable_init.
    eapply eq_trans;
      [exact (chatgpt_notice_decision plain_render _
                {| ChatGPT.c_trigger := ChatGPT.Mem0Button;
                   ChatGPT.c_inputElement := true;
                   ChatGPT.c_message := message;
                   ChatGPT.c_messages := msgs |} 0 (found []) Hreach eq_refl)
      | reflexivity].
  - assert (Hreach : ChatGPT.reachable plain_render
                       (ChatGPT.step plain_render (chatgpt_page (lit "I love Python"))
                                     (ChatGPT.KeyDownEnter false)))
      by apply ChatGPT.reachable_step, ChatGPT.reachable_init.
    eapply eq_trans;
      [exact (chatgpt_notice_decision plain_render _
                {| ChatGPT.c_trigger := ChatGPT.EnterKey;
                   ChatGPT.c_inputElement := true;
                   ChatGPT.c_message := message;
                   ChatGPT.c_messages := msgs |} 0 NetworkError Hreach eq_refl)
      | reflexivity].
Defined.

(** ** The add call *)




(** ** Bookkeeping over a whole run *)

Lemma remove_nth_length {A : Type} (l : list A) (i : nat) (x : A) :
  nth_error l i = Some x -> length l = S (length (remove_nth i l)).
Proof.
  revert i; induction l as [|y l IH]; intros [|i] H; try discriminate.
  - reflexivity.
  - cbn [remove_nth length]. f_equal. now apply IH.
Qed.

Lemma remove_nth_filter {A : Type} (p : A -> bool) (l : list A) (i : nat) (x : A) :
  nth_error l i = Some x ->
  length (filter p l)
  = (if p x then 1 else 0) + length (filter p (remove_nth i l)).
Proof.
  revert i; induction l as [|y l IH]; intros [|i] H; try discriminate.
  - injection H as ->. cbn [filter remove_nth]. now destruct (p x).
  - cbn [remove_nth filter]. specialize (IH i H).
    destruct (p y); cbn [length]; lia.
Qed.

Lemma replace_nth_length {A : Type} (l : list A) (i : nat) (y : A) :
  length (replace_nth i y l) = length l.
Proof.
  revert i; induction l as [|z l IH]; intros [|i]; cbn [replace_nth length];
    try reflexivity.
  f_equal. apply IH.
Qed.

Lemma replace_nth_filter {A : Type} (p : A -> bool) (l : list A) (i : nat) (x y : A) :
  nth_error l i = Some x ->
  length (filter p (replace_nth i y l)) + (if p x then 1 else 0)
  = length (filter p l) + (if p y then 1 else 0).
Proof.
  revert i; induction l as [|z l IH]; intros [|i] H; try discriminate.
  - injection H as ->. cbn [replace_nth filter].
    destruct (p x), (p y); cbn [length]; lia.
  - cbn [replace_nth filter]. specialize (IH i H).
    destruct (p z); cbn [length]; lia.
Qed.

(** Counting in a trace and in hypotheses about it. *)
Ltac ledger :=
  unfold count in *; cbn; rewrite <- ?app_assoc;
  rewrite ?filter_app, ?length_app; cbn; repeat split; try lia.

Lemma chatgpt_ledger_handleMem0Click tr st :
  let st' := ChatGPT.handleMem0Click tr st in
  count isClick (ChatGPT.trace st') = count isClick (ChatGPT.trace st) /\
  count isSchedule (ChatGPT.trace st') = count isSchedule (ChatGPT.trace st) /\
  count isAddInfer (ChatGPT.trace st') = count isAddInfer (ChatGPT.trace st) /\
  count isAddFallback (ChatGPT.trace st') = count isAddFallback (ChatGPT.trace st) /\
  ChatGPT.timers st' = ChatGPT.timers st /\
  ChatGPT.adds st' = ChatGPT.adds st /\
  count isSearchCall (ChatGPT.trace st') + length (ChatGPT.inflight st)
  = count isSearchCall (ChatGPT.trace st) + length (ChatGPT.inflight st').
Proof.
  cbn zeta. unfold ChatGPT.handleMem0Click.
  cbn [ChatGPT.getMemoryEnabledState negb].
  destruct (truthy (ChatGPT.getInputValue (ChatGPT.emit [ButtonLoading true] st)));
    cbn [negb].
  - destruct (ChatGPT.isProcessingMem0 (ChatGPT.emit [ButtonLoading true] st)).
    + ledger.
    + destruct (ChatGPT.getLastMessages 2 _).
      * ledger.
      * unfold ChatGPT.catch_finally. destruct tr; ledger.
  - destruct tr; ledger.
Qed.

(** X13.  Bookkeeping of the ChatGPT script over any run.  Every click on
    the send button was scheduled before, and a scheduled click fires at
    most once.  The script schedules at most one click and makes at most
    one add call with [infer] per search call it has made, the awaited
    search counted.  It repeats an add call without [infer] at most once
    per add call whose request has settled. *)
Theorem chatgpt_bookkeeping
        (render : jsstring -> jsstring) (st : ChatGPT.state) :
  ChatGPT.reachable render st ->
  count isClick (ChatGPT.trace st) + ChatGPT.timers st
  = count isSchedule (ChatGPT.trace st) /\
  count isSchedule (ChatGPT.trace st) + length (ChatGPT.inflight st)
  <= count isSearchCall (ChatGPT.trace st) /\
  count isAddInfer (ChatGPT.trace st) + length (ChatGPT.inflight st)
  <= count isSearchCall (ChatGPT.trace st) /\
  count isAddFallback (ChatGPT.trace st) + length (ChatGPT.adds st)
  <= count isAddInfer (ChatGPT.trace st).
Proof.
  induction 1 as [i sb mc | st e Hreach (H1 & H2 & H3 & H4)].
  - unfold count. cbn. repeat split; lia.
  - destruct e as [shiftKey| | |i r|i r| |i sb mc]; cbn [ChatGPT.step].
    + destruct (ChatGPT.input st); [|now repeat split].
      destruct shiftKey; cbn [negb ChatGPT.getMemoryEnabledState];
        [now repeat split|].
      destruct (chatgpt_ledger_handleMem0Click ChatGPT.EnterKey
                  (ChatGPT.emit [PreventDefault; StopPropagation] st))
        as (E1 & E2 & E3 & E4 & E5 & E6 & E7).
      rewrite E5, E6. unfold count in *. cbn in E1, E2, E3, E4, E7.
      rewrite filter_app in E1, E2, E3, E4, E7. cbn in E1, E2, E3, E4, E7.
      rewrite app_nil_r in E1, E2, E3, E4, E7. cbn. repeat split; lia.
    + destruct (chatgpt_ledger_handleMem0Click ChatGPT.CtrlM
                  (ChatGPT.emit [PreventDefault] st))
        as (E1 & E2 & E3 & E4 & E5 & E6 & E7).
      rewrite E5, E6. unfold count in *. cbn in E1, E2, E3, E4, E7.
      rewrite filter_app in E1, E2, E3, E4, E7. cbn in E1, E2, E3, E4, E7.
      rewrite app_nil_r in E1, E2, E3, E4, E7. cbn. repeat split; lia.
    + destruct (chatgpt_ledger_handleMem0Click ChatGPT.Mem0Button st)
        as (E1 & E2 & E3 & E4 & E5 & E6 & E7).
      rewrite E5, E6. repeat split; lia.
    + destruct (nth_error (ChatGPT.inflight st) i) as [c|] eqn:Hc;
        [|now repeat split].
      pose proof (remove_nth_length _ _ _ Hc) as Hlen.
      unfold ChatGPT.resume_search, ChatGPT.write_input, ChatGPT.catch_finally.
      destruct r as [|status [data|]];
        [| destruct (ok status); cbn [negb];
           [destruct (ChatGPT.c_inputElement c);
            destruct (map memory (ChatGPT.memoriesArray data));
            destruct (ChatGPT.input st) as [[tc ih|tc v]|] eqn:Hin|]
         | destruct (negb (ok status))];
        destruct (ChatGPT.c_trigger c);
        cbn; rewrite ?Hin; cbn; try destruct (ChatGPT.sendButton st);
        ledger.
    + destruct (nth_error (ChatGPT.adds st) i) as [m|] eqn:Hm;
        [|now repeat split].
      pose proof (remove_nth_length _ _ _ Hm) as Hlen.
      unfold ChatGPT.resume_add.
      assert (Hlog : forall (q : effect -> bool) (l : list opEvent),
                 q ConsoleLog = false ->
                 filter q (map (fun _ => ConsoleLog) l) = []).
      { intros q l Hq. induction l as [|x l IH]; cbn; [reflexivity|].
        now rewrite Hq. }
      destruct r as [|status [|o ops]]; [| destruct (ok status)..];
        cbn [negb]; try break_match;
        unfold count in *;
        cbn [ChatGPT.emit ChatGPT.trace ChatGPT.adds ChatGPT.inflight
             ChatGPT.timers ChatGPT.set_adds];
        rewrite <- ?app_assoc, ?filter_app, ?Hlog by reflexivity;
        cbn; rewrite ?length_app; cbn; repeat split; lia.
    + destruct (ChatGPT.timers st) as [|n] eqn:Ht;
        [rewrite Ht; now repeat split|].
      ledger.
    + now repeat split.
Qed.

Lemma chatgpt_bookkeeping_witness :
  let st :=
    ChatGPT.step plain_render
      (ChatGPT.step plain_render
         (ChatGPT.step plain_render (chatgpt_page (lit "I love Python"))
            (ChatGPT.KeyDownEnter false))
         (ChatGPT.SearchSettled 0 (found [lit "Loves FastAPI"])))
      ChatGPT.TimerFired in
  count isClick (ChatGPT.trace st) + ChatGPT.timers st
  = count isSchedule (ChatGPT.trace st) /\
  count isSchedule (ChatGPT.trace st) + length (ChatGPT.inflight st)
  <= count isSearchCall (ChatGPT.trace st).
Proof.
  cbv zeta.
  match goal with
  | |- context [ChatGPT.trace ?s] =>
      assert (Hreach : ChatGPT.reachable plain_render s)
        by (do 3 apply ChatGPT.reachable_step; apply ChatGPT.reachable_init);
      destruct (chatgpt_bookkeeping plain_render s Hreach) as (H1 & H2 & _)
  end.
  split; assumption.
Defined.

Lemma textsite_ledger_handleEnterKey s shiftKey isComposing st :
  let st' := fst (TextSite.handleEnterKey s shiftKey isComposing st) in
  let stopped := snd (TextSite.handleEnterKey s shiftKey isComposing st) in
  count isClick (TextSite.trace st') = count isClick (TextSite.trace st) /\
  count isSchedule (TextSite.trace st') = count isSchedule (TextSite.trace st) /\
  count isSearchCall (TextSite.trace st') = count isSearchCall (TextSite.trace st) /\
  count isAddCall (TextSite.trace st') = count isAddCall (TextSite.trace st) /\
  TextSite.timers st' = TextSite.timers st /\
  TextSite.adds st' = TextSite.adds st /\
  length (filter awaits_search (TextSite.inflight st'))
  = length (filter awaits_search (TextSite.inflight st)) /\
  count isPrevent (TextSite.trace st') + length (TextSite.inflight st)
  >= count isPrevent (TextSite.trace st) + length (TextSite.inflight st').
Proof.
  cbn zeta. unfold TextSite.handleEnterKey, TextSite.handleMem0Processing.
  destruct (negb shiftKey && negb isComposing); [|cbn; repeat split; lia].
  destruct s; cbn [TextSite.textarea TextSite.emit TextSite.focused];
    (destruct (TextSite.textarea st) as [value|]; [|ledger]);
    (destruct (TextSite.focused st); [|ledger]);
    (destruct (truthy (Some (trim value))) eqn:Ht; [|ledger]);
    rewrite ?Ht; cbn [negb]; ledger.
Qed.

(** X14.  Bookkeeping of the Perplexity and Grok scripts over any run.
    Every click on the send button was scheduled before, and a scheduled
    click fires at most once.  What the scripts schedule and what they
    still wait for never exceeds the number of Enter keys they
    intercepted, so the send button is clicked at most once per
    intercepted Enter.  Every search call belongs to an intercepted Enter,
    and there is at most one add call per search call. *)
Theorem textsite_bookkeeping (s : TextSite.site) (st : TextSite.state) :
  TextSite.reachable s st ->
  count isClick (TextSite.trace st) + TextSite.timers st
  <= count isSchedule (TextSite.trace st) /\
  count isSchedule (TextSite.trace st) + length (TextSite.inflight st)
  <= count isPrevent (TextSite.trace st) /\
  count isSearchCall (TextSite.trace st) + length (TextSite.inflight st)
  <= count isPrevent (TextSite.trace st)
     + length (filter awaits_search (TextSite.inflight st)) /\
  count isAddCall (TextSite.trace st)
  + length (filter awaits_search (TextSite.inflight st))
  <= count isSearchCall (TextSite.trace st) /\
  TextSite.adds st <= count isAddCall (TextSite.trace st).
Proof.
  induction 1 as [ta f sb it | st e Hreach (H1 & H2 & H3 & H4 & H5)].
  - unfold count. cbn. repeat split; lia.
  - destruct e as [shiftKey isComposing| |v|i|i r|r| |ta f sb it];
      cbn [TextSite.step].
    + pose proof (textsite_ledger_handleEnterKey s shiftKey isComposing st)
        as (E1 & E2 & E3 & E4 & E5 & E6 & E7 & E8).
      destruct (TextSite.handleEnterKey s shiftKey isComposing st)
        as [st' stopped].
      cbn [fst snd] in *.
      assert (Hk : forall st0,
                 TextSite.trace (TextSite.textarea_keydown shiftKey st0)
                 = TextSite.trace st0 /\
                 TextSite.timers (TextSite.textarea_keydown shiftKey st0)
                 = TextSite.timers st0 /\
                 TextSite.inflight (TextSite.textarea_keydown shiftKey st0)
                 = TextSite.inflight st0 /\
                 TextSite.adds (TextSite.textarea_keydown shiftKey st0)
                 = TextSite.adds st0).
      { intros st0. unfold TextSite.textarea_keydown.
        repeat break_match; now repeat split. }
      destruct stopped.
      * repeat split; lia.
      * destruct (Hk st') as (K1 & K2 & K3 & K4). rewrite K1, K2, K3, K4.
        repeat split; lia.
    + repeat break_match; now repeat split.
    + break_match; now repeat split.
    + destruct (nth_error (TextSite.inflight st) i) as [[cap msg click|cap msg click msgs]|]
        eqn:Hi; [|now repeat split..].
      pose proof (remove_nth_length _ _ _ Hi) as Hlen.
      pose proof (remove_nth_filter awaits_search _ _ _ Hi) as Hrem.
      pose proof (replace_nth_length (TextSite.inflight st) i
                    (TextSite.AwaitSearch cap msg click
                       [{| msg_role := user; msg_content := msg |}])) as Hrl.
      pose proof (replace_nth_filter awaits_search _ _ _
                    (TextSite.AwaitSearch cap msg click
                       [{| msg_role := user; msg_content := msg |}]) Hi) as Hrf.
      cbn [awaits_search] in Hrem, Hrf.
      unfold TextSite.resume_storage, TextSite.clickSendButtonWithDelay.
      repeat break_match; ledger.
    + destruct (nth_error (TextSite.inflight st) i) as [[cap msg click|cap msg click msgs]|]
        eqn:Hi; [now repeat split| |now repeat split].
      pose proof (remove_nth_length _ _ _ Hi) as Hlen.
      pose proof (remove_nth_filter awaits_search _ _ _ Hi) as Hrem.
      cbn [awaits_search] in Hrem.
      unfold TextSite.resume_search, TextSite.catch_block,
        TextSite.setInputValue, TextSite.clickSendButtonWithDelay.
      repeat (cbn [TextSite.textarea TextSite.set_inflight TextSite.emit
                   TextSite.set_lastInputValue TextSite.set_textarea
                   TextSite.set_timers TextSite.set_adds negb];
              break_match);
        ledger.
    + destruct (TextSite.adds st) as [|n] eqn:Ha;
        [rewrite Ha; now repeat split|].
      destruct r as [|status ops]; [|destruct (ok status)]; ledger.
    + destruct (TextSite.timers st) as [|n] eqn:Ht;
        [rewrite Ht; now repeat split|].
      cbn [TextSite.sendButton TextSite.set_timers].
      destruct (TextSite.sendButton st); ledger.
    + now repeat split.
Qed.

Lemma textsite_bookkeeping_witness :
  let st :=
    TextSite.step TextSite.Grok
      (TextSite.step TextSite.Grok
         (TextSite.step TextSite.Grok
            (TextSite.step TextSite.Grok
               (text_page (lit "I love Python") true with_key)
               (TextSite.KeyDownEnter false false))
            (TextSite.StorageGot 0))
         (TextSite.SearchSettled 0 (found [lit "Loves FastAPI"])))
      TextSite.TimerFired in
  count isClick (TextSite.trace st) <= count isPrevent (TextSite.trace st).
Proof.
  cbv zeta.
  match goal with
  | |- context [TextSite.trace ?s] =>
      assert (Hreach : TextSite.reachable TextSite.Grok s)
        by (do 4 apply TextSite.reachable_step; apply TextSite.reachable_init);
      destruct (textsite_bookkeeping TextSite.Grok s Hreach) as (H1 & H2 & _)
  end.
  lia.
Defined.

(** ** What the text sites send to the memory service *)

Lemma Forall_remove_nth {A : Type} (P : A -> Prop) (l : list A) (i : nat) :
  Forall P l -> Forall P (remove_nth i l).
Proof.
  intros H; revert i; induction H as [|x l Hx Hl IH]; intros [|i];
    cbn [remove_nth]; auto.
Qed.

Lemma Forall_replace_nth {A : Type} (P : A -> Prop) (l : list A) (i : nat) (y : A) :
  P y -> Forall P l -> Forall P (replace_nth i y l).
Proof.
  intros Hy H; revert i; induction H as [|x l Hx Hl IH]; intros [|i];
    cbn [replace_nth]; auto.
Qed.

Lemma Forall_nth_error {A : Type} (P : A -> Prop) (l : list A) (i : nat) (x : A) :
  Forall P l -> nth_error l i = Some x -> P x.
Proof.
  intros H Hx. rewrite Forall_forall in H. apply H.
  now apply nth_error_In with i.
Qed.

Lemma truthy_nonempty (s : jsstring) : truthy (Some s) = true -> s <> [].
Proof. destruct s; [discriminate | discriminate]. Qed.

(** Closing a goal about a trace or a list of activations that was
    extended by known elements. *)
Ltac shape :=
  cbn; rewrite <- ?app_assoc, ?Forall_app;
  repeat split; auto using Forall_remove_nth;
  repeat (constructor; cbn; auto).

Lemma textsite_shape_handleEnterKey s shiftKey isComposing st :
  Forall text_call (TextSite.trace st) ->
  Forall from_enter (TextSite.inflight st) ->
  Forall text_call
         (TextSite.trace (fst (TextSite.handleEnterKey s shiftKey isComposing st))) /\
  Forall from_enter
         (TextSite.inflight (fst (TextSite.handleEnterKey s shiftKey isComposing st))).
Proof.
  intros Ht Hi. unfold TextSite.handleEnterKey, TextSite.handleMem0Processing.
  destruct (negb shiftKey && negb isComposing); [|now split].
  destruct s; cbn [TextSite.textarea TextSite.emit TextSite.focused];
    (destruct (TextSite.textarea st) as [value|]; [|shape]);
    (destruct (TextSite.focused st); [|shape]);
    (destruct (truthy (Some (trim value))) eqn:Hv; [|shape]);
    rewrite ?Hv; cbn [negb]; shape;
    auto using trimmed_trim, truthy_nonempty.
Qed.

(** X15.  Over any run of the Perplexity and Grok scripts, every search
    they send has limit 10 and a query that is trimmed and not empty, and every add they send carries exactly one message, of the
    user, trimmed and not empty, with [infer] set.  The activations still
    waiting hold such a message and the request to click the send
    button. *)
Theorem textsite_calls_shape (s : TextSite.site) (st : TextSite.state) :
  TextSite.reachable s st ->
  Forall text_call (TextSite.trace st) /\
  Forall from_enter (TextSite.inflight st).
Proof.
  induction 1 as [ta f sb it | st e Hreach [Ht Hi]].
  - split; constructor.
  - destruct e as [shiftKey isComposing| |v|i|i r|r| |ta f sb it];
      cbn [TextSite.step].
    + destruct (textsite_shape_handleEnterKey s shiftKey isComposing st Ht Hi)
        as [Ht' Hi'].
      destruct (TextSite.handleEnterKey s shiftKey isComposing st)
        as [st' stopped].
      cbn [fst] in Ht', Hi'. destruct stopped; [now split|].
      unfold TextSite.textarea_keydown. repeat break_match; now split.
    + repeat break_match; now split.
    + break_match; now split.
    + destruct (nth_error (TextSite.inflight st) i)
        as [[cap msg click|cap msg click msgs]|] eqn:Hn; [|now split..].
      pose proof (Forall_nth_error _ _ _ _ Hi Hn) as (Hm & Htr & Hne & Hc).
      unfold TextSite.resume_storage, TextSite.clickSendButtonWithDelay.
      repeat break_match; shape;
        try (apply Forall_replace_nth; [cbn; auto|assumption]);
        subst; auto.
    + destruct (nth_error (TextSite.inflight st) i)
        as [[cap msg click|cap msg click msgs]|] eqn:Hn;
        [now split| |now split].
      pose proof (Forall_nth_error _ _ _ _ Hi Hn) as (Hm & Htr & Hne & Hc & Hms).
      unfold TextSite.resume_search, TextSite.catch_block,
        TextSite.setInputValue, TextSite.clickSendButtonWithDelay.
      repeat (cbn [TextSite.textarea TextSite.set_inflight TextSite.emit
                   TextSite.set_lastInputValue TextSite.set_textarea
                   TextSite.set_timers TextSite.set_adds negb];
              break_match);
        shape; subst; exists cap; auto.
    + repeat break_match; shape.
    + repeat break_match; shape.
    + now split.
Qed.

Lemma textsite_calls_shape_witness :
  let st :=
    TextSite.step TextSite.Perplexity
      (TextSite.step TextSite.Perplexity
         (TextSite.step TextSite.Perplexity
            (text_page (lit "  I love Python ") true with_key)
            (TextSite.KeyDownEnter false false))
         (TextSite.StorageGot 0))
      (TextSite.SearchSettled 0 (found [lit "Loves FastAPI"])) in
  Forall text_call (TextSite.trace st) /\
  In (SearchCall (lit "I love Python") 10) (TextSite.trace st).
Proof.
  cbv zeta. split.
  - apply (textsite_calls_shape TextSite.Perplexity).
    do 3 apply TextSite.reachable_step. apply TextSite.reachable_init.
  - vm_compute. tauto.
Defined.

(** ** What the ChatGPT script sends to the memory service *)

Lemma chatgpt_shape_handleMem0Click tr st :
  Forall chatgpt_call (ChatGPT.trace st) ->
  Forall (fun c => chatgpt_call (AddCall (ChatGPT.c_messages c) true))
         (ChatGPT.inflight st) ->
  Forall chatgpt_call (ChatGPT.trace (ChatGPT.handleMem0Click tr st)) /\
  Forall (fun c => chatgpt_call (AddCall (ChatGPT.c_messages c) true))
         (ChatGPT.inflight (ChatGPT.handleMem0Click tr st)) /\
  ChatGPT.adds (ChatGPT.handleMem0Click tr st) = ChatGPT.adds st.
Proof.
  intros Ht Hi. unfold ChatGPT.handleMem0Click.
  cbn [ChatGPT.getMemoryEnabledState negb].
  destruct (truthy (ChatGPT.getInputValue (ChatGPT.emit [ButtonLoading true] st)));
    cbn [negb].
  - destruct (ChatGPT.isProcessingMem0 (ChatGPT.emit [ButtonLoading true] st)).
    + shape.
    + destruct (ChatGPT.getLastMessages 2 _) as [before|].
      * shape; auto using strip_message_no_marker, strip_message_idem.
        eexists before, _. split; [reflexivity|].
        apply strip_message_no_marker.
      * unfold ChatGPT.catch_finally. destruct tr; shape.
  - destruct tr; shape.
Qed.

(** X16.  Over any run of the ChatGPT script, every search it sends has
    limit 20 and a query that holds no marker and that the strip leaves as
    it is, and every add it sends, the repeated one
    included, ends with a message of the user that holds no marker. *)
Theorem chatgpt_calls_shape (render : jsstring -> jsstring) (st : ChatGPT.state) :
  ChatGPT.reachable render st ->
  Forall chatgpt_call (ChatGPT.trace st) /\
  Forall (fun c => chatgpt_call (AddCall (ChatGPT.c_messages c) true))
         (ChatGPT.inflight st) /\
  Forall (fun messages => chatgpt_call (AddCall messages false))
         (ChatGPT.adds st).
Proof.
  induction 1 as [i sb mc | st e Hreach (Ht & Hi & Ha)].
  - repeat split; constructor.
  - destruct e as [shiftKey| | |i r|i r| |i sb mc]; cbn [ChatGPT.step].
    + destruct (ChatGPT.input st); [|now repeat split].
      destruct shiftKey; cbn [negb ChatGPT.getMemoryEnabledState];
        [now repeat split|].
      destruct (chatgpt_shape_handleMem0Click ChatGPT.EnterKey
                  (ChatGPT.emit [PreventDefault; StopPropagation] st))
        as (Ht' & Hi' & Ha'); [shape | exact Hi |].
      rewrite Ha'. now repeat split.
    + destruct (chatgpt_shape_handleMem0Click ChatGPT.CtrlM
                  (ChatGPT.emit [PreventDefault] st))
        as (Ht' & Hi' & Ha'); [shape | exact Hi |].
      rewrite Ha'. now repeat split.
    + destruct (chatgpt_shape_handleMem0Click ChatGPT.Mem0Button st Ht Hi)
        as (Ht' & Hi' & Ha').
      rewrite Ha'. now repeat split.
    + destruct (nth_error (ChatGPT.inflight st) i) as [c|] eqn:Hc;
        [|now repeat split].
      pose proof (Forall_nth_error _ _ _ _ Hi Hc) as Hcall.
      unfold ChatGPT.resume_search, ChatGPT.write_input, ChatGPT.catch_finally.
      destruct r as [|status [data|]];
        [| destruct (ok status); cbn [negb];
           [destruct (ChatGPT.c_inputElement c);
            destruct (map memory (ChatGPT.memoriesArray data));
            destruct (ChatGPT.input st) as [[tc ih|tc v]|] eqn:Hin|]
         | destruct (negb (ok status))];
        destruct (ChatGPT.c_trigger c);
        cbn; rewrite ?Hin; cbn; try destruct (ChatGPT.sendButton st);
        shape.
    + destruct (nth_error (ChatGPT.adds st) i) as [m|] eqn:Hm;
        [|now repeat split].
      pose proof (Forall_nth_error _ _ _ _ Ha Hm) as Hcall.
      assert (Hlog : forall l : list opEvent,
                 Forall chatgpt_call (map (fun _ => ConsoleLog) l)).
      { induction l; constructor; cbn; auto. }
      unfold ChatGPT.resume_add.
      destruct r as [|status [|o ops]]; [| destruct (ok status)..];
        cbn [negb]; try break_match;
        cbn [ChatGPT.emit ChatGPT.trace ChatGPT.adds ChatGPT.inflight
             ChatGPT.set_adds];
        rewrite <- ?app_assoc, ?Forall_app;
        repeat split; auto using Forall_remove_nth;
        repeat (constructor; cbn [chatgpt_call]; auto).
    + destruct (ChatGPT.timers st) as [|n]; [now repeat split|]. shape.
    + now repeat split.
Qed.

Lemma chatgpt_calls_shape_witness :
  let st :=
    ChatGPT.step plain_render
      (ChatGPT.step plain_render (chatgpt_page (lit "I love Python"))
         (ChatGPT.KeyDownEnter false))
      (ChatGPT.SearchSettled 0 (found [lit "Loves FastAPI"])) in
  Forall chatgpt_call (ChatGPT.trace st) /\
  In (SearchCall (lit "I love Python") 20) (ChatGPT.trace st).
Proof.
  cbv zeta. split.
  - apply (chatgpt_calls_shape plain_render).
    do 2 apply ChatGPT.reachable_step. apply ChatGPT.reachable_init.
  - vm_compute. tauto.
Defined.

(** ** Fixed points of the strips, and what the text sites accumulate *)

(** X17.  The regex strip of the ChatGPT script leaves a content as it is
    exactly when the content is trimmed and holds no marker; the prefix
    strip of the Grok script leaves a value as it is exactly when the value
    holds no marker. *)
Theorem strip_fixed_points (s : jsstring) :
  (strip_regex s = s <-> trimmed s /\ ~ infix memoryPrefix s) /\
  (TextSite.strip_prefix s = s <-> ~ infix memoryPrefix s).
Proof.
  split; split.
  - intros H. split.
    + unfold trimmed. rewrite <- H at 1. unfold strip_regex.
      rewrite trim_idem. exact H.
    + rewrite <- H. apply strip_regex_no_marker.
  - intros [Ht Hm]. unfold strip_regex. now rewrite replace_memInfo_id.
  - intros H. unfold TextSite.strip_prefix in H.
    destruct (indexOf memoryPrefix s) as [e|] eqn:He.
    + exfalso. apply (strip_prefix_result _ _ He).
      apply infix_trim. unfold substring0 in H. rewrite H.
      destruct (indexOf_Some_split _ _ _ He) as (a & b & Hab & _).
      now exists a, b.
    + now apply indexOf_None_iff.
  - apply strip_prefix_no_marker.
Qed.

Lemma occurrences_cons_other (c : N) (s : jsstring) :
  c <> 72%N ->
  occurrences memoryPrefix (c :: s) = occurrences memoryPrefix s.
Proof.
  intros Hc. cbn [occurrences].
  destruct (startsWith memoryPrefix (c :: s)) eqn:Hs; [|reflexivity].
  exfalso. apply Hc. now apply (startsWith_memoryPrefix_head c s).
Qed.

Lemma text_bullets_free (memories : list jsstring) :
  Forall (fun mem => ~ infix memoryPrefix mem) memories ->
  occurrences memoryPrefix (lines (map bullet memories)) = 0.
Proof.
  induction 1 as [|mem memories Hmem _ IH].
  - apply occurrences_nil, memoryPrefix_nonempty.
  - cbn [map lines]. destruct (map bullet memories) as [|b bs] eqn:Hb.
    + unfold bullet.
      change (lit "- " ++ mem) with (45 :: 32 :: mem)%N.
      rewrite !occurrences_cons_other by discriminate.
      now apply occurrences_free.
    + unfold bullet.
      change ((lit "- " ++ mem) ++ nl ++ lines (b :: bs))
        with (45 :: 32 :: (mem ++ 10 :: lines (b :: bs)))%N.
      rewrite !occurrences_cons_other by discriminate.
      rewrite occurrences_sep by (apply marker_no_nl || apply memoryPrefix_nonempty).
      rewrite IH, (occurrences_free _ Hmem). reflexivity.
Qed.

(** X18.  When no memory holds the marker, the value the Perplexity and
    Grok scripts compose holds one marker more than the message it was
    composed from: these scripts strip nothing from the message, so a block
    that is already in the captured text stays and a second one is
    appended. *)
Theorem text_compose_accumulates (message : jsstring) (memories : list jsstring) :
  Forall (fun mem => ~ infix memoryPrefix mem) memories ->
  occurrences memoryPrefix (TextSite.compose message memories)
  = occurrences memoryPrefix message + 1.
Proof.
  intros Hm. unfold TextSite.compose.
  rewrite text_memoriesContent_closed. unfold text_block.
  change (message ++ nl ++ nl ++ memoryPrefix ++ nl ++ lines (map bullet memories))
    with (message ++ 10%N :: ([] ++ 10%N :: (memoryPrefix
            ++ 10%N :: lines (map bullet memories)))).
  rewrite !occurrences_sep by (apply marker_no_nl || apply memoryPrefix_nonempty).
  rewrite text_bullets_free by exact Hm.
  rewrite occurrences_nil by apply memoryPrefix_nonempty.
  assert (H1 : occurrences memoryPrefix memoryPrefix = 1) by (vm_compute; reflexivity).
  rewrite H1. lia.
Qed.

Lemma text_compose_accumulates_witness :
  occurrences memoryPrefix
    (TextSite.compose
       (TextSite.compose (lit "I love Python") [lit "Loves FastAPI"])
       [lit "Loves FastAPI"])
  = occurrences memoryPrefix
      (TextSite.compose (lit "I love Python") [lit "Loves FastAPI"]) + 1.
Proof.
  apply text_compose_accumulates.
  constructor; [|constructor]. apply closed_free. vm_compute. reflexivity.
Defined.

(** ** The hooks of the ChatGPT script *)

(** X19.  The three functions the mutation observers of the ChatGPT script
    call on every change of the page attach nothing twice: running
    [addEnterKeyInterception], [addSyncButton] or [addMem0Button] a second
    time on the page the first run left changes nothing. *)
Theorem hooks_idempotent (inputElement : option Hooks.inputNode)
        (d : Hooks.dialog) (c : Hooks.composer) :
  Hooks.addEnterKeyInterception (Hooks.addEnterKeyInterception inputElement)
  = Hooks.addEnterKeyInterception inputElement /\
  Hooks.addSyncButton (Hooks.addSyncButton d) = Hooks.addSyncButton d /\
  Hooks.addMem0Button (Hooks.addMem0Button c) = Hooks.addMem0Button c.
Proof.
  split; [|split].
  - destruct inputElement as [[[|] n]|]; reflexivity.
  - destruct d as [[|] [[[| |] n dis]|]]; reflexivity.
  - destruct c as [[[|]|] [m|] [[tc n]|]]; reflexivity.
Qed.

(** X20.  Whatever the page does to its input node (replacing it by a new
    node, removing it) and whenever the observer runs, the node in place
    carries at most one [keydown] listener of the script, and it carries
    one exactly when its [enterKeyIntercepted] flag is set; right after the
    observer ran, a node in place carries exactly one.  So one Enter starts
    one activation. *)
Theorem enter_listener_once (start : option Hooks.inputNode)
        (es : list Hooks.inputEvent) :
  (forall node, start = Some node ->
     Hooks.keydownListeners node
     = if Hooks.enterKeyIntercepted node then 1 else 0) ->
  match Hooks.input_run start es with
  | Some node =>
      Hooks.keydownListeners node
      = (if Hooks.enterKeyIntercepted node then 1 else 0)
  | None => True
  end /\
  match Hooks.input_run start (es ++ [Hooks.Observed]) with
  | Some node => Hooks.keydownListeners node = 1
  | None => Hooks.input_run start es = None
  end.
Proof.
  intros Hstart.
  assert (Hinv : match Hooks.input_run start es with
                 | Some node =>
                     Hooks.keydownListeners node
                     = (if Hooks.enterKeyIntercepted node then 1 else 0)
                 | None => True
                 end).
  { revert start Hstart. induction es as [|e es IH]; intros start Hstart.
    - cbn. destruct start as [node|]; [now apply Hstart | exact I].
    - cbn [Hooks.input_run fold_left]. apply IH.
      intros node. destruct e; cbn [Hooks.input_step].
      + destruct start as [[flag n]|]; [|discriminate].
        specialize (Hstart _ eq_refl). cbn in Hstart.
        destruct flag; cbn; intros H; injection H as <-; cbn;
          [exact Hstart | now rewrite Hstart].
      + intros H; injection H as <-. reflexivity.
      + discriminate. }
  split; [exact Hinv|].
  unfold Hooks.input_run in *. rewrite fold_left_app. cbn [fold_left Hooks.input_step].
  destruct (fold_left Hooks.input_step es start) as [[flag n]|]; [|reflexivity].
  cbn in Hinv. destruct flag; cbn; [exact Hinv | now rewrite Hinv].
Qed.

Lemma enter_listener_once_witness :
  match Hooks.input_run None
          [Hooks.Rendered; Hooks.Observed; Hooks.Observed; Hooks.Rendered;
           Hooks.Observed; Hooks.Observed] with
  | Some node => Hooks.keydownListeners node = 1
  | None => False
  end.
Proof.
  destruct (enter_listener_once None
              [Hooks.Rendered; Hooks.Observed; Hooks.Observed; Hooks.Rendered;
               Hooks.Observed]) as [_ H].
  - intros node Hnode. discriminate Hnode.
  - exact H.
Defined.

(** ** The sync of the settings dialog *)

Lemma forEach_row_prefix (pre rest : list Sync.row)
      (memories : list ConversationMessage) (st : Sync.state) :
  forallb Sync.readable pre = true ->
  exists st',
    Sync.trace st' = Sync.trace st ++ map Sync.SendMemory (Sync.memories_of pre) /\
    Sync.table st' = Sync.table st /\
    Sync.syncButton st' = Sync.syncButton st /\
    Sync.syncButtonContent st' = Sync.syncButtonContent st /\
    Sync.activations st' = Sync.activations st /\
    Sync.forEach_row (pre ++ rest) memories st
    = Sync.forEach_row rest (memories ++ Sync.memories_of pre) st'.
Proof.
  revert memories st. induction pre as [|r pre IH]; intros memories st Hr.
  - exists st. cbn. now rewrite !app_nil_r.
  - cbn [forallb] in Hr. apply andb_true_iff in Hr as [Hr Hpre].
    destruct r as [|[text|]]; [| |discriminate].
    + destruct (IH memories st Hpre) as (st' & H). now exists st'.
    + cbn [app Sync.forEach_row].
      destruct (IH (memories ++
                      [{| msg_role := user;
                          msg_content := lit "Remember this about me: " ++ trim text |}])
                   (Sync.emit
                      [Sync.SendMemory
                         {| msg_role := user;
                            msg_content := lit "Remember this about me: " ++ trim text |}]
                      st) Hpre)
        as (st' & Ht & Htab & Hsb & Hsbc & Ha & Heq).
      exists st'. cbn [Sync.memories_of flat_map map app] in *.
      rewrite Ht, Heq. cbn [Sync.emit Sync.trace].
      now rewrite <- !app_assoc.
Qed.

Lemma forEach_row_length (rows : list Sync.row)
      (memories : list ConversationMessage) (st : Sync.state) :
  length (snd (fst (Sync.forEach_row rows memories st)))
  <= length memories + length rows /\
  Sync.activations (fst (fst (Sync.forEach_row rows memories st)))
  = Sync.activations st.
Proof.
  revert memories st. induction rows as [|r rows IH]; intros memories st.
  - cbn. split; [lia | reflexivity].
  - destruct r as [|[text|]]; cbn [Sync.forEach_row length].
    + destruct (IH memories st) as [H1 H2]. split; [lia | exact H2].
    + match goal with
      | |- context [Sync.forEach_row rows ?m ?s] =>
          destruct (IH m s) as [H1 H2]
      end.
      rewrite length_app in H1. cbn [length] in H1.
      split; [lia | exact H2].
    + cbn. split; [lia | reflexivity].
Qed.

Lemma memories_of_length (rows : list Sync.row) :
  length (Sync.memories_of rows) <= length rows.
Proof.
  induction rows as [|r rows IH]; [apply Nat.le_refl|].
  unfold Sync.memories_of in *. cbn [flat_map].
  rewrite length_app. destruct r as [|[text|]]; cbn [length]; lia.
Qed.

(** X21.  A click on the sync button, with the table, the button and its
    label in place and every first cell readable, disables the button,
    sends one request per row that has a cell, in row order, and then one
    request with all these memories together; each memory is a user
    message made of the fixed lead-in and the trimmed text of the cell.
    The batch request is sent even when no row gave a memory. *)
Theorem sync_click_requests (st : Sync.state) (rows : list Sync.row) :
  Sync.table st = Some rows ->
  Sync.syncButton st = true -> Sync.syncButtonContent st = true ->
  forallb Sync.readable rows = true ->
  let st' := Sync.handleSyncClick st in
  let memories := Sync.memories_of rows in
  Sync.trace st'
  = Sync.trace st ++ [Sync.SetDisabled true; Sync.SetLabel true]
      ++ map Sync.SendMemory memories ++ [Sync.SendMemories memories] /\
  Sync.activations st'
  = Sync.activations st
      ++ [{| Sync.syncedCount := 0; Sync.totalCount := length rows;
             Sync.memories_length := length memories;
             Sync.items := length memories; Sync.batch := true |}].
Proof.
  intros Ht Hsb Hsbc Hr. cbn zeta. unfold Sync.handleSyncClick.
  cbn [ChatGPT.getMemoryEnabledState negb]. rewrite Ht, Hsb.
  unfold Sync.setSyncButtonLoadingState. rewrite Hsb.
  cbn [Sync.emit Sync.syncButtonContent]. rewrite Hsbc.
  match goal with
  | |- context [Sync.forEach_row rows [] ?s] =>
      destruct (forEach_row_prefix rows [] [] s Hr)
        as (st' & Htr & _ & _ & _ & Ha & Heq)
  end.
  rewrite app_nil_r in Heq. rewrite Heq. cbn [Sync.forEach_row app].
  cbn [Sync.set_activations Sync.emit Sync.trace Sync.activations].
  rewrite Htr, Ha. cbn [Sync.trace Sync.activations Sync.emit].
  now rewrite <- !app_assoc.
Qed.

Lemma sync_click_requests_witness :
  let rows := [Sync.FirstCell (Some (lit " Likes tea ")); Sync.NoCells;
               Sync.FirstCell (Some (lit "Lives in Oslo"))] in
  let likes := {| msg_role := user;
                  msg_content := lit "Remember this about me: Likes tea" |} in
  let lives := {| msg_role := user;
                  msg_content := lit "Remember this about me: Lives in Oslo" |} in
  Sync.trace (Sync.handleSyncClick (Sync.init (Some rows) true true))
  = [Sync.SetDisabled true; Sync.SetLabel true; Sync.SendMemory likes;
     Sync.SendMemory lives; Sync.SendMemories [likes; lives]].
Proof.
  cbv zeta.
  destruct (sync_click_requests
              (Sync.init
                 (Some [Sync.FirstCell (Some (lit " Likes tea ")); Sync.NoCells;
                        Sync.FirstCell (Some (lit "Lives in Oslo"))])
                 true true)
              _ eq_refl eq_refl eq_refl eq_refl) as [H _].
  eapply eq_trans; [exact H | reflexivity].
Defined.

(** X22.  When the first cell of some row has no text node, the click
    stops at that row: the rows before it have had their requests, the rows
    after it get none, the batch request is not sent, and the click does
    not enable the button again.  The activation it leaves has no batch
    request outstanding and fewer memories than the table has rows. *)
Theorem sync_unreadable_row (st : Sync.state) (pre post : list Sync.row) :
  Sync.table st = Some (pre ++ Sync.FirstCell None :: post) ->
  Sync.syncButton st = true -> Sync.syncButtonContent st = true ->
  forallb Sync.readable pre = true ->
  let st' := Sync.handleSyncClick st in
  let memories := Sync.memories_of pre in
  Sync.trace st'
  = Sync.trace st ++ [Sync.SetDisabled true; Sync.SetLabel true]
      ++ map Sync.SendMemory memories /\
  Sync.activations st'
  = Sync.activations st
      ++ [{| Sync.syncedCount := 0;
             Sync.totalCount := length pre + S (length post);
             Sync.memories_length := length memories;
             Sync.items := length memories; Sync.batch := false |}] /\
  length memories < length pre + S (length post).
Proof.
  intros Ht Hsb Hsbc Hr. cbn zeta. unfold Sync.handleSyncClick.
  cbn [ChatGPT.getMemoryEnabledState negb]. rewrite Ht, Hsb.
  unfold Sync.setSyncButtonLoadingState. rewrite Hsb.
  cbn [Sync.emit Sync.syncButtonContent]. rewrite Hsbc.
  match goal with
  | |- context [Sync.forEach_row _ [] ?s] =>
      destruct (forEach_row_prefix pre (Sync.FirstCell None :: post) [] s Hr)
        as (st' & Htr & _ & _ & _ & Ha & Heq)
  end.
  rewrite Heq. cbn [Sync.forEach_row app].
  cbn [Sync.set_activations Sync.emit Sync.trace Sync.activations].
  rewrite Htr, Ha, length_app. cbn [Sync.trace Sync.activations Sync.emit length].
  rewrite <- !app_assoc. repeat split.
  pose proof (memories_of_length pre). lia.
Qed.

Lemma sync_unreadable_row_witness :
  let likes := {| msg_role := user;
                  msg_content := lit "Remember this about me: Likes tea" |} in
  Sync.trace
    (Sync.handleSyncClick
       (Sync.init (Some [Sync.FirstCell (Some (lit "Likes tea"));
                         Sync.FirstCell None;
                         Sync.FirstCell (Some (lit "Lives in Oslo"))])
                  true true))
  = [Sync.SetDisabled true; Sync.SetLabel true; Sync.SendMemory likes].
Proof.
  cbv zeta.
  destruct (sync_unreadable_row
              (Sync.init
                 (Some ([Sync.FirstCell (Some (lit "Likes tea"))]
                          ++ Sync.FirstCell None
                          :: [Sync.FirstCell (Some (lit "Lives in Oslo"))]))
                 true true)
              _ _ eq_refl eq_refl eq_refl eq_refl) as [H _].
  eapply eq_trans; [exact H | reflexivity].
Defined.

Lemma setSyncButtonLoadingState_activations (b : bool) (st : Sync.state) :
  Sync.activations (fst (Sync.setSyncButtonLoadingState b st))
  = Sync.activations st.
Proof.
  unfold Sync.setSyncButtonLoadingState.
  destruct (Sync.syncButton st); [|reflexivity].
  cbn [Sync.emit Sync.syncButtonContent].
  destruct (Sync.syncButtonContent st); reflexivity.
Qed.

Lemma handleSyncClick_counted (st : Sync.state) :
  Forall Sync.counted (Sync.activations st) ->
  Forall Sync.counted (Sync.activations (Sync.handleSyncClick st)).
Proof.
  intros H. unfold Sync.handleSyncClick.
  cbn [ChatGPT.getMemoryEnabledState negb].
  destruct (Sync.table st) as [rows|]; [|exact H].
  destruct (Sync.syncButton st) eqn:Hsb; [|exact H].
  pose proof (setSyncButtonLoadingState_activations true st) as Hact.
  destruct (Sync.setSyncButtonLoadingState true st) as [st1 returned].
  cbn [fst] in Hact. destruct returned; [|now rewrite Hact].
  pose proof (forEach_row_length rows [] st1) as [Hlen Ha].
  destruct (Sync.forEach_row rows [] st1) as [[st2 memories] returned].
  cbn [fst snd length] in Hlen, Ha.
  assert (Hst : Sync.activations
                  (if returned then Sync.emit [Sync.SendMemories memories] st2
                   else st2) = Sync.activations st)
    by (destruct returned; cbn; congruence).
  cbn [Sync.set_activations Sync.activations]. rewrite Hst.
  apply Forall_app. split; [exact H|].
  constructor; [|constructor]. unfold Sync.counted. cbn. lia.
Qed.

Lemma sync_counted (st : Sync.state) :
  Sync.reachable st -> Forall Sync.counted (Sync.activations st).
Proof.
  induction 1 as [t sb sbc | st e Hreach IH].
  - constructor.
  - destruct e as [|i r|i r|t sb sbc]; cbn [Sync.step].
    + now apply handleSyncClick_counted.
    + destruct (nth_error (Sync.activations st) i) as [act|] eqn:Hact;
        [|exact IH].
      destruct (0 <? Sync.items act) eqn:Hitems; [|exact IH].
      apply Nat.ltb_lt in Hitems.
      pose proof (Forall_nth_error _ _ _ _ IH Hact) as [Hc1 Hc2].
      unfold Sync.item_settled, Sync.item_catch.
      destruct (Sync.resolved r).
      * cbn [Sync.syncedCount Sync.totalCount].
        match goal with
        | |- context [Sync.set_activations ?l st] =>
            assert (Hl : Forall Sync.counted l)
              by (apply Forall_replace_nth; [unfold Sync.counted; cbn; lia | exact IH]);
            set (acts := l) in *
        end.
        destruct (S (Sync.syncedCount act) =? Sync.totalCount act); [|exact Hl].
        match goal with
        | |- context [Sync.setSyncButtonLoadingState false ?s] =>
            pose proof (setSyncButtonLoadingState_activations false s) as Ha1;
            destruct (Sync.setSyncButtonLoadingState false s) as [st1 returned]
        end.
        cbn [fst] in Ha1. destruct returned.
        -- now rewrite Ha1.
        -- rewrite setSyncButtonLoadingState_activations. cbn. now rewrite Ha1.
      * cbn [Sync.syncedCount Sync.totalCount].
        match goal with
        | |- context [Sync.set_activations ?l st] =>
            assert (Hl : Forall Sync.counted l)
              by (apply Forall_replace_nth; [unfold Sync.counted; cbn; lia | exact IH]);
            set (acts := l) in *
        end.
        destruct (Sync.syncedCount act =? Sync.totalCount act); [|exact Hl].
        rewrite setSyncButtonLoadingState_activations. exact Hl.
    + destruct (nth_error (Sync.activations st) i) as [act|] eqn:Hact;
        [|exact IH].
      destruct (Sync.batch act); [|exact IH].
      pose proof (Forall_nth_error _ _ _ _ IH Hact) as [Hc1 Hc2].
      unfold Sync.batch_settled, Sync.batch_catch.
      match goal with
      | |- context [Sync.set_activations ?l st] =>
          assert (Hl : Forall Sync.counted l)
            by (apply Forall_replace_nth; [unfold Sync.counted; cbn; lia | exact IH]);
          set (acts := l) in *
      end.
      destruct (Sync.resolved r).
      * match goal with
        | |- context [Sync.setSyncButtonLoadingState false ?s] =>
            pose proof (setSyncButtonLoadingState_activations false s) as Ha1;
            destruct (Sync.setSyncButtonLoadingState false s) as [st1 returned]
        end.
        cbn [fst] in Ha1. destruct returned.
        -- now rewrite Ha1.
        -- rewrite setSyncButtonLoadingState_activations. cbn. now rewrite Ha1.
      * rewrite setSyncButtonLoadingState_activations. exact Hl.
    + exact IH.
Qed.

(** X23.  What the requests of the single rows report when they settle.  A
    request that failed reports nothing and touches nothing on the page.
    No request of a click reports anything when some row of the table gave
    no memory.  The notice with the count out of the total is never shown
    while the label of the button is in place. *)
Theorem sync_item_reports (st : Sync.state) (i : nat) (act : Sync.activation)
        (r : addResult) :
  Sync.reachable st ->
  nth_error (Sync.activations st) i = Some act ->
  let st' := Sync.step st (Sync.ItemSettled i r) in
  (Sync.resolved r = false -> Sync.trace st' = Sync.trace st) /\
  (Sync.memories_length act < Sync.totalCount act ->
   Sync.trace st' = Sync.trace st) /\
  (Sync.syncButtonContent st = true ->
   filter Sync.isPartial (Sync.trace st')
   = filter Sync.isPartial (Sync.trace st)).
Proof.
  intros Hreach Hact. cbn zeta. cbn [Sync.step]. rewrite Hact.
  pose proof (Forall_nth_error _ _ _ _ (sync_counted st Hreach) Hact) as [Hc1 Hc2].
  destruct (0 <? Sync.items act) eqn:Hitems; [|now repeat split].
  apply Nat.ltb_lt in Hitems.
  unfold Sync.item_settled, Sync.item_catch.
  cbn [Sync.syncedCount Sync.totalCount].
  assert (Hne : (Sync.syncedCount act =? Sync.totalCount act) = false)
    by (apply Nat.eqb_neq; lia).
  split; [|split].
  - intros Hr. rewrite Hr, Hne. reflexivity.
  - intros Hlt. rewrite Hne.
    assert (Hne' : (S (Sync.syncedCount act) =? Sync.totalCount act) = false)
      by (apply Nat.eqb_neq; lia).
    rewrite Hne'. now destruct (Sync.resolved r).
  - intros Hsbc. rewrite Hne.
    destruct (Sync.resolved r); [|reflexivity].
    destruct (S (Sync.syncedCount act) =? Sync.totalCount act); [|reflexivity].
    unfold Sync.setSyncButtonLoadingState.
    cbn [Sync.emit Sync.set_activations Sync.syncButton Sync.syncButtonContent].
    rewrite Hsbc.
    destruct (Sync.syncButton st); cbn; rewrite ?filter_app; cbn;
      now rewrite ?app_nil_r.
Qed.

Lemma sync_item_reports_witness :
  let st :=
    Sync.handleSyncClick
      (Sync.init (Some [Sync.FirstCell (Some (lit "Likes tea")); Sync.NoCells])
                 true true) in
  Sync.trace (Sync.step st (Sync.ItemSettled 0 (AddResponse 200 [])))
  = Sync.trace st /\
  Sync.trace (Sync.step st (Sync.ItemSettled 0 AddNetworkError))
  = Sync.trace st.
Proof.
  cbv zeta.
  assert (Hreach : Sync.reachable
                     (Sync.step
                        (Sync.init
                           (Some [Sync.FirstCell (Some (lit "Likes tea"));
                                  Sync.NoCells]) true true)
                        Sync.ClickSync))
    by apply Sync.reachable_step, Sync.reachable_init.
  split.
  - destruct (sync_item_reports _ 0
                {| Sync.syncedCount := 0; Sync.totalCount := 2;
                   Sync.memories_length := 1; Sync.items := 1;
                   Sync.batch := true |}
                (AddResponse 200 []) Hreach eq_refl) as (_ & H & _).
    apply H. cbn. lia.
  - destruct (sync_item_reports _ 0
                {| Sync.syncedCount := 0; Sync.totalCount := 2;
                   Sync.memories_length := 1; Sync.items := 1;
                   Sync.batch := true |}
                AddNetworkError Hreach eq_refl) as (H & _).
    apply H. reflexivity.
Defined.
